(** * Shallow embedding of the guillotine cutting-plan engine

    Source: [src/optimizer/models.py] and [src/optimizer/guillotine.py].
    Python floats are modelled as exact rationals [Q] (all arithmetic in the
    engine is +, -, *, / and comparisons); Python ints as [Z]; Python
    strings as Rocq strings; dicts as association lists with Python's
    insertion-ordered update semantics. *)

From Stdlib Require Import QArith Lqa ZArith Lia List String Ascii Bool
  Sorted Permutation SetoidList.
Import ListNotations.

(* ------------------------------------------------------------------ *)
(** ** models.py *)

Module Dimension3D.
Record t := mk { length_mm : Q; width_mm : Q; thickness_mm : Q }.

  (** [sorted_tuple] (the name notwithstanding, it does not sort). *)
Definition sorted_tuple (d : t) : Q * Q * Q :=
    (length_mm d, width_mm d, thickness_mm d).
End Dimension3D.

(** Python's [a < b] and [a >= b] on floats. *)
Definition Qltb (x y : Q) : bool := negb (Qle_bool y x).
Definition Qgeb (x y : Q) : bool := Qle_bool y x.

Module Tolerance.
Record t := mk { length_mm : Q; width_mm : Q; thickness_mm : Q }.

Definition default : t := mk 0 0 0.

Definition within (tol : t) (required actual : Dimension3D.t) : bool :=
    Qgeb (Dimension3D.length_mm actual) (Dimension3D.length_mm required - length_mm tol)
    && Qgeb (Dimension3D.width_mm actual) (Dimension3D.width_mm required - width_mm tol)
    && Qgeb (Dimension3D.thickness_mm actual)
            (Dimension3D.thickness_mm required - thickness_mm tol).
End Tolerance.

Module InventoryItem.
Record t := mk {
    name : string;
    dimensions_mm : Dimension3D.t;
    quantity : Z;
    cost_per_unit : option Q;
    material : option string }.
End InventoryItem.

Module PartRequirement.
Record t := mk {
    key : string;
    name : string;
    material : string;
    required_dimensions_mm : Dimension3D.t;
    quantity_total : Z;
    allow_rotation_length_width : bool;
    allow_rotation_width_thickness : bool;
    allow_rotation_length_thickness : bool;
    enforce_grain_along_length : bool;
    priority : Z }.
End PartRequirement.

Module CuttingParameters.
Record t := mk {
    kerf_mm : Q;
    min_offcut_keep_mm : Q;
    tolerance : Tolerance.t;
    optimization_priority : string }.
End CuttingParameters.

Module CutPiece.
Record t := mk {
    part_key : string;
    dims_mm : Dimension3D.t;
    position_mm : Q * Q * Q;
    color : string }.
End CutPiece.

Module Offcut.
Record t := mk { dims_mm : Dimension3D.t; position_mm : Q * Q * Q }.
End Offcut.

(* ------------------------------------------------------------------ *)
(** ** guillotine.py: result structures *)

Module LengthSegmentPlan.
Record t := mk {
    start_mm : Q;
    end_mm : Q;
    cuts : list CutPiece.t;
    offcuts : list Offcut.t }.
End LengthSegmentPlan.

Module StickPlan.
Record t := mk {
    inventory_name : string;
    stick_index : Z;
    dims_mm : Dimension3D.t;
    segments : list LengthSegmentPlan.t }.
End StickPlan.

Module OptimizationResult.
Record t := mk {
    stick_plans : list StickPlan.t;
    utilization_percent : Q;
    waste_percent : Q;
    total_cuts : Z;
    summary_by_part : list (string * list (string * Q)) }.
End OptimizationResult.

(* ------------------------------------------------------------------ *)
(** ** Python dicts keyed by strings *)

Section Dict.
Context {V : Type}.

Fixpoint dict_get (k : string) (d : list (string * V)) : option V :=
    match d with
    | [] => None
    | (k', v) :: d' => if String.eqb k k' then Some v else dict_get k d'
    end.

  (** [d.get(k, default)] *)
Definition dict_get_default (k : string) (d : list (string * V)) (dflt : V) : V :=
    match dict_get k d with Some v => v | None => dflt end.

  (** [d[k] = v]: replaces in place, or appends a new key at the end. *)
Fixpoint dict_set (k : string) (v : V) (d : list (string * V)) : list (string * V) :=
    match d with
    | [] => [(k, v)]
    | (k', v') :: d' =>
        if String.eqb k k' then (k', v) :: d' else (k', v') :: dict_set k v d'
    end.
End Dict.

(* ------------------------------------------------------------------ *)
(** ** guillotine.py: helpers *)

Definition ascii_lower (c : ascii) : ascii :=
  let n := nat_of_ascii c in
  if (65 <=? n)%nat && (n <=? 90)%nat then ascii_of_nat (n + 32) else c.

Fixpoint str_lower (s : string) : string :=
  match s with
  | EmptyString => EmptyString
  | String c s' => String (ascii_lower c) (str_lower s')
  end.

Definition PART_COLOR_MAP : list (string * string) :=
  [("plank", "#4CAF50"); ("stringer", "#2196F3");
   ("block", "#FF9800"); ("runner", "#9C27B0")]%string.

Definition _choose_color (part : PartRequirement.t) : string :=
  dict_get_default (str_lower (PartRequirement.name part)) PART_COLOR_MAP "#607D8B"%string.

Definition _fits (required available : Dimension3D.t) (tol : Tolerance.t) : bool :=
  Tolerance.within tol required available.

Definition volume (d : Dimension3D.t) : Q :=
  Dimension3D.length_mm d * Dimension3D.width_mm d * Dimension3D.thickness_mm d.

(** Float-tuple equality, as used by the [seen] set of [candidate_dims]. *)
Definition tup_eqb (a b : Q * Q * Q) : bool :=
  let '(a1, a2, a3) := a in
  let '(b1, b2, b3) := b in
  Qeq_bool a1 b1 && Qeq_bool a2 b2 && Qeq_bool a3 b3.

(** The deduplication loop of [candidate_dims] ([unique], [seen]). *)
Fixpoint dedup_dims (seen : list (Q * Q * Q)) (dims : list Dimension3D.t)
  : list Dimension3D.t :=
  match dims with
  | [] => []
  | d :: ds =>
      let tup := Dimension3D.sorted_tuple d in
      if existsb (tup_eqb tup) seen then dedup_dims seen ds
      else d :: dedup_dims (tup :: seen) ds
  end.

(** The local function [candidate_dims] (lines 102-119). *)
Definition candidate_dims (part : PartRequirement.t) : list Dimension3D.t :=
  let req := PartRequirement.required_dimensions_mm part in
  let part_len := Dimension3D.length_mm req in
  let part_w := Dimension3D.width_mm req in
  let part_t := Dimension3D.thickness_mm req in
  let dims :=
    [Dimension3D.mk part_len part_w part_t]
    ++ (if PartRequirement.allow_rotation_width_thickness part
        then [Dimension3D.mk part_len part_t part_w] else [])
    ++ (if negb (PartRequirement.enforce_grain_along_length part)
        then (if PartRequirement.allow_rotation_length_width part
              then [Dimension3D.mk part_w part_len part_t] else [])
             ++ (if PartRequirement.allow_rotation_length_thickness part
                 then [Dimension3D.mk part_t part_w part_len] else [])
        else []) in
  dedup_dims [] dims.

(** Sort key [(-p.priority, p.name)] of line 90, compared as a Python tuple. *)
Definition part_key_le (p q : PartRequirement.t) : bool :=
  (- PartRequirement.priority p <? - PartRequirement.priority q)%Z
  || ((- PartRequirement.priority p =? - PartRequirement.priority q)%Z
      && String.leb (PartRequirement.name p) (PartRequirement.name q)).

(** Two parts with the same sort key [(-p.priority, p.name)]. *)
Definition same_sort_key (p q : PartRequirement.t) : bool :=
  (PartRequirement.priority p =? PartRequirement.priority q)%Z
  && String.eqb (PartRequirement.name p) (PartRequirement.name q).

(** Python's [sorted] is stable; stable insertion sort computes the same list. *)
Fixpoint insert_part (p : PartRequirement.t) (l : list PartRequirement.t)
  : list PartRequirement.t :=
  match l with
  | [] => [p]
  | q :: l' => if part_key_le p q then p :: q :: l' else q :: insert_part p l'
  end.

Fixpoint sorted_parts (l : list PartRequirement.t) : list PartRequirement.t :=
  match l with
  | [] => []
  | p :: l' => insert_part p (sorted_parts l')
  end.

(* ------------------------------------------------------------------ *)
(** ** [optimize_cutting_plan] as a state machine

    The nested loops of [optimize_cutting_plan] ([for item], [for i in
    range(item.quantity)], [while length_cursor < L]) become a control
    component; one [step] runs one loop iteration.  The arguments of the
    call are kept in [RunInputs]; everything the function assigns lives in
    [Locals], as in the source. *)

Record RunInputs := mkInputs {
  inventory : list InventoryItem.t;
  required_parts : list PartRequirement.t;
  params : CuttingParameters.t }.

Inductive Control :=
  (** head of [for item in inventory], with the items still to visit *)
  | ForItem (items : list InventoryItem.t)
  (** head of [for i in range(item.quantity)] *)
  | ForStick (item : InventoryItem.t) (rest : list InventoryItem.t) (i : Z)
  (** head of [while length_cursor < L], with [stick] and [length_cursor] *)
  | While (item : InventoryItem.t) (rest : list InventoryItem.t) (i : Z)
          (stick : StickPlan.t) (length_cursor : Q)
  (** after the loops *)
  | Done.

Record Locals := mkLocals {
  required_left : list (string * Z);
  part_by_key : list (string * PartRequirement.t);
  stick_plans : list StickPlan.t;
  total_stock_volume : Q;
  total_cut_volume : Q;
  total_cuts : Z;
  control : Control }.

Definition with_control (s : Locals) (c : Control) : Locals :=
  mkLocals (required_left s) (part_by_key s) (stick_plans s)
    (total_stock_volume s) (total_cut_volume s) (total_cuts s) c.

(** [all(qty <= 0 for qty in required_left.values())] *)
Definition all_done (rl : list (string * Z)) : bool :=
  forallb (fun kv => (snd kv <=? 0)%Z) rl.

(** Lines 121-127: the first candidate within [remaining_length + kerf]
    that passes the tolerance check against the stock item. *)
Definition candidate_admissible (params : CuttingParameters.t) (item : InventoryItem.t)
    (remaining_length : Q) (cand : Dimension3D.t) : bool :=
  negb (Qltb (remaining_length + CuttingParameters.kerf_mm params) (Dimension3D.length_mm cand))
  && _fits cand (InventoryItem.dimensions_mm item) (CuttingParameters.tolerance params).

Definition pick_dims (params : CuttingParameters.t) (item : InventoryItem.t)
    (remaining_length : Q) (part : PartRequirement.t) : option Dimension3D.t :=
  find (candidate_admissible params item remaining_length) (candidate_dims part).

(** Lines 90-129: the [for part in sorted(...)] loop up to the first part
    that gets placed. *)
Fixpoint choose_part (params : CuttingParameters.t) (item : InventoryItem.t)
    (remaining_length : Q) (rl : list (string * Z)) (ps : list PartRequirement.t)
  : option (PartRequirement.t * Z * Dimension3D.t) :=
  match ps with
  | [] => None
  | part :: ps' =>
      let qty_left := dict_get_default (PartRequirement.key part) rl 0%Z in
      if (qty_left <=? 0)%Z then choose_part params item remaining_length rl ps'
      else match pick_dims params item remaining_length part with
           | None => choose_part params item remaining_length rl ps'
           | Some picked => Some (part, qty_left, picked)
           end
  end.

Definition add_segment (stick : StickPlan.t) (seg : LengthSegmentPlan.t) : StickPlan.t :=
  StickPlan.mk (StickPlan.inventory_name stick) (StickPlan.stick_index stick)
    (StickPlan.dims_mm stick) (StickPlan.segments stick ++ [seg]).

(** Lines 131-160 and 183-185: the segment of one placed piece. *)
Definition placed_segment (params : CuttingParameters.t) (item : InventoryItem.t)
    (part : PartRequirement.t) (picked : Dimension3D.t) (length_cursor L : Q)
  : LengthSegmentPlan.t :=
  let kerf := CuttingParameters.kerf_mm params in
  let piece_pos := (length_cursor, 0, 0) in
  let cut_piece := CutPiece.mk (PartRequirement.key part) picked piece_pos
                     (_choose_color part) in
  let width_offcut :=
    Dimension3D.width_mm (InventoryItem.dimensions_mm item) - Dimension3D.width_mm picked in
  let offcuts :=
    if Qgeb width_offcut (CuttingParameters.min_offcut_keep_mm params)
    then [Offcut.mk (Dimension3D.mk (Dimension3D.length_mm picked) (width_offcut - kerf)
                       (Dimension3D.thickness_mm picked))
                    (length_cursor, Dimension3D.width_mm picked + kerf, 0)]
    else [] in
  LengthSegmentPlan.mk length_cursor (length_cursor + Dimension3D.length_mm picked + kerf)
    [cut_piece] offcuts.

(** Lines 164-181: the closing segment when nothing fits. *)
Definition closing_segment (params : CuttingParameters.t) (item : InventoryItem.t)
    (length_cursor L : Q) : LengthSegmentPlan.t :=
  let leftover_len := L - length_cursor in
  let offcuts :=
    if Qgeb leftover_len (CuttingParameters.min_offcut_keep_mm params)
    then [Offcut.mk (Dimension3D.mk leftover_len
                       (Dimension3D.width_mm (InventoryItem.dimensions_mm item))
                       (Dimension3D.thickness_mm (InventoryItem.dimensions_mm item)))
                    (length_cursor, 0, 0)]
    else [] in
  LengthSegmentPlan.mk length_cursor length_cursor [] offcuts.

(** Lines 191-196: after the [while] loop, the stick is recorded and the
    [for i] loop moves on. *)
Definition finish_stick (s : Locals) (item : InventoryItem.t)
    (rest : list InventoryItem.t) (i : Z) (stick : StickPlan.t) : Locals :=
  mkLocals (required_left s) (part_by_key s) (stick_plans s ++ [stick])
    (total_stock_volume s + volume (InventoryItem.dimensions_mm item))
    (total_cut_volume s) (total_cuts s) (ForStick item rest (i + 1)).

Definition new_stick (item : InventoryItem.t) (i : Z) : StickPlan.t :=
  StickPlan.mk (InventoryItem.name item) (i + 1) (InventoryItem.dimensions_mm item) [].

Definition step (inp : RunInputs) (s : Locals) : Locals :=
  let params := params inp in
  match control s with
  | ForItem [] => with_control s Done
  | ForItem (item :: rest) => with_control s (ForStick item rest 0)
  | ForStick item rest i =>
      if (i <? InventoryItem.quantity item)%Z
      then with_control s (While item rest i (new_stick item i) 0)
      else if all_done (required_left s) then with_control s Done
      else with_control s (ForItem rest)
  | While item rest i stick length_cursor =>
      let L := Dimension3D.length_mm (InventoryItem.dimensions_mm item) in
      if Qltb length_cursor L then
        let remaining_length := L - length_cursor in
        match choose_part params item remaining_length (required_left s)
                (sorted_parts (required_parts inp)) with
        | Some (part, qty_left, picked) =>
            let length_cursor' :=
              length_cursor + Dimension3D.length_mm picked + CuttingParameters.kerf_mm params in
            let stick' :=
              add_segment stick (placed_segment params item part picked length_cursor L) in
            let rl' := dict_set (PartRequirement.key part) (qty_left - 1)%Z (required_left s) in
            let s' := mkLocals rl' (part_by_key s) (stick_plans s)
                        (total_stock_volume s) (total_cut_volume s + volume picked)
                        (total_cuts s + 1)%Z
                        (While item rest i stick' length_cursor') in
            if all_done rl' then finish_stick s' item rest i stick' else s'
        | None =>
            finish_stick s item rest i
              (add_segment stick (closing_segment params item length_cursor L))
        end
      else finish_stick s item rest i stick
  | Done => s
  end.

(** Lines 64-71. *)
Definition init_locals (inp : RunInputs) : Locals :=
  mkLocals
    (fold_left (fun d p => dict_set (PartRequirement.key p) (PartRequirement.quantity_total p) d)
       (required_parts inp) [])
    (fold_left (fun d p => dict_set (PartRequirement.key p) p d) (required_parts inp) [])
    [] 0 0 0%Z (ForItem (inventory inp)).

Fixpoint run (fuel : nat) (inp : RunInputs) (s : Locals) : option Locals :=
  match fuel with
  | O => None
  | S fuel' =>
      match control s with
      | Done => Some s
      | _ => run fuel' inp (step inp s)
      end
  end.

(** Lines 201-221. *)
Definition finalize (s : Locals) : OptimizationResult.t :=
  let tsv := total_stock_volume s in
  let utilization_percent := if Qltb 0 tsv then (total_cut_volume s / tsv) * 100 else 0 in
  let waste_percent := if Qltb 0 tsv then 100 - utilization_percent else 0 in
  let summary_by_part :=
    map (fun kp =>
           let '(key, part) := kp in
           let produced :=
             (PartRequirement.quantity_total part
              - dict_get_default key (required_left s) 0)%Z in
           (key, [("produced"%string, inject_Z produced);
                  ("requested"%string, inject_Z (PartRequirement.quantity_total part))]))
        (part_by_key s) in
  OptimizationResult.mk (stick_plans s) utilization_percent waste_percent
    (total_cuts s) summary_by_part.

(** A bound on the number of loop iterations: every [while] iteration either
    ends the stick or places a piece, which uses up one unit of demand. *)
Definition sum_pos_Z (l : list Z) : nat :=
  fold_right (fun z acc => Z.to_nat z + acc)%nat 0%nat l.

Definition fuel_bound (inp : RunInputs) : nat :=
  let D := sum_pos_Z (map PartRequirement.quantity_total (required_parts inp)) in
  let N := sum_pos_Z (map InventoryItem.quantity (inventory inp)) in
  (2 + 2 * List.length (inventory inp) + N * (D + 3))%nat.

Definition optimize_cutting_plan (inventory : list InventoryItem.t)
    (required_parts : list PartRequirement.t) (params : CuttingParameters.t)
  : option OptimizationResult.t :=
  let inp := mkInputs inventory required_parts params in
  option_map finalize (run (fuel_bound inp) inp (init_locals inp)).

(* ------------------------------------------------------------------ *)
(** ** Readings of the specification, to be compared with the code *)

(** The spec's orientation search: identity always; one swap per rotation
    flag; under [enforce_grain_along_length] only orientations that keep
    the part's length on the stock's length axis. *)
Inductive Orientation := Identity | SwapLW | SwapWT | SwapLT.

Definition orient (o : Orientation) (d : Dimension3D.t) : Dimension3D.t :=
  let l := Dimension3D.length_mm d in
  let w := Dimension3D.width_mm d in
  let t := Dimension3D.thickness_mm d in
  match o with
  | Identity => Dimension3D.mk l w t
  | SwapLW => Dimension3D.mk w l t
  | SwapWT => Dimension3D.mk l t w
  | SwapLT => Dimension3D.mk t w l
  end.

Definition keeps_length_axis (o : Orientation) : bool :=
  match o with Identity | SwapWT => true | SwapLW | SwapLT => false end.

Definition rotation_flag (p : PartRequirement.t) (o : Orientation) : bool :=
  match o with
  | Identity => true
  | SwapLW => PartRequirement.allow_rotation_length_width p
  | SwapWT => PartRequirement.allow_rotation_width_thickness p
  | SwapLT => PartRequirement.allow_rotation_length_thickness p
  end.

Definition spec_permitted (p : PartRequirement.t) (o : Orientation) : bool :=
  rotation_flag p o
  && (negb (PartRequirement.enforce_grain_along_length p) || keeps_length_axis o).

(** Same dimension triple (float equality per axis). *)
Definition dim_eqb (a b : Dimension3D.t) : bool :=
  tup_eqb (Dimension3D.sorted_tuple a) (Dimension3D.sorted_tuple b).

(** The spec's demand order: priority descending, volume descending, name. *)
Definition spec_demand_lt (p q : PartRequirement.t) : bool :=
  let vp := volume (PartRequirement.required_dimensions_mm p) in
  let vq := volume (PartRequirement.required_dimensions_mm q) in
  (PartRequirement.priority q <? PartRequirement.priority p)%Z
  || ((PartRequirement.priority q =? PartRequirement.priority p)%Z
      && (Qltb vq vp
          || (Qeq_bool vp vq && String.ltb (PartRequirement.name p) (PartRequirement.name q)))).


(** States the machine passes through during a run of [optimize_cutting_plan]. *)
Inductive reachable (inp : RunInputs) : Locals -> Prop :=
  | reach_init : reachable inp (init_locals inp)
  | reach_step s : reachable inp s -> reachable inp (step inp s).

(** The cuts of a stick, in placement order. *)
Definition stick_cuts (sp : StickPlan.t) : list CutPiece.t :=
  flat_map LengthSegmentPlan.cuts (StickPlan.segments sp).

Definition stick_length (sp : StickPlan.t) : Q :=
  Dimension3D.length_mm (StickPlan.dims_mm sp).

(** The in-progress stick of a state, if the [while] loop is running. *)
Definition current_stick (s : Locals) : list StickPlan.t :=
  match control s with While _ _ _ stick _ => [stick] | _ => [] end.

(** Cursor discipline of one stick: each cut sits at the current cursor
    [x], which is below the stick length [L]; its length is at most the
    remaining length plus the kerf; the cursor then advances by its length
    plus the kerf; [y] is the final cursor. *)
Fixpoint cuts_advance (kerf L x : Q) (cs : list CutPiece.t) (y : Q) : Prop :=
  match cs with
  | [] => x = y
  | c :: cs' =>
      CutPiece.position_mm c = (x, 0, 0)
      /\ (x < L)%Q
      /\ (Dimension3D.length_mm (CutPiece.dims_mm c) <= L - x + kerf)%Q
      /\ cuts_advance kerf L (x + Dimension3D.length_mm (CutPiece.dims_mm c) + kerf) cs' y
  end.

(** Sum over pieces of [(piece.length + kerf)]. *)
Definition kerf_run (kerf : Q) (cs : list CutPiece.t) : Q :=
  fold_right (fun c acc => Dimension3D.length_mm (CutPiece.dims_mm c) + kerf + acc) 0 cs.

(** How the offcuts of a segment relate to the stick and to the segment's
    cut: a side strip after a placed piece, or the trailing remainder. *)
Definition segment_offcuts_ok (params : CuttingParameters.t) (D : Dimension3D.t)
    (seg : LengthSegmentPlan.t) : Prop :=
  let keep := CuttingParameters.min_offcut_keep_mm params in
  match LengthSegmentPlan.cuts seg with
  | [c] =>
      forall o, In o (LengthSegmentPlan.offcuts seg) ->
        (keep <= Dimension3D.width_mm D - Dimension3D.width_mm (CutPiece.dims_mm c))%Q
        /\ Dimension3D.length_mm (Offcut.dims_mm o) = Dimension3D.length_mm (CutPiece.dims_mm c)
        /\ Dimension3D.thickness_mm (Offcut.dims_mm o)
           = Dimension3D.thickness_mm (CutPiece.dims_mm c)
  | [] =>
      forall o, In o (LengthSegmentPlan.offcuts seg) ->
        (keep <= Dimension3D.length_mm D - LengthSegmentPlan.start_mm seg)%Q
        /\ Dimension3D.length_mm (Offcut.dims_mm o)
           = Dimension3D.length_mm D - LengthSegmentPlan.start_mm seg
        /\ Dimension3D.width_mm (Offcut.dims_mm o) = Dimension3D.width_mm D
        /\ Dimension3D.thickness_mm (Offcut.dims_mm o) = Dimension3D.thickness_mm D
  | _ => False
  end.


(** A stick plan is a unit [stick_index] (1-based) of an inventory item. *)
Definition from_inventory (inv : list InventoryItem.t) (sp : StickPlan.t) : Prop :=
  exists item, In item inv
    /\ StickPlan.inventory_name sp = InventoryItem.name item
    /\ StickPlan.dims_mm sp = InventoryItem.dimensions_mm item
    /\ (1 <= StickPlan.stick_index sp <= InventoryItem.quantity item)%Z.

Definition stick_cut_volume (sp : StickPlan.t) : Q :=
  fold_right (fun c acc => volume (CutPiece.dims_mm c) + acc) 0 (stick_cuts sp).

Definition plans_cut_volume (sps : list StickPlan.t) : Q :=
  fold_right (fun sp acc => stick_cut_volume sp + acc) 0 sps.

Definition plans_stock_volume (sps : list StickPlan.t) : Q :=
  fold_right (fun sp acc => volume (StickPlan.dims_mm sp) + acc) 0 sps.

(** Invariants of the states of a run. *)
Definition stick_ok (inp : RunInputs) (sp : StickPlan.t) : Prop :=
  let kerf := CuttingParameters.kerf_mm (params inp) in
  (exists y, cuts_advance kerf (stick_length sp) 0 (stick_cuts sp) y)
  /\ Forall (segment_offcuts_ok (params inp) (StickPlan.dims_mm sp)) (StickPlan.segments sp)
  /\ from_inventory (inventory inp) sp.

Definition control_ok (inp : RunInputs) (s : Locals) : Prop :=
  let kerf := CuttingParameters.kerf_mm (params inp) in
  match control s with
  | ForItem items => exists pre, inventory inp = pre ++ items
  | ForStick item rest i =>
      (exists pre, inventory inp = pre ++ item :: rest) /\ (0 <= i)%Z
  | While item rest i stick cur =>
      (exists pre, inventory inp = pre ++ item :: rest)
      /\ (0 <= i < InventoryItem.quantity item)%Z
      /\ StickPlan.inventory_name stick = InventoryItem.name item
      /\ StickPlan.dims_mm stick = InventoryItem.dimensions_mm item
      /\ StickPlan.stick_index stick = (i + 1)%Z
      /\ cuts_advance kerf (stick_length stick) 0 (stick_cuts stick) cur
      /\ Forall (segment_offcuts_ok (params inp) (StickPlan.dims_mm stick))
                (StickPlan.segments stick)
  | Done => True
  end.

Definition plans_inv (inp : RunInputs) (s : Locals) : Prop :=
  Forall (stick_ok inp) (stick_plans s)
  /\ control_ok inp s
  /\ (total_stock_volume s == plans_stock_volume (stick_plans s))%Q
  /\ (total_cut_volume s == plans_cut_volume (stick_plans s ++ current_stick s))%Q.

(** ** Concrete inputs (dataclass defaults as in models.py) *)

Definition part_req (key name : string) (d : Dimension3D.t) (q : Z) : PartRequirement.t :=
  PartRequirement.mk key name "pine" d q false false false true 0.

Definition stock_item (name : string) (d : Dimension3D.t) (q : Z) : InventoryItem.t :=
  InventoryItem.mk name d q None None.

Definition cutting_params (kerf keep : Q) : CuttingParameters.t :=
  CuttingParameters.mk kerf keep Tolerance.default "efficiency".

(** Spec section 8: stock 2400x175x90 (1 unit), part 1200x100x20 (2 pieces), kerf 3. *)
Definition ex_stock_2400 : InventoryItem.t :=
  stock_item "pine" (Dimension3D.mk 2400 175 90) 1.
Definition ex_plank_1200 : PartRequirement.t :=
  part_req "plank" "plank" (Dimension3D.mk 1200 100 20) 2.

(** A large board listed before an exactly fitting small one. *)
Definition ex_big : InventoryItem.t := stock_item "big" (Dimension3D.mk 2000 200 100) 1.
Definition ex_small : InventoryItem.t := stock_item "small" (Dimension3D.mk 500 50 20) 1.
Definition ex_block_500 : PartRequirement.t :=
  part_req "block" "block" (Dimension3D.mk 500 50 20) 1.

(** Two boards; the side strip left by the first piece would hold the second. *)
Definition ex_board : InventoryItem.t := stock_item "board" (Dimension3D.mk 1000 200 50) 2.
Definition ex_runner_600 : PartRequirement.t :=
  part_req "runner" "runner" (Dimension3D.mk 600 80 50) 2.


(** Two parts of equal priority: a small one named first, a large one. *)
Definition ex_part_a : PartRequirement.t := part_req "a" "a" (Dimension3D.mk 100 50 20) 1.
Definition ex_part_b : PartRequirement.t := part_req "b" "b" (Dimension3D.mk 1000 100 50) 1.

(** Out-of-range values accepted by the dataclasses. *)
Definition ex_zero_length_item : InventoryItem.t :=
  stock_item "zero" (Dimension3D.mk 0 100 50) 1.
Definition ex_negative_part : PartRequirement.t :=
  part_req "p" "plank" (Dimension3D.mk 100 50 20) (-1).
Definition ex_empty_item : InventoryItem.t :=
  stock_item "empty" (Dimension3D.mk 2400 175 90) 0.



(* ------------------------------------------------------------------ *)
(** ** Run measures and invariants used by the proofs below *)

(** Remaining demand: the sum of the positive counters. *)
Definition demand_left (rl : list (string * Z)) : nat := sum_pos_Z (map snd rl).

Fixpoint items_measure (D : nat) (items : list InventoryItem.t) : nat :=
  match items with
  | [] => 1
  | item :: rest =>
      2 + Z.to_nat (InventoryItem.quantity item) * (D + 2) + items_measure D rest
  end.

Definition run_measure (s : Locals) : nat :=
  let D := demand_left (required_left s) in
  match control s with
  | ForItem items => items_measure D items
  | ForStick item rest i =>
      (Z.to_nat (InventoryItem.quantity item) - Z.to_nat i) * (D + 2) + 1
      + items_measure D rest
  | While item rest i _ _ =>
      (Z.to_nat (InventoryItem.quantity item) - Z.to_nat i - 1) * (D + 2) + (D + 1) + 1
      + items_measure D rest
  | Done => 0
  end.

Definition all_cuts (s : Locals) : list CutPiece.t :=
  flat_map stick_cuts (stick_plans s ++ current_stick s).

Definition count_key (k : string) (cs : list CutPiece.t) : nat :=
  List.length (filter (fun c => String.eqb (CutPiece.part_key c) k) cs).

(** A cut piece comes from a requested part: its key, an orientation of
    [candidate_dims], a tolerance fit against the stick, the part's colour. *)
Definition cut_from_part (parts : list PartRequirement.t) (tol : Tolerance.t)
    (sp : StickPlan.t) (c : CutPiece.t) : Prop :=
  exists part, In part parts
    /\ PartRequirement.key part = CutPiece.part_key c
    /\ In (CutPiece.dims_mm c) (candidate_dims part)
    /\ _fits (CutPiece.dims_mm c) (StickPlan.dims_mm sp) tol = true
    /\ CutPiece.color c = _choose_color part.

Definition cuts_inv (inp : RunInputs) (s : Locals) : Prop :=
  total_cuts s = Z.of_nat (List.length (all_cuts s))
  /\ (forall k, Z.of_nat (count_key k (all_cuts s)) + dict_get_default k (required_left s) 0
               = dict_get_default k (required_left (init_locals inp)) 0)%Z
  /\ Forall (fun sp => Forall (cut_from_part (required_parts inp)
                                 (CuttingParameters.tolerance (params inp)) sp)
                              (stick_cuts sp))
            (stick_plans s ++ current_stick s).

Definition stick_id (sp : StickPlan.t) : string * Z * Dimension3D.t :=
  (StickPlan.inventory_name sp, StickPlan.stick_index sp, StickPlan.dims_mm sp).

(** Units [1 .. n] of an inventory item, as [StickPlan] headers. *)
Definition unit_ids (item : InventoryItem.t) (n : nat) : list (string * Z * Dimension3D.t) :=
  map (fun j => (InventoryItem.name item, Z.of_nat j + 1, InventoryItem.dimensions_mm item)%Z)
    (seq 0 n).

Definition item_units (item : InventoryItem.t) : list (string * Z * Dimension3D.t) :=
  unit_ids item (Z.to_nat (InventoryItem.quantity item)).

Definition units_inv (inp : RunInputs) (s : Locals) : Prop :=
  match control s with
  | ForItem items =>
      exists pre, inventory inp = pre ++ items
        /\ map stick_id (stick_plans s) = flat_map item_units pre
  | ForStick item rest i =>
      exists pre, inventory inp = pre ++ item :: rest
        /\ (0 <= i <= Z.max 0 (InventoryItem.quantity item))%Z
        /\ map stick_id (stick_plans s) = flat_map item_units pre ++ unit_ids item (Z.to_nat i)
  | While item rest i stick _ =>
      exists pre, inventory inp = pre ++ item :: rest
        /\ (0 <= i < InventoryItem.quantity item)%Z
        /\ stick_id stick = (InventoryItem.name item, i + 1, InventoryItem.dimensions_mm item)%Z
        /\ map stick_id (stick_plans s) = flat_map item_units pre ++ unit_ids item (Z.to_nat i)
  | Done =>
      exists pre post, inventory inp = pre ++ post
        /\ map stick_id (stick_plans s) = flat_map item_units pre
        /\ (post <> [] -> all_done (required_left s) = true)
  end.


(** The state of a run whose parts all have a non-positive quantity. *)
Definition no_demand_inv (inp : RunInputs) (s : Locals) : Prop :=
  all_cuts s = [] /\ total_cuts s = 0%Z
  /\ match control s with
     | ForItem items => items = inventory inp /\ stick_plans s = []
     | ForStick item rest _ | While item rest _ _ _ => inventory inp = item :: rest
     | Done => map stick_id (stick_plans s)
               = match inventory inp with [] => [] | item :: _ => item_units item end
     end.

(* ------------------------------------------------------------------ *)
(** * Shallow embedding of [src/data_models.py] and [src/optimizer.py]

    The second engine of the repository, [CuttingOptimizer].  Same
    conventions as above: floats as [Q], ints as [Z], dicts as association
    lists.  [Optional[str]] ids are modelled after [__post_init__], which
    always leaves a string (the given id, or one derived from [id(self)]). *)

Module data_models.

Inductive OptimizationPriority := MAXIMIZE_EFFICIENCY | MINIMIZE_COST | FASTEST_CUT.

Inductive GrainDirection := NONE | LENGTH | WIDTH.

Module LumberStock.
Record t := mk {
  name : string;
  length : Q;
  width : Q;
  thickness : Q;
  quantity : Z;
  cost_per_unit : Q;
  id : string
}.

Definition volume (s : t) : Q := length s * width s * thickness s.

(** 1 cubic foot = 28316846.592 cubic mm. *)
Definition volume_cft (s : t) : Q := volume s / (28316846592 # 1000).
End LumberStock.

Module Part.
Record t := mk {
  name : string;
  description : string;
  length : Q;
  width : Q;
  thickness : Q;
  quantity_per_product : Z;
  total_products : Z;
  material_type : string;
  allow_rotation : bool;
  priority : Z;
  tolerance : Q;
  id : string
}.

Definition total_quantity (p : t) : Z := (quantity_per_product p * total_products p)%Z.

Definition volume (p : t) : Q := length p * width p * thickness p.
End Part.

Module CuttingParameters.
Record t := mk {
  kerf : Q;
  min_offcut_to_keep : Q;
  tolerance : Q;
  grain_direction : GrainDirection;
  optimization_priority : OptimizationPriority;
  allow_resawing : bool;
  allow_planing : bool;
  max_planing_depth : Q
}.
End CuttingParameters.

Module CutPiece.
Record t := mk {
  part : Part.t;
  x : Q;
  y : Q;
  z : Q;
  rotated : bool;
  actual_length : Q;
  actual_width : Q;
  actual_thickness : Q
}.

(** The constructor followed by [__post_init__]: an actual dimension equal
    to [0.0] is replaced by the part's dimension. *)
Definition make (part : Part.t) (x y z : Q) (rotated : bool)
    (actual_length actual_width actual_thickness : Q) : t :=
  mk part x y z rotated
    (if Qeq_bool actual_length 0 then Part.length part else actual_length)
    (if Qeq_bool actual_width 0 then Part.width part else actual_width)
    (if Qeq_bool actual_thickness 0 then Part.thickness part else actual_thickness).
End CutPiece.

Module Offcut.
Record t := mk {
  length : Q;
  width : Q;
  thickness : Q;
  original_stock : string;
  usable : bool
}.
End Offcut.

(** [sum(xs)] over floats (exact in [Q], so the order of the additions
    does not matter). *)
Definition sum_Q (l : list Q) : Q := fold_right Qplus 0 l.

Definition sum_Z (l : list Z) : Z := fold_right Z.add 0%Z l.

Module CuttingPlan.
Record t := mk {
  stock : LumberStock.t;
  stock_index : Z;
  cuts : list CutPiece.t;
  offcuts : list Offcut.t
}.

Definition cut_volume (c : CutPiece.t) : Q :=
  CutPiece.actual_length c * CutPiece.actual_width c * CutPiece.actual_thickness c.

Definition material_utilized (plan : t) : Q :=
  if Qeq_bool (LumberStock.volume (stock plan)) 0 then 0
  else sum_Q (map cut_volume (cuts plan)) / LumberStock.volume (stock plan) * 100.

Definition waste_percentage (plan : t) : Q := 100 - material_utilized plan.

Definition total_cuts (plan : t) : Z := Z.of_nat (List.length (cuts plan)).
End CuttingPlan.

Module OptimizationResult.
Record t := mk {
  cutting_plans : list CuttingPlan.t;
  unassigned_parts : list (Part.t * Z);
  total_sticks_used : Z;
  total_cuts : Z;
  overall_efficiency : Q;
  total_waste : Q;
  total_cost : Q;
  total_volume_used_cft : Q;
  computation_time : Q
}.

(** [len(self.unassigned_parts) == 0] *)
Definition success (r : t) : bool :=
  match unassigned_parts r with [] => true | _ :: _ => false end.
End OptimizationResult.

End data_models.

(* ------------------------------------------------------------------ *)
(** ** Stable sorting, as Python's [sorted] *)

Section StableSort.
Context {A : Type}.
Variable lt : A -> A -> bool.

(** Insert [x], which came before every element of [l], after the elements
    strictly smaller than it. *)
Fixpoint insert_sorted (x : A) (l : list A) : list A :=
  match l with
  | [] => [x]
  | y :: l' => if lt y x then y :: insert_sorted x l' else x :: l
  end.

(** [sorted(l, key=k)] with [lt a b] the comparison [k(a) < k(b)]: for a
    strict weak order the stable result is unique, whatever the algorithm. *)
Fixpoint stable_sort (l : list A) : list A :=
  match l with
  | [] => []
  | x :: l' => insert_sorted x (stable_sort l')
  end.
End StableSort.

(** Python's [<] on pairs [(int, float)]. *)
Definition pair_lt (a b : Z * Q) : bool :=
  if (fst a =? fst b)%Z then Qltb (snd a) (snd b) else (fst a <? fst b)%Z.

(* ------------------------------------------------------------------ *)
(** ** optimizer.py *)

Module optimizer.
Import data_models.

Module CuttingOptimizer.
Section Methods.
(** [self.params] *)
Variable params : CuttingParameters.t.

Definition _sort_parts (parts : list Part.t) : list Part.t :=
  match CuttingParameters.optimization_priority params with
  | MAXIMIZE_EFFICIENCY =>
      stable_sort (fun p q => pair_lt (Z.opp (Part.priority p), Qopp (Part.volume p))
                                      (Z.opp (Part.priority q), Qopp (Part.volume q))) parts
  | MINIMIZE_COST =>
      stable_sort (fun p q => pair_lt (Z.opp (Part.priority p), Qopp (Part.volume p))
                                      (Z.opp (Part.priority q), Qopp (Part.volume q))) parts
  | FASTEST_CUT =>
      stable_sort (fun p q => pair_lt (Z.opp (Part.priority p), Part.volume p)
                                      (Z.opp (Part.priority q), Part.volume q)) parts
  end.

Definition _check_grain_direction (part : Part.t) (orientation_index : nat) : bool :=
  match CuttingParameters.grain_direction params with
  | NONE => true
  | _ =>
      if negb (Part.allow_rotation part) && negb (orientation_index =? 0)%nat then false
      else true
  end.

Definition part_dims (part : Part.t) : list (Q * Q * Q) :=
  let l := Part.length part in
  let w := Part.width part in
  let t := Part.thickness part in
  [(l, w, t); (l, t, w); (w, l, t); (w, t, l); (t, l, w); (t, w, l)].

(** The [for i, (pl, pw, pt) in enumerate(part_dims)] loop, from index [i]. *)
Fixpoint orientations_from (part : Part.t) (stock : LumberStock.t) (i : nat)
    (dims : list (Q * Q * Q)) : list (bool * Q * Q * Q) :=
  match dims with
  | [] => []
  | (pl, pw, pt) :: rest =>
      let tail := orientations_from part stock (S i) rest in
      if negb (_check_grain_direction part i) then tail
      else if Qle_bool pl (LumberStock.length stock + CuttingParameters.tolerance params)
              && Qle_bool pw (LumberStock.width stock + CuttingParameters.tolerance params)
              && Qle_bool pt (LumberStock.thickness stock + CuttingParameters.tolerance params)
      then (negb (i =? 0)%nat, pl, pw, pt) :: tail
      else tail
  end.

Definition _get_possible_orientations (part : Part.t) (stock : LumberStock.t)
    : list (bool * Q * Q * Q) :=
  orientations_from part stock 0 (part_dims part).

Definition _part_fits_stock (part : Part.t) (stock : LumberStock.t) : bool :=
  (0 <? List.length (_get_possible_orientations part stock))%nat.

Definition _can_add_part_to_plan (plan : CuttingPlan.t) (part : Part.t) : bool :=
  match CuttingPlan.cuts plan with
  | [] => _part_fits_stock part (CuttingPlan.stock plan)
  | cuts =>
      let used_volume := sum_Q (map CuttingPlan.cut_volume cuts) in
      let remaining_volume := LumberStock.volume (CuttingPlan.stock plan) - used_volume in
      Qle_bool (Part.volume part) remaining_volume
  end.

(** [plan.offcuts.clear()], then at most one offcut: the stock length left
    after the cuts and the kerfs between them. *)
Definition _calculate_offcuts (plan : CuttingPlan.t) : CuttingPlan.t :=
  let stock := CuttingPlan.stock plan in
  let cleared := CuttingPlan.mk stock (CuttingPlan.stock_index plan) (CuttingPlan.cuts plan) [] in
  match CuttingPlan.cuts plan with
  | [] => cleared
  | cuts =>
      let total_length_used :=
        sum_Q (map CutPiece.actual_length cuts)
        + inject_Z (Z.of_nat (List.length cuts) - 1) * CuttingParameters.kerf params in
      let remaining_length := LumberStock.length stock - total_length_used in
      if Qle_bool (CuttingParameters.min_offcut_to_keep params) remaining_length then
        CuttingPlan.mk stock (CuttingPlan.stock_index plan) cuts
          [Offcut.mk remaining_length (LumberStock.width stock) (LumberStock.thickness stock)
             (LumberStock.id stock) true]
      else cleared
  end.

(** [None] is [return False] (the plan is left as it was); [Some plan'] is
    [return True] with the plan mutated into [plan']. *)
Definition _add_part_to_plan (plan : CuttingPlan.t) (part : Part.t) : option CuttingPlan.t :=
  match _get_possible_orientations part (CuttingPlan.stock plan) with
  | [] => None
  | (rotated, pl, pw, pt) :: _ =>
      let '(x, y, z) :=
        match rev (CuttingPlan.cuts plan) with
        | [] => (0, 0, 0)
        | last_cut :: _ =>
            (CutPiece.x last_cut + CutPiece.actual_length last_cut
             + CuttingParameters.kerf params, 0, 0)
        end in
      let cut_piece := CutPiece.make part x y z rotated pl pw pt in
      Some (_calculate_offcuts
              (CuttingPlan.mk (CuttingPlan.stock plan) (CuttingPlan.stock_index plan)
                 (CuttingPlan.cuts plan ++ [cut_piece]) (CuttingPlan.offcuts plan)))
  end.

(** The body of the [for part, qty in unassigned] loop. *)
Definition consolidate_step (consolidated : list (string * (Part.t * Z))) (entry : Part.t * Z)
    : list (string * (Part.t * Z)) :=
  let '(part, qty) := entry in
  match dict_get (Part.id part) consolidated with
  | Some (_, q0) => dict_set (Part.id part) (part, q0 + qty)%Z consolidated
  | None => dict_set (Part.id part) (part, qty) consolidated
  end.

(** [list(consolidated.values())] *)
Definition _consolidate_unassigned (unassigned : list (Part.t * Z)) : list (Part.t * Z) :=
  map snd (fold_left consolidate_step unassigned []).

(** [stock_counts[stock_id] = stock_counts.get(stock_id, 0) + 1] *)
Definition count_step (stock_counts : list (string * Z)) (plan : CuttingPlan.t)
    : list (string * Z) :=
  let stock_id := LumberStock.id (CuttingPlan.stock plan) in
  dict_set stock_id (dict_get_default stock_id stock_counts 0 + 1)%Z stock_counts.

(** [stock_counts] in [_calculate_results]. *)
Definition count_stocks (cutting_plans : list CuttingPlan.t) : list (string * Z) :=
  fold_left count_step cutting_plans [].

(** One iteration of the loop adding up [total_cost] and
    [total_volume_used_cft]; [next((s for s in inventory if s.id == stock_id),
    None)] is [find], and [if stock:] only rules out [None] (a dataclass
    instance is truthy). *)
Definition cost_step (inventory : list LumberStock.t) (totals : Q * Q) (entry : string * Z)
    : Q * Q :=
  let '(total_cost, total_cft) := totals in
  let '(stock_id, count) := entry in
  match find (fun s => String.eqb (LumberStock.id s) stock_id) inventory with
  | Some stock =>
      (total_cost + LumberStock.cost_per_unit stock * inject_Z count,
       total_cft + LumberStock.volume_cft stock * inject_Z count)
  | None => (total_cost, total_cft)
  end.

Definition cost_and_volume (inventory : list LumberStock.t) (stock_counts : list (string * Z))
    : Q * Q :=
  fold_left (cost_step inventory) stock_counts (0, 0).

Definition _calculate_results (cutting_plans : list CuttingPlan.t)
    (unassigned_parts : list (Part.t * Z)) (inventory : list LumberStock.t)
    : OptimizationResult.t :=
  let total_sticks_used := Z.of_nat (List.length cutting_plans) in
  let total_cuts := sum_Z (map CuttingPlan.total_cuts cutting_plans) in
  match cutting_plans with
  | [] =>
      OptimizationResult.mk cutting_plans unassigned_parts total_sticks_used total_cuts
        0 0 0 0 0
  | _ :: _ =>
      let total_volume_available :=
        sum_Q (map (fun plan => LumberStock.volume (CuttingPlan.stock plan)) cutting_plans) in
      let total_volume_used :=
        sum_Q (map (fun plan => sum_Q (map CuttingPlan.cut_volume (CuttingPlan.cuts plan)))
                 cutting_plans) in
      let overall_efficiency :=
        if Qltb 0 total_volume_available
        then total_volume_used / total_volume_available * 100 else 0 in
      let total_waste := 100 - overall_efficiency in
      let '(total_cost, total_cft) := cost_and_volume inventory (count_stocks cutting_plans) in
      OptimizationResult.mk cutting_plans unassigned_parts total_sticks_used total_cuts
        overall_efficiency total_waste total_cost total_cft 0
  end.

(** The local state of the [for part in part_list] loop of [optimize]. *)
Record OptState := mkOptState {
  cutting_plans : list CuttingPlan.t;
  stock_usage : list (string * Z);
  unassigned_parts : list (Part.t * Z)
}.

(** [for plan in cutting_plans]: the first plan that accepts the part is
    mutated; [None] when no plan took it. *)
Fixpoint try_existing_plans (part : Part.t) (plans : list CuttingPlan.t)
    : option (list CuttingPlan.t) :=
  match plans with
  | [] => None
  | plan :: rest =>
      let continue := option_map (cons plan) (try_existing_plans part rest) in
      if _can_add_part_to_plan plan part then
        match _add_part_to_plan plan part with
        | Some plan' => Some (plan' :: rest)
        | None => continue
        end
      else continue
  end.

(** [for stock in sorted_inventory]: the new plan and the updated
    [stock_usage]; the key [stock.id] is always present in [stock_usage],
    which is built from the same list and never loses a key. *)
Fixpoint try_new_stock (part : Part.t) (stock_usage : list (string * Z))
    (stocks : list LumberStock.t) : option (CuttingPlan.t * list (string * Z)) :=
  match stocks with
  | [] => None
  | stock :: rest =>
      let used := dict_get_default (LumberStock.id stock) stock_usage 0%Z in
      if (used <? LumberStock.quantity stock)%Z && _part_fits_stock part stock then
        match _add_part_to_plan (CuttingPlan.mk stock used [] []) part with
        | Some plan =>
            Some (plan, dict_set (LumberStock.id stock) (used + 1)%Z stock_usage)
        | None => try_new_stock part stock_usage rest
        end
      else try_new_stock part stock_usage rest
  end.

(** One iteration of [for part in part_list]. *)
Definition place_part (sorted_inventory : list LumberStock.t) (st : OptState) (part : Part.t)
    : OptState :=
  match try_existing_plans part (cutting_plans st) with
  | Some plans => mkOptState plans (stock_usage st) (unassigned_parts st)
  | None =>
      match try_new_stock part (stock_usage st) sorted_inventory with
      | Some (plan, usage) =>
          mkOptState (cutting_plans st ++ [plan]) usage (unassigned_parts st)
      | None =>
          mkOptState (cutting_plans st) (stock_usage st) (unassigned_parts st ++ [(part, 1%Z)])
      end
  end.

Definition expand_parts (sorted_parts : list Part.t) : list Part.t :=
  flat_map (fun part => repeat part (Z.to_nat (Part.total_quantity part))) sorted_parts.

Definition sort_inventory (inventory : list LumberStock.t) : list LumberStock.t :=
  stable_sort (fun a b => Qltb (LumberStock.volume b) (LumberStock.volume a)) inventory.

(** [optimize]; [elapsed] is [time.time() - start_time]. *)
Definition optimize (inventory : list LumberStock.t) (parts : list Part.t) (elapsed : Q)
    : OptimizationResult.t :=
  let part_list := expand_parts (_sort_parts parts) in
  let sorted_inventory := sort_inventory inventory in
  let stock_usage0 :=
    fold_left (fun d stock => dict_set (LumberStock.id stock) 0%Z d) sorted_inventory [] in
  let st := fold_left (place_part sorted_inventory) part_list (mkOptState [] stock_usage0 []) in
  let unassigned_parts := _consolidate_unassigned (unassigned_parts st) in
  let result := _calculate_results (cutting_plans st) unassigned_parts sorted_inventory in
  OptimizationResult.mk (OptimizationResult.cutting_plans result)
    (OptimizationResult.unassigned_parts result) (OptimizationResult.total_sticks_used result)
    (OptimizationResult.total_cuts result) (OptimizationResult.overall_efficiency result)
    (OptimizationResult.total_waste result) (OptimizationResult.total_cost result)
    (OptimizationResult.total_volume_used_cft result) elapsed.
End Methods.
End CuttingOptimizer.

Definition optimize_cutting_plan (inventory : list LumberStock.t) (parts : list Part.t)
    (cutting_params : CuttingParameters.t) (elapsed : Q) : OptimizationResult.t :=
  CuttingOptimizer.optimize cutting_params inventory parts elapsed.
End optimizer.

(* ------------------------------------------------------------------ *)
(** ** Predicates used to state properties of optimizer.py *)

Module optimizer_spec.
Import data_models optimizer.CuttingOptimizer.

(** Cuts laid one after the other along the stock length from [x0], each
    starting where the previous one ends plus the kerf, at [y = z = 0]. *)
Fixpoint layout_from (kerf x0 : Q) (cs : list CutPiece.t) : Prop :=
  match cs with
  | [] => True
  | c :: cs' =>
      CutPiece.x c = x0 /\ CutPiece.y c = 0 /\ CutPiece.z c = 0
      /\ layout_from kerf (CutPiece.x c + CutPiece.actual_length c + kerf) cs'
  end.

(** A cut made from one of the orientations [_get_possible_orientations]
    offers for its part on the given stock. *)
Definition cut_from_orientation (params : CuttingParameters.t) (stock : LumberStock.t)
    (c : CutPiece.t) : Prop :=
  exists rotated pl pw pt,
    In (rotated, pl, pw, pt) (_get_possible_orientations params (CutPiece.part c) stock)
    /\ c = CutPiece.make (CutPiece.part c) (CutPiece.x c) (CutPiece.y c) (CutPiece.z c)
             rotated pl pw pt.

Definition plan_ok (params : CuttingParameters.t) (inventory : list LumberStock.t)
    (plan : CuttingPlan.t) : Prop :=
  In (CuttingPlan.stock plan) inventory
  /\ CuttingPlan.cuts plan <> []
  /\ layout_from (CuttingParameters.kerf params) 0 (CuttingPlan.cuts plan)
  /\ _calculate_offcuts params plan = plan
  /\ Forall (cut_from_orientation params (CuttingPlan.stock plan)) (CuttingPlan.cuts plan).

Definition all_cuts (plans : list CuttingPlan.t) : list CutPiece.t :=
  flat_map CuttingPlan.cuts plans.

Definition has_id (k : string) (p : Part.t) : bool := String.eqb (Part.id p) k.

(** Cut pieces of the part(s) with id [k]. *)
Definition count_cuts_id (k : string) (plans : list CuttingPlan.t) : nat :=
  List.length (filter (fun c => has_id k (CutPiece.part c)) (all_cuts plans)).

(** The quantity listed for id [k] in an unassigned list. *)
Definition unassigned_qty (k : string) (l : list (Part.t * Z)) : Z :=
  sum_Z (map snd (filter (fun e => has_id k (fst e)) l)).

Definition plans_of_stock (k : string) (plans : list CuttingPlan.t) : list CuttingPlan.t :=
  filter (fun plan => String.eqb (LumberStock.id (CuttingPlan.stock plan)) k) plans.

Definition opt_inv (params : CuttingParameters.t) (inventory : list LumberStock.t)
    (done : list Part.t) (st : OptState) : Prop :=
  Forall (plan_ok params inventory) (cutting_plans st)
  /\ (forall k, dict_get_default k (stock_usage st) 0%Z
                = Z.of_nat (List.length (plans_of_stock k (cutting_plans st))))
  /\ (forall k, map CuttingPlan.stock_index (plans_of_stock k (cutting_plans st))
                = map Z.of_nat (seq 0 (List.length (plans_of_stock k (cutting_plans st)))))
  /\ (forall k, plans_of_stock k (cutting_plans st) <> [] ->
        exists s, In s inventory /\ LumberStock.id s = k
          /\ (Z.of_nat (List.length (plans_of_stock k (cutting_plans st)))
              <= LumberStock.quantity s)%Z)
  /\ Forall (fun e => snd e = 1%Z) (unassigned_parts st)
  /\ (List.length (all_cuts (cutting_plans st)) + List.length (unassigned_parts st)
      = List.length done)%nat
  /\ (forall k, Z.of_nat (count_cuts_id k (cutting_plans st))
                + unassigned_qty k (unassigned_parts st)
                = Z.of_nat (List.length (filter (has_id k) done)))%Z
  /\ (forall c, In c (all_cuts (cutting_plans st)) -> In (CutPiece.part c) done).
(** Where [_add_part_to_plan] places the next cut along the stock. *)
Definition next_x (kerf : Q) (cuts : list CutPiece.t) : Q :=
  match rev cuts with
  | [] => 0
  | last_cut :: _ => CutPiece.x last_cut + CutPiece.actual_length last_cut + kerf
  end.

(** The fields of a plan that adding a cut leaves unchanged. *)
Definition plan_hdr (plan : CuttingPlan.t) : LumberStock.t * Z :=
  (CuttingPlan.stock plan, CuttingPlan.stock_index plan).

(** The quantities listed in an unassigned list for the parts selected by [f]. *)
Definition wqty (f : Part.t -> bool) (l : list (Part.t * Z)) : Z :=
  sum_Z (map snd (filter (fun e => f (fst e)) l)).

(** Invariant of the [_consolidate_unassigned] loop after the entries
    [processed], with [d] the [consolidated] dict. *)
Definition consolidated_inv (f : Part.t -> bool) (processed : list (Part.t * Z))
    (d : list (string * (Part.t * Z))) : Prop :=
  NoDup (map fst d)
  /\ (forall k v, In (k, v) d -> Part.id (fst v) = k)
  /\ wqty f (map snd d) = wqty f processed
  /\ (forall k v, In (k, v) d -> exists q, In (fst v, q) processed)
  /\ (forall e, In e processed -> dict_get (Part.id (fst e)) d <> None)
  /\ (Forall (fun e => 1 <= snd e)%Z processed -> Forall (fun e => 1 <= snd e)%Z (map snd d)).

(** A part whose three dimensions are positive. *)
Definition positive_dims (p : Part.t) : Prop :=
  (0 < Part.length p /\ 0 < Part.width p /\ 0 < Part.thickness p)%Q.

(** The cut volume of a plan is at most its stock unit's volume. *)
Definition plan_volume_ok (plan : CuttingPlan.t) : Prop :=
  (sum_Q (map CuttingPlan.cut_volume (CuttingPlan.cuts plan))
   <= LumberStock.volume (CuttingPlan.stock plan))%Q.

(** [g] of the first inventory item with id [k], 0 if there is none. *)
Definition stock_lookup (inventory : list LumberStock.t) (g : LumberStock.t -> Q) (k : string) : Q :=
  match find (fun s => String.eqb (LumberStock.id s) k) inventory with
  | Some s => g s
  | None => 0
  end.

(** [sum(g(stock_k) * count_k)] over the entries of a [stock_counts] dict. *)
Definition weighted (inventory : list LumberStock.t) (g : LumberStock.t -> Q)
    (d : list (string * Z)) : Q :=
  sum_Q (map (fun e => stock_lookup inventory g (fst e) * inject_Z (snd e)) d).
End optimizer_spec.

(** ** Sample inputs for [optimizer.optimize_cutting_plan] *)

Module optimizer_examples.
Import data_models.

Definition ex_oak : LumberStock.t :=
  LumberStock.mk "Oak board" 1000 100 50 1 25 "s_oak".

Definition ex_pine : LumberStock.t :=
  LumberStock.mk "Pine board" 2400 100 50 2 10 "s_pine".

Definition ex_leg : Part.t :=
  Part.mk "Leg" "table leg" 700 50 50 4 1 "pine" false 5 0 "p_leg".

Definition ex_top : Part.t :=
  Part.mk "Top" "table top" 3000 100 50 1 1 "pine" true 5 0 "p_top".

(** Grain along the length, 2 mm tolerance. *)
Definition ex_params : CuttingParameters.t :=
  CuttingParameters.mk 3 100 2 LENGTH MAXIMIZE_EFFICIENCY true true 5.

(** No grain constraint, no tolerance. *)
Definition ex_params_exact : CuttingParameters.t :=
  CuttingParameters.mk 3 100 0 NONE FASTEST_CUT true true 5.
End optimizer_examples.

(* ------------------------------------------------------------------ *)
(** * Proofs *)

(** ** Orientation candidates *)

Lemma Qeq_bool_sym (a b : Q) : Qeq_bool a b = Qeq_bool b a.
Proof.
  destruct (Qeq_bool a b) eqn:E; destruct (Qeq_bool b a) eqn:F; auto.
  - apply Qeq_bool_iff in E. apply Qeq_bool_neq in F. exfalso. apply F. now symmetry.
  - apply Qeq_bool_iff in F. apply Qeq_bool_neq in E. exfalso. apply E. now symmetry.
Qed.

Lemma tup_eqb_sym (a b : Q * Q * Q) : tup_eqb a b = tup_eqb b a.
Proof.
  destruct a as [[a1 a2] a3], b as [[b1 b2] b3]; unfold tup_eqb.
  now rewrite (Qeq_bool_sym a1), (Qeq_bool_sym a2), (Qeq_bool_sym a3).
Qed.

Lemma tup_eqb_refl (a : Q * Q * Q) : tup_eqb a a = true.
Proof.
  destruct a as [[a1 a2] a3]; unfold tup_eqb.
  rewrite !Qeq_bool_refl. reflexivity.
Qed.

Lemma dedup_dims_sound seen ds d : In d (dedup_dims seen ds) -> In d ds.
Proof.
  revert seen; induction ds as [|d0 ds IH]; intros seen; simpl; [tauto|].
  destruct (existsb _ seen); simpl.
  - intros H; right; eapply IH; eauto.
  - intros [H|H]; [now left | right; eapply IH; eauto].
Qed.

Lemma dedup_dims_complete seen ds d :
  In d ds ->
  existsb (tup_eqb (Dimension3D.sorted_tuple d)) seen = true
  \/ exists d', In d' (dedup_dims seen ds) /\ dim_eqb d d' = true.
Proof.
  revert seen; induction ds as [|d0 ds IH]; intros seen Hin; [destruct Hin|].
  simpl. destruct Hin as [->|Hin].
  - destruct (existsb _ seen) eqn:E; [now left|].
    right; exists d; split; [now left | apply tup_eqb_refl].
  - destruct (existsb (tup_eqb (Dimension3D.sorted_tuple d0)) seen) eqn:E.
    + now apply IH.
    + destruct (IH (Dimension3D.sorted_tuple d0 :: seen) Hin) as [H|[d' [H1 H2]]].
      * cbn [existsb] in H. apply orb_true_iff in H as [H|H]; [|now left].
        right; exists d0; split; [now left | exact H].
      * right; exists d'; split; [now right | exact H2].
Qed.

Lemma dedup_dims_fresh seen ds x :
  In x (dedup_dims seen ds) ->
  existsb (tup_eqb (Dimension3D.sorted_tuple x)) seen = false.
Proof.
  revert seen; induction ds as [|d0 ds IH]; intros seen; simpl; [tauto|].
  destruct (existsb (tup_eqb (Dimension3D.sorted_tuple d0)) seen) eqn:E.
  - apply IH.
  - intros [<-|H]; [exact E|].
    specialize (IH _ H). cbn [existsb] in IH. apply orb_false_iff in IH. tauto.
Qed.

Lemma dedup_dims_nodup seen ds :
  NoDupA (fun a b => dim_eqb a b = true) (dedup_dims seen ds).
Proof.
  revert seen; induction ds as [|d0 ds IH]; intros seen; simpl; [constructor|].
  destruct (existsb _ seen); [apply IH|].
  constructor; [|apply IH].
  intros Hin. apply InA_alt in Hin as [x [Hx Hin]].
  apply dedup_dims_fresh in Hin. cbn [existsb] in Hin. apply orb_false_iff in Hin as [Hin _].
  unfold dim_eqb in Hx. rewrite tup_eqb_sym in Hin. congruence.
Qed.

Ltac split_flags p :=
  destruct (PartRequirement.allow_rotation_length_width p),
           (PartRequirement.allow_rotation_width_thickness p),
           (PartRequirement.allow_rotation_length_thickness p),
           (PartRequirement.enforce_grain_along_length p).

Lemma raw_candidates_spec (p : PartRequirement.t) d :
  let req := PartRequirement.required_dimensions_mm p in
  In d ([Dimension3D.mk (Dimension3D.length_mm req) (Dimension3D.width_mm req)
           (Dimension3D.thickness_mm req)]
        ++ (if PartRequirement.allow_rotation_width_thickness p
            then [Dimension3D.mk (Dimension3D.length_mm req) (Dimension3D.thickness_mm req)
                    (Dimension3D.width_mm req)] else [])
        ++ (if negb (PartRequirement.enforce_grain_along_length p)
            then (if PartRequirement.allow_rotation_length_width p
                  then [Dimension3D.mk (Dimension3D.width_mm req) (Dimension3D.length_mm req)
                          (Dimension3D.thickness_mm req)] else [])
                 ++ (if PartRequirement.allow_rotation_length_thickness p
                     then [Dimension3D.mk (Dimension3D.thickness_mm req)
                             (Dimension3D.width_mm req) (Dimension3D.length_mm req)]
                     else [])
            else []))
  <-> exists o, spec_permitted p o = true /\ d = orient o req.
Proof.
  intros req. unfold spec_permitted, rotation_flag.
  split.
  - split_flags p; simpl;
      intros H; repeat destruct H as [<-|H]; try destruct H;
      solve [ exists Identity; auto | exists SwapWT; auto
            | exists SwapLW; auto | exists SwapLT; auto ].
  - intros [o [Hp ->]].
    split_flags p; destruct o; simpl in *; try discriminate; simpl; tauto.
Qed.

(** C4: [candidate_dims] tries exactly the orientations permitted by the
    rotation flags and the grain constraint (identity always; the
    width-thickness swap iff [allow_rotation_width_thickness]; the
    length-width and length-thickness swaps iff their flag is set and the
    grain is not enforced), each dimension triple once. *)
Theorem candidate_dims_permitted (p : PartRequirement.t) :
  let req := PartRequirement.required_dimensions_mm p in
  (forall d, In d (candidate_dims p) ->
             exists o, spec_permitted p o = true /\ d = orient o req)
  /\ (forall o, spec_permitted p o = true ->
                exists d, In d (candidate_dims p) /\ dim_eqb d (orient o req) = true)
  /\ NoDupA (fun a b => dim_eqb a b = true) (candidate_dims p).
Proof.
  intros req. unfold candidate_dims. split; [|split].
  - intros d Hd. apply dedup_dims_sound in Hd.
    now apply (raw_candidates_spec p d).
  - intros o Ho.
    match goal with
    | |- exists d, In d (dedup_dims [] ?raw) /\ _ =>
        destruct (dedup_dims_complete [] raw (orient o req)) as [H|[d' [H1 H2]]]
    end.
    + apply (raw_candidates_spec p). eauto.
    + discriminate H.
    + exists d'. split; [exact H1|]. unfold dim_eqb in *. now rewrite tup_eqb_sym.
  - apply dedup_dims_nodup.
Qed.

(** ** Ordering of the parts *)

Lemma part_key_le_total (p q : PartRequirement.t) :
  part_key_le p q = false -> part_key_le q p = true.
Proof.
  unfold part_key_le. intros H.
  apply orb_false_iff in H as [H1 H2]. apply Z.ltb_ge in H1.
  destruct (Z.eq_dec (- PartRequirement.priority p) (- PartRequirement.priority q)) as [E|E].
  - rewrite E, Z.eqb_refl in H2. simpl in H2.
    apply orb_true_iff; right. rewrite E, Z.eqb_refl. simpl.
    destruct (String.leb_total (PartRequirement.name p) (PartRequirement.name q)); congruence.
  - apply orb_true_iff; left. apply Z.ltb_lt. lia.
Qed.

Lemma insert_part_perm p l : Permutation (p :: l) (insert_part p l).
Proof.
  induction l as [|q l IH]; simpl; [reflexivity|].
  destruct (part_key_le p q); [reflexivity|].
  rewrite perm_swap. now constructor.
Qed.

Lemma insert_part_sorted p l :
  Sorted (fun a b => part_key_le a b = true) l ->
  Sorted (fun a b => part_key_le a b = true) (insert_part p l).
Proof.
  induction 1 as [|q l Hs IH Hhd]; simpl; [repeat constructor|].
  destruct (part_key_le p q) eqn:E.
  - constructor; [constructor; auto|constructor; exact E].
  - constructor; [exact IH|].
    destruct l as [|r l]; simpl.
    + constructor. now apply part_key_le_total.
    + inversion Hhd; subst. destruct (part_key_le p r).
      * constructor. now apply part_key_le_total.
      * constructor. assumption.
Qed.

Lemma same_sort_key_le k p q :
  same_sort_key p k = true -> same_sort_key q k = true -> part_key_le p q = true.
Proof.
  unfold same_sort_key, part_key_le.
  intros Hp Hq. apply andb_true_iff in Hp as [Hp1 Hp2], Hq as [Hq1 Hq2].
  apply Z.eqb_eq in Hp1, Hq1. apply String.eqb_eq in Hp2, Hq2.
  rewrite Hp1, Hq1, Hp2, Hq2, Z.eqb_refl.
  destruct (String.leb_total (PartRequirement.name k) (PartRequirement.name k)) as [E|E];
    rewrite E; apply orb_true_r.
Qed.

Lemma insert_part_stable k p l :
  filter (fun x => same_sort_key x k) (insert_part p l)
  = filter (fun x => same_sort_key x k) (p :: l).
Proof.
  induction l as [|q l IH]; simpl; [reflexivity|].
  destruct (part_key_le p q) eqn:Epq; [reflexivity|]. simpl. rewrite IH. simpl.
  destruct (same_sort_key p k) eqn:Ep, (same_sort_key q k) eqn:Eq; auto.
  rewrite (same_sort_key_le k p q Ep Eq) in Epq. discriminate.
Qed.

(** C7 (as the code has it): the engine processes the parts in the order of
    [sorted(required_parts, key=lambda p: (-p.priority, p.name))]: a
    permutation of the input, ordered by priority descending and then by
    name, and stable: parts with the same key keep their input order; the
    volume is not part of the key. *)
Theorem sorted_parts_order (l : list PartRequirement.t) :
  Sorted (fun a b => part_key_le a b = true) (sorted_parts l)
  /\ Permutation l (sorted_parts l)
  /\ forall k, filter (fun x => same_sort_key x k) (sorted_parts l)
              = filter (fun x => same_sort_key x k) l.
Proof.
  induction l as [|p l [IHs [IHp IHf]]]; simpl.
  - split; [constructor|split; [constructor|reflexivity]].
  - split; [|split].
    + now apply insert_part_sorted.
    + rewrite <- insert_part_perm. now constructor.
    + intros k. rewrite insert_part_stable. simpl. rewrite IHf. reflexivity.
Qed.

(** ** Runs and reachable states *)

Lemma run_reachable inp fuel s s' :
  reachable inp s -> run fuel inp s = Some s' ->
  reachable inp s' /\ control s' = Done.
Proof.
  revert s; induction fuel as [|fuel IH]; intros s Hr Hrun; simpl in Hrun; [discriminate|].
  destruct (control s) eqn:E; try (apply (IH (step inp s)); [now constructor|exact Hrun]).
  inversion Hrun; subst. auto.
Qed.

Lemma optimize_final inv parts params r :
  optimize_cutting_plan inv parts params = Some r ->
  exists s, reachable (mkInputs inv parts params) s /\ control s = Done /\ r = finalize s.
Proof.
  unfold optimize_cutting_plan.
  destruct (run _ _ _) as [s|] eqn:E; simpl; intros H; inversion H; subst.
  apply run_reachable in E as [H1 H2]; [|constructor]. eauto.
Qed.

(** ** Dictionaries *)

Section DictLemmas.
Context {V : Type}.

Lemma dict_get_set (k k' : string) (v : V) d :
    dict_get k (dict_set k' v d) = if String.eqb k k' then Some v else dict_get k d.
  Proof.
    induction d as [|[k0 v0] d IH]; simpl; [reflexivity|].
    destruct (String.eqb k' k0) eqn:E1; simpl.
    - apply String.eqb_eq in E1; subst k0.
      destruct (String.eqb k k'); reflexivity.
    - rewrite IH. destruct (String.eqb k k') eqn:E2, (String.eqb k k0) eqn:E3; auto.
      apply String.eqb_eq in E2, E3; subst. now rewrite String.eqb_refl in E1.
  Qed.

Lemma dict_set_keys (k : string) (v : V) d :
    dict_get k d <> None -> map fst (dict_set k v d) = map fst d.
  Proof.
    induction d as [|[k0 v0] d IH]; simpl; [tauto|].
    destruct (String.eqb k k0) eqn:E; simpl; [reflexivity|].
    intros H. now rewrite IH.
  Qed.

Lemma dict_set_in (k k' : string) (v v' : V) d :
    In (k, v) (dict_set k' v' d) -> In (k, v) d \/ (k = k' /\ v = v').
  Proof.
    induction d as [|[k0 v0] d IH]; simpl.
    - intros [H|[]]. inversion H; auto.
    - destruct (String.eqb k' k0) eqn:E; simpl.
      + apply String.eqb_eq in E; subst k0.
        intros [H|H]; [inversion H; auto | auto].
      + intros [H|H]; [auto|]. destruct (IH H); auto.
  Qed.

Lemma dict_set_nodup (k : string) (v : V) d :
    NoDup (map fst d) -> NoDup (map fst (dict_set k v d)).
  Proof.
    induction d as [|[k0 v0] d IH]; simpl; intros Hnd.
    - repeat constructor; simpl; tauto.
    - inversion Hnd; subst.
      destruct (String.eqb k k0) eqn:E; simpl; [now constructor|].
      constructor; [|now apply IH].
      intros Hin. apply in_map_iff in Hin as [[k1 v1] [Hk Hin]]. simpl in Hk; subst k1.
      apply dict_set_in in Hin as [Hin|[-> _]].
      + apply H1. apply in_map_iff. now exists (k0, v1).
      + now rewrite String.eqb_refl in E.
  Qed.

Lemma dict_get_in (k : string) (v : V) d : dict_get k d = Some v -> In (k, v) d.
  Proof.
    induction d as [|[k0 v0] d IH]; simpl; [discriminate|].
    destruct (String.eqb k k0) eqn:E; intros H.
    - apply String.eqb_eq in E; inversion H; subst; auto.
    - auto.
  Qed.

Lemma in_dict_get (k : string) (v : V) d :
    NoDup (map fst d) -> In (k, v) d -> dict_get k d = Some v.
  Proof.
    induction d as [|[k0 v0] d IH]; simpl; [tauto|].
    intros Hnd [H|H]; inversion Hnd; subst.
    - inversion H; subst. now rewrite String.eqb_refl.
    - destruct (String.eqb k k0) eqn:E; [|now apply IH].
      apply String.eqb_eq in E; subst k0. exfalso. apply H2.
      apply in_map_iff. now exists (k, v).
  Qed.

Lemma dict_get_none_keys (k : string) d :
    dict_get k d = None <-> ~ In k (map (@fst string V) d).
  Proof.
    induction d as [|[k0 v0] d IH]; simpl; [tauto|].
    destruct (String.eqb k k0) eqn:E.
    - apply String.eqb_eq in E; subst. split; [discriminate|]. tauto.
    - rewrite IH. apply String.eqb_neq in E. intuition.
  Qed.
End DictLemmas.

Lemma dict_set_map_snd {A B : Type} (g : A -> B) k (v : A) d :
  dict_set k (g v) (map (fun kv => (fst kv, g (snd kv))) d)
  = map (fun kv => (fst kv, g (snd kv))) (dict_set k v d).
Proof.
  induction d as [|[k0 v0] d IH]; simpl; [reflexivity|].
  destruct (String.eqb k k0); simpl; [reflexivity|]. now rewrite IH.
Qed.

Lemma dict_get_map_snd {A B : Type} (g : A -> B) k d :
  dict_get k (map (fun kv => (fst kv, g (snd kv))) d) = option_map g (dict_get k d).
Proof.
  induction d as [|[k0 v0] d IH]; simpl; [reflexivity|].
  destruct (String.eqb k k0); auto.
Qed.

(** ** The demand counters *)

Lemma init_required_left inp :
  required_left (init_locals inp)
  = map (fun kv => (fst kv, PartRequirement.quantity_total (snd kv)))
        (part_by_key (init_locals inp)).
Proof.
  simpl. change (@nil (string * Z))
    with (map (fun kv => (fst kv, PartRequirement.quantity_total (snd kv)))
              (@nil (string * PartRequirement.t))).
  generalize (@nil (string * PartRequirement.t)).
  induction (required_parts inp) as [|p ps IH]; intros acc; simpl; [reflexivity|].
  rewrite dict_set_map_snd. apply IH.
Qed.

Lemma fold_dict_set_in {A V : Type} (f : A -> string) (g : A -> V)
    (P : string -> V -> Prop) l acc :
  (forall k v, In (k, v) acc -> P k v) -> (forall a, In a l -> P (f a) (g a)) ->
  forall k v, In (k, v) (fold_left (fun d a => dict_set (f a) (g a) d) l acc) -> P k v.
Proof.
  revert acc; induction l as [|a l IH]; intros acc Hacc Hl; simpl; [exact Hacc|].
  apply IH; [|intros; apply Hl; now right].
  intros k v Hin. apply dict_set_in in Hin as [Hin|[-> ->]]; auto.
  apply Hl. now left.
Qed.

Lemma fold_dict_set_nodup {A V : Type} (f : A -> string) (g : A -> V) l acc :
  NoDup (map fst acc) ->
  NoDup (map fst (fold_left (fun d a => dict_set (f a) (g a) d) l acc)).
Proof.
  revert acc; induction l as [|a l IH]; intros acc Hnd; simpl; [exact Hnd|].
  apply IH. now apply dict_set_nodup.
Qed.

Lemma init_part_by_key_in inp k part :
  In (k, part) (part_by_key (init_locals inp)) ->
  PartRequirement.key part = k /\ In part (required_parts inp).
Proof.
  apply (fold_dict_set_in PartRequirement.key (fun p => p)
           (fun k part => PartRequirement.key part = k /\ In part (required_parts inp))).
  - simpl; tauto.
  - auto.
Qed.

Lemma init_part_by_key_nodup inp : NoDup (map fst (part_by_key (init_locals inp))).
Proof.
  apply (fold_dict_set_nodup PartRequirement.key (fun p => p)). constructor.
Qed.

Lemma dict_set_keys_mono {V : Type} (k k' : string) (v : V) d :
  k' = k \/ In k' (map fst d) -> In k' (map fst (dict_set k v d)).
Proof.
  induction d as [|[k0 v0] d IH]; simpl; intros H.
  - destruct H as [->|[]]. now left.
  - destruct (String.eqb k k0) eqn:E; simpl.
    + apply String.eqb_eq in E; subst k0. destruct H as [->|[H|H]]; auto.
    + destruct H as [->|[H|H]]; [right; apply IH; now left|now left|right; apply IH; now right].
Qed.

Lemma fold_dict_set_keys {A V : Type} (f : A -> string) (g : A -> V) l acc k :
  In k (map fst acc) \/ (exists a, In a l /\ f a = k) ->
  In k (map fst (fold_left (fun d a => dict_set (f a) (g a) d) l acc)).
Proof.
  revert acc; induction l as [|a l IH]; simpl; intros acc H.
  - destruct H as [H|[a [[] _]]]. exact H.
  - apply IH. destruct H as [H|[a' [[<-|Ha] Hk]]].
    + left. apply dict_set_keys_mono. now right.
    + left. apply dict_set_keys_mono. now left.
    + right. eauto.
Qed.

Lemma init_part_by_key_keys inp part :
  In part (required_parts inp) ->
  In (PartRequirement.key part) (map fst (part_by_key (init_locals inp))).
Proof.
  intros Hin. apply fold_dict_set_keys. right. eauto.
Qed.

(** The [for part in sorted(...)] loop commits the first part in the order
    that has demand left and an admissible candidate. *)
Lemma choose_part_first params item rem rl ps part q picked :
  choose_part params item rem rl ps = Some (part, q, picked) ->
  exists pre post,
    ps = pre ++ part :: post
    /\ q = dict_get_default (PartRequirement.key part) rl 0%Z /\ (0 < q)%Z
    /\ pick_dims params item rem part = Some picked
    /\ (forall p', In p' pre ->
          (dict_get_default (PartRequirement.key p') rl 0 <= 0)%Z
          \/ pick_dims params item rem p' = None).
Proof.
  induction ps as [|p ps IH]; simpl; [discriminate|].
  destruct (dict_get_default (PartRequirement.key p) rl 0 <=? 0)%Z eqn:E.
  - intros H. destruct (IH H) as [pre [post [-> [Hq [Hpos [Hpick Hpre]]]]]].
    exists (p :: pre), post. repeat split; auto.
    intros p' [<-|Hin]; [left; now apply Z.leb_le | auto].
  - destruct (pick_dims params item rem p) eqn:Ep.
    + intros H; inversion H; subst.
      exists [], ps. repeat split; auto; [apply Z.leb_gt; exact E | simpl; tauto].
    + intros H. destruct (IH H) as [pre [post [-> [Hq [Hpos [Hpick Hpre]]]]]].
      exists (p :: pre), post. repeat split; auto.
      intros p' [<-|Hin]; [right; exact Ep | auto].
Qed.

Lemma choose_part_demand params item rem rl ps part q picked :
  choose_part params item rem rl ps = Some (part, q, picked) ->
  dict_get (PartRequirement.key part) rl = Some q /\ (0 < q)%Z.
Proof.
  intros H. apply choose_part_first in H as [pre [post [_ [Hq [Hpos _]]]]].
  split; [|exact Hpos]. unfold dict_get_default in Hq.
  destruct (dict_get _ rl); [now subst | lia].
Qed.

(** A step either leaves the counters alone or lowers one positive counter
    by one; [part_by_key] never changes. *)
Lemma step_required_left inp s :
  part_by_key (step inp s) = part_by_key s
  /\ (required_left (step inp s) = required_left s
      \/ exists k q, dict_get k (required_left s) = Some q /\ (0 < q)%Z
                     /\ required_left (step inp s) = dict_set k (q - 1)%Z (required_left s)).
Proof.
  unfold step. destruct (control s) as [[|item rest]|item rest i|item rest i stick cur|];
    simpl; auto.
  - destruct (i <? _)%Z; [simpl; auto|]. destruct (all_done _); simpl; auto.
  - destruct (Qltb cur _); [|simpl; auto].
    destruct (choose_part _ _ _ _ _) as [[[part q] picked]|] eqn:Ech; [|simpl; auto].
    apply choose_part_demand in Ech as [Hget Hpos].
    destruct (all_done _); simpl; split; auto; right; eauto.
Qed.

Definition counters_inv (inp : RunInputs) (s : Locals) : Prop :=
  map fst (required_left s) = map fst (part_by_key s)
  /\ NoDup (map fst (part_by_key s))
  /\ forall k part, In (k, part) (part_by_key s) ->
       PartRequirement.key part = k /\ In part (required_parts inp)
       /\ exists v, dict_get k (required_left s) = Some v
          /\ (v <= PartRequirement.quantity_total part)%Z
          /\ ((PartRequirement.quantity_total part <= 0)%Z -> v = PartRequirement.quantity_total part)
          /\ ((0 <= PartRequirement.quantity_total part)%Z -> (0 <= v)%Z).

Lemma counters_inv_init inp : counters_inv inp (init_locals inp).
Proof.
  pose proof (init_part_by_key_nodup inp) as Hnd.
  split; [|split; [exact Hnd|]].
  - rewrite init_required_left, map_map. now apply map_ext.
  - intros k part Hin.
    destruct (init_part_by_key_in inp k part Hin) as [Hk Hp].
    repeat split; auto.
    exists (PartRequirement.quantity_total part).
    rewrite init_required_left, dict_get_map_snd, (in_dict_get _ _ _ Hnd Hin).
    simpl. repeat split; lia.
Qed.

Lemma counters_inv_step inp s : counters_inv inp s -> counters_inv inp (step inp s).
Proof.
  intros [Hkeys [Hnd Hparts]].
  destruct (step_required_left inp s) as [Hpbk [Hrl|[k [q [Hget [Hpos Hrl]]]]]];
    unfold counters_inv; rewrite Hpbk, Hrl.
  - auto.
  - split; [rewrite dict_set_keys; [exact Hkeys|congruence]|split; [exact Hnd|]].
    intros k' part Hin. destruct (Hparts k' part Hin) as [Hk [Hp [v [Hv [H1 [H2 H3]]]]]].
    repeat split; auto.
    rewrite dict_get_set. destruct (String.eqb k' k) eqn:E.
    + apply String.eqb_eq in E. rewrite E, Hget in Hv. inversion Hv; subst v.
      exists (q - 1)%Z. repeat split; lia.
    + exists v. auto.
Qed.

Lemma counters_inv_reachable inp s : reachable inp s -> counters_inv inp s.
Proof.
  induction 1; [apply counters_inv_init | now apply counters_inv_step].
Qed.

(** C1: with non-negative requested quantities, no remaining-demand counter
    is negative in any state of the run, and for every part of the summary
    the reported [produced] count plus the final counter (the missing
    count) is the part's [quantity_total]. *)
Theorem required_left_conservation inv parts params
  (Hq : Forall (fun p => (0 <= PartRequirement.quantity_total p)%Z) parts) :
  (forall s, reachable (mkInputs inv parts params) s ->
     forall k v, In (k, v) (required_left s) -> (0 <= v)%Z)
  /\ (forall r, optimize_cutting_plan inv parts params = Some r ->
       exists s, reachable (mkInputs inv parts params) s /\ control s = Done
         /\ r = finalize s
         /\ forall key d, In (key, d) (OptimizationResult.summary_by_part r) ->
              exists part produced missing,
                In part parts /\ PartRequirement.key part = key
                /\ missing = dict_get_default key (required_left s) 0%Z
                /\ d = [("produced"%string, inject_Z produced);
                        ("requested"%string, inject_Z (PartRequirement.quantity_total part))]
                /\ (produced + missing = PartRequirement.quantity_total part)%Z
                /\ (0 <= missing)%Z).
Proof.
  split.
  - intros s Hr k v Hin.
    destruct (counters_inv_reachable _ _ Hr) as [Hkeys [Hnd Hparts]].
    assert (Hk : In k (map fst (part_by_key s))).
    { rewrite <- Hkeys. apply in_map_iff. now exists (k, v). }
    apply in_map_iff in Hk as [[k' part] [Hk' Hin']]; simpl in Hk'; subst k'.
    destruct (Hparts k part Hin') as [_ [Hp [v' [Hv' [_ [_ Hnn]]]]]].
    rewrite <- Hkeys in Hnd. rewrite (in_dict_get _ _ _ Hnd Hin) in Hv'.
    inversion Hv'; subst v'. apply Hnn.
    rewrite Forall_forall in Hq. now apply Hq.
  - intros r Hopt. destruct (optimize_final _ _ _ _ Hopt) as [s [Hr [Hdone ->]]].
    exists s. repeat split; auto.
    intros key d Hin. simpl in Hin.
    apply in_map_iff in Hin as [[k part] [Heq Hin]].
    inversion Heq; subst k d.
    destruct (counters_inv_reachable _ _ Hr) as [_ [_ Hparts]].
    destruct (Hparts key part Hin) as [Hk [Hp [v [Hv [_ [_ Hnn]]]]]].
    rewrite Forall_forall in Hq.
    exists part, (PartRequirement.quantity_total part - v)%Z, v.
    unfold dict_get_default. rewrite Hv. repeat split; auto; try lia.
Qed.

(** ** Sticks, segments and accumulated volumes *)

Lemma Qltb_true x y : Qltb x y = true -> (x < y)%Q.
Proof.
  unfold Qltb. intros H. apply negb_true_iff in H.
  apply Qnot_le_lt. intros Hle. apply Qle_bool_iff in Hle. congruence.
Qed.

Lemma Qltb_false x y : Qltb x y = false -> (y <= x)%Q.
Proof.
  unfold Qltb. intros H. apply negb_false_iff in H. now apply Qle_bool_iff.
Qed.

Lemma Qgeb_true x y : Qgeb x y = true -> (y <= x)%Q.
Proof. unfold Qgeb. apply Qle_bool_iff. Qed.

Lemma pick_dims_fits params item rem part picked :
  pick_dims params item rem part = Some picked ->
  In picked (candidate_dims part)
  /\ (Dimension3D.length_mm picked <= rem + CuttingParameters.kerf_mm params)%Q
  /\ _fits picked (InventoryItem.dimensions_mm item) (CuttingParameters.tolerance params) = true.
Proof.
  unfold pick_dims. intros H. apply find_some in H as [Hin Hok].
  unfold candidate_admissible in Hok. apply andb_true_iff in Hok as [H1 H2]. apply negb_true_iff in H1.
  split; [exact Hin|split; [now apply Qltb_false|exact H2]].
Qed.

Lemma stick_cuts_add_segment stick seg :
  stick_cuts (add_segment stick seg) = stick_cuts stick ++ LengthSegmentPlan.cuts seg.
Proof.
  unfold stick_cuts, add_segment; simpl. rewrite flat_map_app. simpl.
  now rewrite app_nil_r.
Qed.

Lemma cuts_advance_snoc kerf L x cs y c :
  cuts_advance kerf L x cs y ->
  CutPiece.position_mm c = (y, 0, 0) -> (y < L)%Q ->
  (Dimension3D.length_mm (CutPiece.dims_mm c) <= L - y + kerf)%Q ->
  cuts_advance kerf L x (cs ++ [c]) (y + Dimension3D.length_mm (CutPiece.dims_mm c) + kerf).
Proof.
  revert x; induction cs as [|c0 cs IH]; intros x Hadv Hpos Hlt Hle; simpl in *.
  - subst y. repeat split; auto.
  - destruct Hadv as [H1 [H2 [H3 H4]]]. repeat split; auto.
Qed.

Lemma cuts_advance_kerf_run kerf L x cs y :
  cuts_advance kerf L x cs y -> (y == x + kerf_run kerf cs)%Q.
Proof.
  revert x; induction cs as [|c cs IH]; intros x H; simpl in *.
  - subst. ring.
  - destruct H as [_ [_ [_ H]]]. rewrite (IH _ H). ring.
Qed.

Lemma cuts_advance_bound kerf L x cs y :
  cs <> [] -> cuts_advance kerf L x cs y -> (y <= L + 2 * kerf)%Q.
Proof.
  revert x; induction cs as [|c cs IH]; intros x Hne H; [congruence|].
  simpl in H. destruct H as [_ [Hlt [Hle Hrest]]].
  destruct cs as [|c' cs'].
  - simpl in Hrest. subst y. lra.
  - apply (IH _ ltac:(discriminate) Hrest).
Qed.

Lemma plans_cut_volume_app l1 l2 :
  (plans_cut_volume (l1 ++ l2) == plans_cut_volume l1 + plans_cut_volume l2)%Q.
Proof.
  induction l1 as [|sp l1 IH]; simpl; [ring|]. rewrite IH. ring.
Qed.

Lemma plans_stock_volume_app l1 l2 :
  (plans_stock_volume (l1 ++ l2) == plans_stock_volume l1 + plans_stock_volume l2)%Q.
Proof.
  induction l1 as [|sp l1 IH]; simpl; [ring|]. rewrite IH. ring.
Qed.

Lemma plans_cut_volume_single sp :
  (plans_cut_volume [sp] == stick_cut_volume sp)%Q.
Proof. unfold plans_cut_volume; simpl. ring. Qed.

Lemma stick_cut_volume_new_stick item i : (stick_cut_volume (new_stick item i) == 0)%Q.
Proof. reflexivity. Qed.

Lemma stick_cut_volume_add_segment stick seg :
  (stick_cut_volume (add_segment stick seg)
   == stick_cut_volume stick
      + fold_right (fun c acc => volume (CutPiece.dims_mm c) + acc) 0
          (LengthSegmentPlan.cuts seg))%Q.
Proof.
  unfold stick_cut_volume. rewrite stick_cuts_add_segment.
  induction (stick_cuts stick) as [|c cs IH]; simpl; [ring|]. rewrite IH. ring.
Qed.

Lemma plans_inv_init inp : plans_inv inp (init_locals inp).
Proof.
  repeat split; simpl; auto; try reflexivity.
  now exists [].
Qed.

Lemma finish_stick_inv inp s item rest i stick pre :
  Forall (stick_ok inp) (stick_plans s) ->
  (total_stock_volume s == plans_stock_volume (stick_plans s))%Q ->
  (total_cut_volume s == plans_cut_volume (stick_plans s) + stick_cut_volume stick)%Q ->
  inventory inp = pre ++ item :: rest ->
  (0 <= i < InventoryItem.quantity item)%Z ->
  StickPlan.inventory_name stick = InventoryItem.name item ->
  StickPlan.dims_mm stick = InventoryItem.dimensions_mm item ->
  StickPlan.stick_index stick = (i + 1)%Z ->
  (exists y, cuts_advance (CuttingParameters.kerf_mm (params inp)) (stick_length stick) 0
               (stick_cuts stick) y) ->
  Forall (segment_offcuts_ok (params inp) (StickPlan.dims_mm stick)) (StickPlan.segments stick) ->
  plans_inv inp (finish_stick s item rest i stick).
Proof.
  intros Hok Htsv Htcv Hpre Hi Hname Hdims Hidx Hadv Hsegs.
  unfold plans_inv, finish_stick; simpl. split; [|split; [|split]].
  - apply Forall_app; split; [exact Hok|]. constructor; [|constructor].
    split; [exact Hadv|split; [exact Hsegs|]].
    exists item. rewrite Hpre. repeat split; auto; try lia.
    apply in_or_app; right; now left.
  - split; [now exists pre | lia].
  - rewrite plans_stock_volume_app, Htsv. simpl. rewrite Hdims. ring.
  - rewrite app_nil_r, plans_cut_volume_app, Htcv. simpl. ring.
Qed.

Lemma plans_inv_step inp s : plans_inv inp s -> plans_inv inp (step inp s).
Proof.
  intros [Hok [Hctl [Htsv Htcv]]].
  unfold control_ok in Hctl. unfold current_stick in Htcv.
  unfold step. destruct (control s) as [[|item rest]|item rest i|item rest i stick cur|] eqn:Ec.
  - repeat split; simpl; auto.
  - destruct Hctl as [pre Hpre].
    repeat split; simpl; auto; [exists pre; exact Hpre| lia].
  - destruct Hctl as [[pre Hpre] Hi].
    destruct (i <? InventoryItem.quantity item)%Z eqn:Eq.
    + apply Z.ltb_lt in Eq.
      unfold plans_inv, control_ok, current_stick; simpl.
      split; [exact Hok|split; [|split; [exact Htsv|]]].
      * repeat split; auto; [now exists pre].
      * rewrite app_nil_r in Htcv.
        rewrite plans_cut_volume_app, plans_cut_volume_single, stick_cut_volume_new_stick, Htcv.
        ring.
    + destruct (all_done _); unfold plans_inv, control_ok, current_stick; simpl;
        repeat split; auto.
      exists (pre ++ [item]). rewrite Hpre, <- app_assoc. reflexivity.
  - destruct Hctl as [[pre Hpre] [Hi [Hname [Hdims [Hidx [Hadv Hsegs]]]]]].
    rewrite plans_cut_volume_app, plans_cut_volume_single in Htcv.
    assert (HL : stick_length stick = Dimension3D.length_mm (InventoryItem.dimensions_mm item))
      by (unfold stick_length; now rewrite Hdims).
    destruct (Qltb cur _) eqn:Elt.
    + apply Qltb_true in Elt.
      destruct (choose_part _ _ _ _ _) as [[[part q] picked]|] eqn:Ech.
      * apply choose_part_first in Ech as [pre' [post' [_ [_ [_ [Hpick _]]]]]].
        apply pick_dims_fits in Hpick as [_ [Hlen _]].
        set (seg := placed_segment (params inp) item part picked cur
                      (Dimension3D.length_mm (InventoryItem.dimensions_mm item))).
        set (stick' := add_segment stick seg).
        assert (Hadv' : cuts_advance (CuttingParameters.kerf_mm (params inp))
                          (stick_length stick') 0 (stick_cuts stick')
                          (cur + Dimension3D.length_mm picked
                           + CuttingParameters.kerf_mm (params inp))).
        { unfold stick'. rewrite stick_cuts_add_segment.
          unfold stick_length, add_segment at 1. simpl. fold (stick_length stick).
          apply (cuts_advance_snoc _ _ _ _ _
                   (CutPiece.mk (PartRequirement.key part) picked (cur, 0, 0)
                      (_choose_color part))); auto; simpl; rewrite HL; [exact Elt|lra]. }
        assert (Hsegs' : Forall (segment_offcuts_ok (params inp) (StickPlan.dims_mm stick'))
                           (StickPlan.segments stick')).
        { unfold stick'; simpl. apply Forall_app; split; [exact Hsegs|].
          constructor; [|constructor]. unfold segment_offcuts_ok, seg, placed_segment; simpl.
          intros o Ho. destruct (Qgeb _ _) eqn:Eg; [|destruct Ho].
          destruct Ho as [<-|[]]. apply Qgeb_true in Eg. rewrite Hdims.
          simpl. repeat split; auto. }
        assert (Hvol : (stick_cut_volume stick' == stick_cut_volume stick + volume picked)%Q).
        { unfold stick'. rewrite stick_cut_volume_add_segment. simpl. ring. }
        destruct (all_done _).
        -- apply (finish_stick_inv _ _ _ _ _ _ pre); simpl; auto.
           ++ rewrite Htcv, Hvol. ring.
           ++ eexists. exact Hadv'.
        -- unfold plans_inv, control_ok, current_stick; simpl.
           split; [exact Hok|split; [|split; [exact Htsv|]]].
           ++ repeat split; auto; try lia. now exists pre.
           ++ rewrite plans_cut_volume_app, plans_cut_volume_single, Htcv, Hvol. ring.
      * set (stick' := add_segment stick (closing_segment (params inp) item cur
                          (Dimension3D.length_mm (InventoryItem.dimensions_mm item)))).
        apply (finish_stick_inv _ _ _ _ _ _ pre); auto.
        -- rewrite Htcv. unfold stick'. rewrite stick_cut_volume_add_segment. simpl. ring.
        -- exists cur. unfold stick'. rewrite stick_cuts_add_segment. simpl.
           rewrite app_nil_r. exact Hadv.
        -- unfold stick'; simpl. apply Forall_app; split; [exact Hsegs|].
           constructor; [|constructor]. unfold segment_offcuts_ok, closing_segment; simpl.
           intros o Ho. destruct (Qgeb _ _) eqn:Eg; [|destruct Ho].
           destruct Ho as [<-|[]]. apply Qgeb_true in Eg. rewrite Hdims.
           simpl. repeat split; auto.
    + apply (finish_stick_inv _ _ _ _ _ _ pre); eauto.
  - repeat split; auto; unfold control_ok, current_stick; now rewrite Ec.
Qed.

Lemma plans_inv_reachable inp s : reachable inp s -> plans_inv inp s.
Proof.
  induction 1; [apply plans_inv_init | now apply plans_inv_step].
Qed.

(** ** Results of a run *)

Lemma final_plans_inv inv parts params r :
  optimize_cutting_plan inv parts params = Some r ->
  exists s, plans_inv (mkInputs inv parts params) s /\ control s = Done /\ r = finalize s.
Proof.
  intros H. destruct (optimize_final _ _ _ _ H) as [s [Hr [Hd ->]]].
  exists s. split; [now apply plans_inv_reachable|auto].
Qed.

Lemma final_sticks_ok inv parts params r sp :
  optimize_cutting_plan inv parts params = Some r ->
  In sp (OptimizationResult.stick_plans r) -> stick_ok (mkInputs inv parts params) sp.
Proof.
  intros H Hin. destruct (final_plans_inv _ _ _ _ H) as [s [[Hok _] [_ ->]]].
  rewrite Forall_forall in Hok. now apply Hok.
Qed.

(** Evaluate a run on concrete inputs and name its result. *)
Ltac run_engine :=
  match goal with
  | |- exists r, optimize_cutting_plan ?i ?p ?c = Some r /\ _ =>
      let v := eval vm_compute in (optimize_cutting_plan i p c) in
      match v with
      | Some ?r => exists r; split; [vm_compute; reflexivity|]
      end
  end.

(** Apply a theorem about [optimize_cutting_plan inv parts params = Some r]
    to a concrete run. *)
Ltac witness_run thm :=
  match goal with
  | |- exists r, optimize_cutting_plan ?i ?p ?c = Some r /\ _ =>
      let v := eval vm_compute in (optimize_cutting_plan i p c) in
      match v with
      | Some ?r =>
          exists r;
          assert (E : optimize_cutting_plan i p c = Some r) by (vm_compute; reflexivity);
          split; [exact E | exact (thm i p c r E)]
      end
  end.

Lemma required_left_conservation_witness :
  Forall (fun p => (0 <= PartRequirement.quantity_total p)%Z) [ex_plank_1200]
  /\ (forall s, reachable (mkInputs [ex_stock_2400] [ex_plank_1200] (cutting_params 3 0)) s ->
        forall k v, In (k, v) (required_left s) -> (0 <= v)%Z).
Proof.
  assert (Hq : Forall (fun p => (0 <= PartRequirement.quantity_total p)%Z) [ex_plank_1200])
    by (repeat constructor; vm_compute; discriminate).
  split; [exact Hq|].
  exact (proj1 (required_left_conservation [ex_stock_2400] [ex_plank_1200]
                  (cutting_params 3 0) Hq)).
Defined.

(** C2 (as the code has it): on every stick of the result the cursor starts
    at 0 and each placement advances it by exactly [length + kerf]; a piece
    is placed only while the cursor is below the stick length and when its
    length is at most the remaining length plus the kerf.  Hence the sum of
    [(piece.length + kerf)] over the stick never exceeds the stick length by
    more than twice the kerf. *)
Theorem stick_kerf_accounting inv parts params r
  (H : optimize_cutting_plan inv parts params = Some r) :
  forall sp, In sp (OptimizationResult.stick_plans r) ->
    let kerf := CuttingParameters.kerf_mm params in
    exists y, cuts_advance kerf (stick_length sp) 0 (stick_cuts sp) y
      /\ (y == kerf_run kerf (stick_cuts sp))%Q
      /\ (stick_cuts sp <> [] -> (kerf_run kerf (stick_cuts sp) <= stick_length sp + 2 * kerf)%Q).
Proof.
  intros sp Hin kerf. subst kerf.
  destruct (final_sticks_ok _ _ _ _ _ H Hin) as [[y Hadv] _]. simpl in Hadv.
  exists y. split; [exact Hadv|].
  pose proof (cuts_advance_kerf_run _ _ _ _ _ Hadv) as Hy.
  split; [rewrite Hy; ring|].
  intros Hne. rewrite <- (Qplus_0_l (kerf_run _ _)), <- Hy.
  exact (cuts_advance_bound _ _ _ _ _ Hne Hadv).
Qed.

Lemma stick_kerf_accounting_witness :
  exists r, optimize_cutting_plan [ex_stock_2400] [ex_plank_1200] (cutting_params 3 0) = Some r
    /\ forall sp, In sp (OptimizationResult.stick_plans r) ->
         let kerf := CuttingParameters.kerf_mm (cutting_params 3 0) in
         exists y, cuts_advance kerf (stick_length sp) 0 (stick_cuts sp) y
           /\ (y == kerf_run kerf (stick_cuts sp))%Q
           /\ (stick_cuts sp <> [] ->
               (kerf_run kerf (stick_cuts sp) <= stick_length sp + 2 * kerf)%Q).
Proof. witness_run stick_kerf_accounting. Defined.

(** C2, a slip in the fit test of line 123 ([remaining_length + kerf <
    cand.length_mm] skips a candidate, so a piece up to [kerf] longer than the
    remaining length is placed), against the comment of line 88 and the
    spec's own example: with stock 2400 long, two pieces of 1200 and kerf 3,
    the second piece is cut from the 1197 mm left after the first; it ends at
    2403 and the sum of [(length + kerf)] is 2406, 6 mm over the stock
    length. *)
Lemma kerf_overrun_counterexample :
  exists r, optimize_cutting_plan [ex_stock_2400] [ex_plank_1200] (cutting_params 3 0) = Some r
    /\ exists sp, In sp (OptimizationResult.stick_plans r)
    /\ (kerf_run 3 (stick_cuts sp) == stick_length sp + 6)%Q
    /\ exists c, In c (stick_cuts sp)
    /\ (stick_length sp < fst (fst (CutPiece.position_mm c))
                          + Dimension3D.length_mm (CutPiece.dims_mm c))%Q.
Proof.
  run_engine. eexists; split; [left; reflexivity|].
  split; [vm_compute; reflexivity|].
  eexists; split; [simpl; right; left; reflexivity|]. vm_compute; reflexivity.
Qed.

(** ** Inventory units visited by a run *)

Lemma unit_ids_succ item n :
  unit_ids item (S n)
  = unit_ids item n ++ [(InventoryItem.name item, Z.of_nat n + 1, InventoryItem.dimensions_mm item)%Z].
Proof. unfold unit_ids. now rewrite seq_S, map_app. Qed.

Lemma units_inv_init inp : units_inv inp (init_locals inp).
Proof. exists []. split; reflexivity. Qed.

Lemma units_finish inp s item rest i stick pre :
  inventory inp = pre ++ item :: rest ->
  (0 <= i < InventoryItem.quantity item)%Z ->
  stick_id stick = (InventoryItem.name item, i + 1, InventoryItem.dimensions_mm item)%Z ->
  map stick_id (stick_plans s) = flat_map item_units pre ++ unit_ids item (Z.to_nat i) ->
  units_inv inp (finish_stick s item rest i stick).
Proof.
  intros Hpre Hi Hid Hids. unfold units_inv, finish_stick; simpl.
  exists pre. split; [exact Hpre|split; [lia|]].
  rewrite map_app, Hids, <- app_assoc. simpl. f_equal.
  replace (Z.to_nat (i + 1)) with (S (Z.to_nat i)) by lia.
  rewrite unit_ids_succ, Hid, Z2Nat.id by lia. reflexivity.
Qed.

Lemma units_inv_step inp s : units_inv inp s -> units_inv inp (step inp s).
Proof.
  unfold units_inv at 1. unfold step.
  destruct (control s) as [[|item rest]|item rest i|item rest i stick cur|] eqn:Ec.
  - intros [pre [Hpre Hids]]. exists pre, []. simpl. repeat split; auto.
  - intros [pre [Hpre Hids]]. exists pre. simpl. repeat split; auto; try lia.
    rewrite app_nil_r. exact Hids.
  - intros [pre [Hpre [Hi Hids]]].
    destruct (i <? InventoryItem.quantity item)%Z eqn:Eq.
    + apply Z.ltb_lt in Eq. exists pre. simpl. repeat split; auto; lia.
    + apply Z.ltb_ge in Eq.
      assert (Hn : Z.to_nat i = Z.to_nat (InventoryItem.quantity item)) by lia.
      assert (Hall : map stick_id (stick_plans s) = flat_map item_units (pre ++ [item])).
      { rewrite flat_map_app, Hids, Hn. simpl. now rewrite app_nil_r. }
      destruct (all_done _) eqn:Ed.
      * exists (pre ++ [item]), rest. simpl. repeat split; auto.
        rewrite Hpre, <- app_assoc. reflexivity.
      * exists (pre ++ [item]). simpl. split; auto. rewrite Hpre, <- app_assoc. reflexivity.
  - intros [pre [Hpre [Hi [Hid Hids]]]].
    destruct (Qltb cur _).
    + destruct (choose_part _ _ _ _ _) as [[[part q] picked]|].
      * destruct (all_done _).
        -- apply (units_finish _ _ _ _ _ _ pre); auto.
        -- exists pre. simpl. repeat split; auto; lia.
      * apply (units_finish _ _ _ _ _ _ pre); auto.
    + apply (units_finish _ _ _ _ _ _ pre); auto.
  - intros H. unfold units_inv. now rewrite Ec.
Qed.

Lemma units_inv_reachable inp s : reachable inp s -> units_inv inp s.
Proof. induction 1; [apply units_inv_init|now apply units_inv_step]. Qed.

Lemma all_cuts_while s item rest i stick cur :
  control s = While item rest i stick cur ->
  all_cuts s = flat_map stick_cuts (stick_plans s) ++ stick_cuts stick.
Proof.
  intros Ec. unfold all_cuts, current_stick. rewrite Ec, flat_map_app. simpl.
  now rewrite app_nil_r.
Qed.

(** ** Choice of the piece to place *)








(** ** Hosts and offcuts *)

(** C5 (as the code has it): every piece of a result lies on a stick plan
    that is one unit (1 .. quantity) of an inventory item; offcuts are
    recorded in the plans but never used as hosts. *)
Theorem pieces_cut_from_inventory_units inv parts params r
  (H : optimize_cutting_plan inv parts params = Some r) :
  forall sp, In sp (OptimizationResult.stick_plans r) -> from_inventory inv sp.
Proof.
  intros sp Hin. exact (proj2 (proj2 (final_sticks_ok _ _ _ _ _ H Hin))).
Qed.

Lemma pieces_cut_from_inventory_units_witness :
  exists r, optimize_cutting_plan [ex_board] [ex_runner_600] (cutting_params 3 0) = Some r
    /\ forall sp, In sp (OptimizationResult.stick_plans r) -> from_inventory [ex_board] sp.
Proof. witness_run pieces_cut_from_inventory_units. Defined.

(** C5 fails as stated: the first board leaves a 600x117x50 side strip that
    passes the fit predicate for the 600x80x50 part, yet the second piece of
    that part is cut from a fresh (second) board. *)
Lemma offcut_not_reused_counterexample :
  exists r, optimize_cutting_plan [ex_board] [ex_runner_600] (cutting_params 3 0) = Some r
    /\ exists sp1 sp2 seg o c,
      OptimizationResult.stick_plans r = [sp1; sp2]
      /\ In seg (StickPlan.segments sp1) /\ In o (LengthSegmentPlan.offcuts seg)
      /\ _fits (PartRequirement.required_dimensions_mm ex_runner_600) (Offcut.dims_mm o)
               Tolerance.default = true
      /\ In c (stick_cuts sp2) /\ CutPiece.part_key c = PartRequirement.key ex_runner_600
      /\ StickPlan.stick_index sp2 = 2%Z.
Proof.
  run_engine. do 5 eexists. split; [reflexivity|].
  split; [left; reflexivity|]. split; [left; reflexivity|].
  split; [vm_compute; reflexivity|]. split; [left; reflexivity|]. split; reflexivity.
Qed.









(** ** Processing order of the parts *)

(** C7 fails as stated: parts "a" (100x50x20) and "b" (1000x100x50) of equal
    priority are processed in name order, "a" first, although "b" has the
    larger volume and the spec's order puts it first. *)
Lemma demand_order_counterexample :
  sorted_parts [ex_part_a; ex_part_b] = [ex_part_a; ex_part_b]
  /\ spec_demand_lt ex_part_b ex_part_a = true.
Proof. split; vm_compute; reflexivity. Qed.

(** ** Aggregate figures *)

Lemma Qltb_compat x y : (x == y)%Q -> Qltb 0 x = Qltb 0 y.
Proof.
  intros Hxy. destruct (Qltb 0 x) eqn:Ex, (Qltb 0 y) eqn:Ey; auto.
  - apply Qltb_true in Ex. apply Qltb_false in Ey. lra.
  - apply Qltb_false in Ex. apply Qltb_true in Ey. lra.
Qed.

(** C8 (as the code has it): with [T] the summed volume of all stick plans
    of the result and [C] the summed volume of their pieces, a positive [T]
    gives utilization [C / T * 100] and waste [100 - utilization]; otherwise
    both figures are 0. *)
Theorem utilization_waste_formula inv parts params r
  (H : optimize_cutting_plan inv parts params = Some r) :
  let T := plans_stock_volume (OptimizationResult.stick_plans r) in
  let C := plans_cut_volume (OptimizationResult.stick_plans r) in
  ((0 < T)%Q ->
     (OptimizationResult.utilization_percent r == C / T * 100)%Q
     /\ (OptimizationResult.waste_percent r == 100 - OptimizationResult.utilization_percent r)%Q)
  /\ ((T <= 0)%Q ->
     (OptimizationResult.utilization_percent r == 0)%Q
     /\ (OptimizationResult.waste_percent r == 0)%Q).
Proof.
  destruct (final_plans_inv _ _ _ _ H) as [s [[_ [_ [Htsv Htcv]]] [Hd ->]]].
  unfold current_stick in Htcv. rewrite Hd, app_nil_r in Htcv.
  intros T C. unfold T, C, finalize; simpl. clear T C.
  set (T := plans_stock_volume (stick_plans s)) in *.
  set (C := plans_cut_volume (stick_plans s)) in *.
  rewrite (Qltb_compat _ _ Htsv).
  split; intros HT.
  - assert (E : Qltb 0 T = true).
    { destruct (Qltb 0 T) eqn:E; auto. apply Qltb_false in E. lra. }
    rewrite E. rewrite Htsv, Htcv. split; reflexivity.
  - assert (E : Qltb 0 T = false).
    { destruct (Qltb 0 T) eqn:E; auto. apply Qltb_true in E. lra. }
    rewrite E. split; reflexivity.
Qed.

Lemma utilization_waste_formula_witness :
  exists r, optimize_cutting_plan [ex_stock_2400] [ex_plank_1200] (cutting_params 3 0) = Some r
    /\ (let T := plans_stock_volume (OptimizationResult.stick_plans r) in
        let C := plans_cut_volume (OptimizationResult.stick_plans r) in
        ((0 < T)%Q ->
           (OptimizationResult.utilization_percent r == C / T * 100)%Q
           /\ (OptimizationResult.waste_percent r
               == 100 - OptimizationResult.utilization_percent r)%Q)
        /\ ((T <= 0)%Q ->
           (OptimizationResult.utilization_percent r == 0)%Q
           /\ (OptimizationResult.waste_percent r == 0)%Q)).
Proof. witness_run utilization_waste_formula. Defined.

(** C8 fails as stated: with no inventory nothing is consumed, the
    utilization is 0 and the waste is 0, not [100 - 0]. *)
Lemma empty_stock_waste_counterexample :
  exists r, optimize_cutting_plan [] [ex_plank_1200] (cutting_params 3 0) = Some r
    /\ (OptimizationResult.utilization_percent r == 0)%Q
    /\ ~ (OptimizationResult.waste_percent r == 100 - OptimizationResult.utilization_percent r)%Q.
Proof.
  run_engine. split; [vm_compute; reflexivity|].
  intros Heq. vm_compute in Heq. discriminate.
Qed.


(** ** Inputs that the data classes accept *)

Lemma cuts_advance_nonpos kerf L x cs y :
  (L <= x)%Q -> cuts_advance kerf L x cs y -> cs = [].
Proof.
  destruct cs as [|c cs]; simpl; auto. intros HL [_ [Hx _]]. lra.
Qed.

(** C9 (as the code has it): the data classes accept any values and the
    engine runs on them; a part with [quantity_total <= 0] is reported with
    [produced = 0]; every stick plan comes from an inventory item with a
    positive quantity (an item with quantity <= 0 gives no stick); a stick
    of length <= 0 receives no cut. *)
Theorem nonpositive_inputs_handling inv parts params r
  (H : optimize_cutting_plan inv parts params = Some r) :
  (forall key d, In (key, d) (OptimizationResult.summary_by_part r) ->
     exists part, In part parts /\ PartRequirement.key part = key
       /\ ((PartRequirement.quantity_total part <= 0)%Z ->
           d = [("produced"%string, inject_Z 0);
                ("requested"%string, inject_Z (PartRequirement.quantity_total part))]))
  /\ (forall sp, In sp (OptimizationResult.stick_plans r) ->
        exists item, In item inv /\ (0 < InventoryItem.quantity item)%Z
          /\ StickPlan.dims_mm sp = InventoryItem.dimensions_mm item)
  /\ (exists pre post, inv = pre ++ post
        /\ map stick_id (OptimizationResult.stick_plans r) = flat_map item_units pre)
  /\ (forall item, (InventoryItem.quantity item <= 0)%Z -> item_units item = [])
  /\ (forall sp, In sp (OptimizationResult.stick_plans r) ->
        (stick_length sp <= 0)%Q -> stick_cuts sp = []).
Proof.
  split; [|split; [|split; [|split]]].
  - intros key d Hin. destruct (optimize_final _ _ _ _ H) as [s [Hr [_ ->]]].
    simpl in Hin. apply in_map_iff in Hin as [[k part] [Heq Hin]].
    inversion Heq; subst k d.
    destruct (counters_inv_reachable _ _ Hr) as [_ [_ Hparts]].
    destruct (Hparts key part Hin) as [Hk [Hp [v [Hv [_ [Hneg _]]]]]].
    exists part. repeat split; auto. intros Hle.
    unfold dict_get_default. rewrite Hv, (Hneg Hle), Z.sub_diag. reflexivity.
  - intros sp Hin.
    destruct (final_sticks_ok _ _ _ _ _ H Hin) as [_ [_ [item [Hi [_ [Hd Hidx]]]]]].
    exists item. repeat split; auto. simpl in Hidx. lia.
  - destruct (optimize_final _ _ _ _ H) as [s [Hr [Hd ->]]].
    pose proof (units_inv_reachable _ _ Hr) as Hu. unfold units_inv in Hu. rewrite Hd in Hu.
    destruct Hu as [pre [post [Hpre [Hids _]]]]. exists pre, post. auto.
  - intros item Hq. unfold item_units. now replace (Z.to_nat _) with 0%nat by lia.
  - intros sp Hin HL.
    destruct (final_sticks_ok _ _ _ _ _ H Hin) as [[y Hadv] _].
    exact (cuts_advance_nonpos _ _ _ _ _ HL Hadv).
Qed.

Lemma nonpositive_inputs_handling_witness :
  exists r, optimize_cutting_plan [ex_empty_item; ex_zero_length_item]
              [ex_negative_part; ex_plank_1200] (cutting_params 3 0) = Some r
    /\ (forall key d, In (key, d) (OptimizationResult.summary_by_part r) ->
          exists part, In part [ex_negative_part; ex_plank_1200] /\ PartRequirement.key part = key
            /\ ((PartRequirement.quantity_total part <= 0)%Z ->
                d = [("produced"%string, inject_Z 0);
                     ("requested"%string, inject_Z (PartRequirement.quantity_total part))]))
    /\ (forall sp, In sp (OptimizationResult.stick_plans r) ->
          exists item, In item [ex_empty_item; ex_zero_length_item]
            /\ (0 < InventoryItem.quantity item)%Z
            /\ StickPlan.dims_mm sp = InventoryItem.dimensions_mm item)
    /\ (exists pre post, [ex_empty_item; ex_zero_length_item] = pre ++ post
          /\ map stick_id (OptimizationResult.stick_plans r) = flat_map item_units pre)
    /\ (forall item, (InventoryItem.quantity item <= 0)%Z -> item_units item = [])
    /\ (forall sp, In sp (OptimizationResult.stick_plans r) ->
          (stick_length sp <= 0)%Q -> stick_cuts sp = []).
Proof. witness_run nonpositive_inputs_handling. Defined.

(** C9 fails as stated: a stock item of length 0 and a part with quantity
    -1 are constructed without error and reach the engine, which returns a
    result reporting the part as requested -1 times. *)
Lemma invalid_input_accepted_counterexample :
  exists r, optimize_cutting_plan [ex_zero_length_item] [ex_negative_part] (cutting_params 3 0)
              = Some r
    /\ OptimizationResult.summary_by_part r
       = [("p"%string, [("produced"%string, inject_Z 0);
                        ("requested"%string, inject_Z (-1))])]
    /\ (Dimension3D.length_mm (InventoryItem.dimensions_mm ex_zero_length_item) <= 0)%Q
    /\ (PartRequirement.quantity_total ex_negative_part < 0)%Z.
Proof. run_engine. repeat split; vm_compute; try reflexivity; discriminate. Qed.

(** ** Arguments of a run *)

Lemma part_by_key_reachable inp s :
  reachable inp s -> part_by_key s = part_by_key (init_locals inp).
Proof.
  induction 1; auto. rewrite (proj1 (step_required_left inp s)). exact IHreachable.
Qed.

(** C10: the arguments are read-only inputs of every step; in every state
    of a run the parts table is the one built from [required_parts] at the
    start, its values are the caller's part objects, and the loop position
    refers to items of the caller's inventory list, which are not altered. *)
Theorem optimize_leaves_inputs inv parts params s
  (H : reachable (mkInputs inv parts params) s) :
  part_by_key s = part_by_key (init_locals (mkInputs inv parts params))
  /\ (forall k p, In (k, p) (part_by_key s) -> In p parts)
  /\ match control s with
     | ForItem items => exists pre, inv = pre ++ items
     | ForStick item rest _ | While item rest _ _ _ => exists pre, inv = pre ++ item :: rest
     | Done => True
     end.
Proof.
  split; [now apply part_by_key_reachable|split].
  - intros k p Hin. destruct (counters_inv_reachable _ _ H) as [_ [_ Hparts]].
    exact (proj1 (proj2 (Hparts k p Hin))).
  - destruct (plans_inv_reachable _ _ H) as [_ [Hc _]].
    unfold control_ok in Hc. simpl in Hc.
    destruct (control s); auto; tauto.
Qed.

Lemma optimize_leaves_inputs_witness :
  let inp := mkInputs [ex_stock_2400] [ex_plank_1200] (cutting_params 3 0) in
  let s := step inp (step inp (init_locals inp)) in
  part_by_key s = part_by_key (init_locals inp)
  /\ (forall k p, In (k, p) (part_by_key s) -> In p [ex_plank_1200])
  /\ match control s with
     | ForItem items => exists pre, [ex_stock_2400] = pre ++ items
     | ForStick item rest _ | While item rest _ _ _ =>
         exists pre, [ex_stock_2400] = pre ++ item :: rest
     | Done => True
     end.
Proof.
  intros inp s.
  apply (optimize_leaves_inputs [ex_stock_2400] [ex_plank_1200] (cutting_params 3 0) s).
  apply reach_step, reach_step, reach_init.
Defined.

(* ------------------------------------------------------------------ *)
(** ** Further properties of [optimize_cutting_plan] *)

Lemma sum_pos_dict_set k v q d :
  dict_get k d = Some q ->
  (sum_pos_Z (map snd (dict_set k v d)) + Z.to_nat q
   = sum_pos_Z (map snd d) + Z.to_nat v)%nat.
Proof.
  induction d as [|[k0 v0] d IH]; simpl; [discriminate|].
  destruct (String.eqb k k0) eqn:E; simpl.
  - intros H; inversion H; subst. lia.
  - intros H. specialize (IH H). lia.
Qed.

Lemma sum_pos_dict_set_le k v d :
  (sum_pos_Z (map snd (dict_set k v d)) <= sum_pos_Z (map snd d) + Z.to_nat v)%nat.
Proof.
  induction d as [|[k0 v0] d IH]; simpl; [lia|].
  destruct (String.eqb k k0); simpl; lia.
Qed.

Lemma demand_left_init inp :
  (demand_left (required_left (init_locals inp))
   <= sum_pos_Z (map PartRequirement.quantity_total (required_parts inp)))%nat.
Proof.
  unfold demand_left; simpl.
  assert (H : forall l d,
    (sum_pos_Z (map snd (fold_left (fun d p => dict_set (PartRequirement.key p)
                                                 (PartRequirement.quantity_total p) d) l d))
     <= sum_pos_Z (map snd d) + sum_pos_Z (map PartRequirement.quantity_total l))%nat).
  { induction l as [|p l IH]; intros d; simpl; [lia|].
    specialize (IH (dict_set (PartRequirement.key p) (PartRequirement.quantity_total p) d)).
    pose proof (sum_pos_dict_set_le (PartRequirement.key p) (PartRequirement.quantity_total p) d).
    lia. }
  specialize (H (required_parts inp) []). simpl in H. exact H.
Qed.

Lemma items_measure_mono D D' items :
  (D <= D')%nat -> (items_measure D items <= items_measure D' items)%nat.
Proof.
  intros HD. induction items as [|it rest IH]; simpl; [lia|].
  pose proof (Nat.mul_le_mono_l (D + 2) (D' + 2) (Z.to_nat (InventoryItem.quantity it))).
  lia.
Qed.

Lemma items_measure_eq D items :
  items_measure D items
  = (1 + 2 * List.length items
     + sum_pos_Z (map InventoryItem.quantity items) * (D + 2))%nat.
Proof. induction items as [|it rest IH]; simpl; [lia|]. rewrite IH. lia. Qed.

Lemma run_measure_step inp s :
  reachable inp s -> control s <> Done -> (run_measure (step inp s) < run_measure s)%nat.
Proof.
  intros Hr Hnd.
  destruct (plans_inv_reachable _ _ Hr) as [_ [Hctl _]].
  unfold control_ok in Hctl.
  unfold run_measure, step.
  destruct (control s) as [[|item rest]|item rest i|item rest i stick cur|] eqn:Ec;
    simpl; try congruence.
  - lia.
  - lia.
  - destruct Hctl as [_ Hi].
    destruct (i <? InventoryItem.quantity item)%Z eqn:Eq.
    + apply Z.ltb_lt in Eq. simpl.
      assert (Z.to_nat i < Z.to_nat (InventoryItem.quantity item))%nat by lia.
      set (D := demand_left (required_left s)).
      replace (Z.to_nat (InventoryItem.quantity item) - Z.to_nat i)%nat
        with (S (Z.to_nat (InventoryItem.quantity item) - Z.to_nat i - 1)) by lia.
      simpl. lia.
    + apply Z.ltb_ge in Eq.
      replace (Z.to_nat (InventoryItem.quantity item) - Z.to_nat i)%nat with 0%nat by lia.
      destruct (all_done _); simpl; lia.
  - destruct Hctl as [_ [Hi _]].
    assert (Hi1 : Z.to_nat (i + 1) = S (Z.to_nat i)) by lia.
    set (D := demand_left (required_left s)).
    destruct (Qltb cur _).
    + destruct (choose_part _ _ _ _ _) as [[[part q] picked]|] eqn:Ech.
      * apply choose_part_demand in Ech as [Hget Hpos].
        pose proof (sum_pos_dict_set _ (q - 1)%Z _ _ Hget) as Hsum.
        set (D' := demand_left (dict_set (PartRequirement.key part) (q - 1)%Z (required_left s))).
        assert (HD : D = S D') by (unfold D, D', demand_left; lia).
        pose proof (items_measure_mono _ _ rest (Nat.le_succ_diag_r D')) as Hm.
        rewrite <- HD in Hm.
        set (A := (Z.to_nat (InventoryItem.quantity item) - Z.to_nat i - 1)%nat).
        assert (HA : (A * (D' + 2) <= A * (D + 2))%nat) by (apply Nat.mul_le_mono_l; lia).
        destruct (all_done _); unfold finish_stick; simpl; fold D'.
        -- rewrite Hi1. fold A.
           replace (Z.to_nat (InventoryItem.quantity item) - S (Z.to_nat i))%nat with A by (unfold A; lia).
           lia.
        -- fold A. lia.
      * unfold finish_stick; simpl. fold D. rewrite Hi1.
        replace (Z.to_nat (InventoryItem.quantity item) - S (Z.to_nat i))%nat
          with (Z.to_nat (InventoryItem.quantity item) - Z.to_nat i - 1)%nat by lia.
        lia.
    + unfold finish_stick; simpl. fold D. rewrite Hi1.
      replace (Z.to_nat (InventoryItem.quantity item) - S (Z.to_nat i))%nat
        with (Z.to_nat (InventoryItem.quantity item) - Z.to_nat i - 1)%nat by lia.
      lia.
Qed.

Lemma run_terminates inp fuel s :
  reachable inp s -> (run_measure s < fuel)%nat -> exists s', run fuel inp s = Some s'.
Proof.
  revert s; induction fuel as [|fuel IH]; intros s Hr Hlt; [lia|].
  simpl. destruct (control s) eqn:Ec; try (eexists; reflexivity);
    apply IH; try (now apply reach_step);
    pose proof (run_measure_step inp s Hr) as H; rewrite Ec in H;
    specialize (H ltac:(discriminate)); lia.
Qed.

(** The loops of [optimize_cutting_plan] terminate: for every input the
    function returns a result. *)
Theorem optimize_cutting_plan_total inv parts params :
  exists r, optimize_cutting_plan inv parts params = Some r.
Proof.
  set (inp := mkInputs inv parts params).
  destruct (run_terminates inp (fuel_bound inp) (init_locals inp)) as [s Hs].
  - constructor.
  - unfold run_measure, fuel_bound; simpl. rewrite items_measure_eq.
    pose proof (demand_left_init inp) as HD. simpl in HD.
    set (D0 := demand_left _) in *.
    set (Dp := sum_pos_Z _) in HD |- *.
    set (N := sum_pos_Z (map InventoryItem.quantity inv)).
    assert (N * (D0 + 2) <= N * (Dp + 3))%nat by (apply Nat.mul_le_mono_l; lia).
    lia.
  - exists (finalize s). unfold optimize_cutting_plan. fold inp. now rewrite Hs.
Qed.

Lemma count_key_app k a b : count_key k (a ++ b) = (count_key k a + count_key k b)%nat.
Proof. unfold count_key. now rewrite filter_app, length_app. Qed.

Lemma dict_get_default_set k k' (v dflt : Z) d :
  dict_get_default k (dict_set k' v d) dflt
  = if String.eqb k k' then v else dict_get_default k d dflt.
Proof. unfold dict_get_default. rewrite dict_get_set. now destruct (String.eqb k k'). Qed.

Lemma sorted_parts_in p l : In p (sorted_parts l) -> In p l.
Proof.
  induction l as [|q l IH]; simpl; [tauto|].
  intros H. apply (Permutation_in _ (Permutation_sym (insert_part_perm q (sorted_parts l)))) in H.
  destruct H as [<-|H]; auto.
Qed.


Lemma cuts_inv_init inp : cuts_inv inp (init_locals inp).
Proof.
  unfold cuts_inv, all_cuts, current_stick; simpl. repeat split; auto.
Qed.

Lemma cuts_inv_step inp s :
  plans_inv inp s -> cuts_inv inp s -> cuts_inv inp (step inp s).
Proof.
  intros [_ [Hctl _]] [Htc [Hcnt Hok]].
  unfold control_ok in Hctl.
  unfold step. destruct (control s) as [[|item rest]|item rest i|item rest i stick cur|] eqn:Ec.
  - unfold cuts_inv, all_cuts, current_stick in *; rewrite Ec in *; simpl; auto.
  - unfold cuts_inv, all_cuts, current_stick in *; rewrite Ec in *; simpl; auto.
  - unfold cuts_inv, all_cuts, current_stick in *; rewrite Ec in *.
    destruct (i <? _)%Z; [|destruct (all_done _)]; simpl; auto.
    rewrite app_nil_r in Htc, Hcnt, Hok.
    rewrite flat_map_app. simpl (flat_map _ [_]).
    replace (stick_cuts (new_stick item i)) with (@nil CutPiece.t) by reflexivity.
    rewrite !app_nil_r.
    split; [exact Htc|split; [exact Hcnt|]].
    apply Forall_app; split; auto.
  - destruct Hctl as [_ [_ [_ [Hdims _]]]].
    pose proof (all_cuts_while _ _ _ _ _ _ Ec) as Hall.
    unfold cuts_inv in *. rewrite Hall in Htc, Hcnt.
    unfold current_stick in Hok. rewrite Ec in Hok.
    apply Forall_app in Hok as [Hokp Hoks]. inversion Hoks as [|? ? Hst _]; subst.
    assert (Hfin : forall stick', stick_cuts stick' = stick_cuts stick ->
               StickPlan.dims_mm stick' = StickPlan.dims_mm stick ->
               cuts_inv inp (finish_stick s item rest i stick')).
    { intros stick' Hc Hd. unfold cuts_inv, finish_stick, all_cuts, current_stick; simpl.
      rewrite app_nil_r, flat_map_app. simpl. rewrite app_nil_r, Hc.
      split; [exact Htc|split; [exact Hcnt|]].
      apply Forall_app; split; [exact Hokp|]. constructor; [|constructor].
      rewrite Hc. revert Hst; apply Forall_impl. intros c' [p' Hp']. exists p'. rewrite Hd. exact Hp'. }
    destruct (Qltb cur _).
    + destruct (choose_part _ _ _ _ _) as [[[part q] picked]|] eqn:Ech.
      * pose proof (choose_part_demand _ _ _ _ _ _ _ _ Ech) as [Hget Hpos].
        apply choose_part_first in Ech as [pre' [post' [Hps [_ [_ [Hpick _]]]]]].
        apply pick_dims_fits in Hpick as [Hcand [_ Hfit]].
        assert (Hpart : In part (required_parts inp)).
        { apply sorted_parts_in. rewrite Hps. apply in_or_app; right; left; reflexivity. }
        set (seg := placed_segment (params inp) item part picked cur
                      (Dimension3D.length_mm (InventoryItem.dimensions_mm item))).
        set (stick' := add_segment stick seg).
        set (c := CutPiece.mk (PartRequirement.key part) picked (cur, 0, 0) (_choose_color part)).
        assert (Hc' : stick_cuts stick' = stick_cuts stick ++ [c])
          by (unfold stick'; now rewrite stick_cuts_add_segment).
        assert (Hinv : cuts_inv inp
                  (mkLocals (dict_set (PartRequirement.key part) (q - 1)%Z (required_left s))
                     (part_by_key s) (stick_plans s) (total_stock_volume s)
                     (total_cut_volume s + volume picked) (total_cuts s + 1)%Z
                     (While item rest i stick'
                        (cur + Dimension3D.length_mm picked
                         + CuttingParameters.kerf_mm (params inp))))).
        { unfold cuts_inv, all_cuts, current_stick;
            cbn [control stick_plans required_left total_cuts].
          rewrite flat_map_app; cbn [flat_map]. rewrite app_nil_r, Hc', app_assoc.
          split; [rewrite Htc, !length_app; simpl; lia|split].
          - intros k. rewrite <- (Hcnt k), !count_key_app, dict_get_default_set.
            assert (Hc1 : count_key k [c]
                          = if String.eqb (PartRequirement.key part) k then 1%nat else 0%nat)
              by (unfold count_key; simpl; now destruct (String.eqb _ _)).
            rewrite Hc1.
            destruct (String.eqb (PartRequirement.key part) k) eqn:E1;
              destruct (String.eqb k (PartRequirement.key part)) eqn:E2; simpl;
              try (rewrite String.eqb_sym in E1; congruence).
            + apply String.eqb_eq in E2; subst k.
              unfold dict_get_default; rewrite Hget. lia.
            + lia.
          - apply Forall_app; split; [exact Hokp|]. constructor; [|constructor].
            rewrite Hc'. apply Forall_app; split; [exact Hst|]. constructor; [|constructor].
            exists part. simpl. repeat split; auto. rewrite Hdims. exact Hfit. }
        destruct (all_done _); [|exact Hinv].
        unfold cuts_inv, finish_stick, all_cuts, current_stick in Hinv |- *; simpl in Hinv |- *.
        rewrite app_nil_r. exact Hinv.
      * apply Hfin; [now rewrite stick_cuts_add_segment, app_nil_r|reflexivity].
    + apply Hfin; reflexivity.
  - unfold cuts_inv, all_cuts, current_stick in *; rewrite Ec in *; simpl; auto.
Qed.

Lemma cuts_inv_reachable inp s : reachable inp s -> cuts_inv inp s.
Proof.
  induction 1 as [|s Hr IH]; [apply cuts_inv_init|].
  apply cuts_inv_step; [now apply plans_inv_reachable|exact IH].
Qed.

Lemma final_cuts_inv inv parts params r :
  optimize_cutting_plan inv parts params = Some r ->
  exists s, reachable (mkInputs inv parts params) s /\ r = finalize s
    /\ cuts_inv (mkInputs inv parts params) s
    /\ all_cuts s = flat_map stick_cuts (OptimizationResult.stick_plans r).
Proof.
  intros H. destruct (optimize_final _ _ _ _ H) as [s [Hr [Hd ->]]].
  exists s. split; [exact Hr|split; [reflexivity|split; [now apply cuts_inv_reachable|]]].
  unfold all_cuts, current_stick. rewrite Hd, app_nil_r. reflexivity.
Qed.

(** [summary_by_part] has exactly one entry per requested part key (no key
    twice, every key present) and reports, for every requested part key, as
    ["produced"] the number of cut pieces carrying that key over all sticks
    of the result, and as ["requested"] the [quantity_total] of a requested
    part with that key. *)
Theorem summary_counts_pieces inv parts params r
  (H : optimize_cutting_plan inv parts params = Some r) :
  NoDup (map fst (OptimizationResult.summary_by_part r))
  /\ (forall part, In part parts ->
        In (PartRequirement.key part) (map fst (OptimizationResult.summary_by_part r)))
  /\ forall key d, In (key, d) (OptimizationResult.summary_by_part r) ->
    exists part, In part parts /\ PartRequirement.key part = key
      /\ d = [("produced"%string,
               inject_Z (Z.of_nat (count_key key
                           (flat_map stick_cuts (OptimizationResult.stick_plans r)))));
              ("requested"%string, inject_Z (PartRequirement.quantity_total part))].
Proof.
  destruct (final_cuts_inv _ _ _ _ H) as [s [Hr [-> [[_ [Hcnt _]] Hall]]]].
  assert (Hkeys : map fst (OptimizationResult.summary_by_part (finalize s))
                  = map fst (part_by_key (init_locals (mkInputs inv parts params)))).
  { rewrite <- (part_by_key_reachable _ _ Hr). simpl. rewrite map_map.
    apply map_ext. intros [k p]. reflexivity. }
  split; [rewrite Hkeys; apply init_part_by_key_nodup|split].
  { intros part Hp. rewrite Hkeys. now apply init_part_by_key_keys. }
  intros key d Hin. simpl in Hin. rewrite <- Hall.
  apply in_map_iff in Hin as [[k part] [Heq Hin]]. inversion Heq; subst k d.
  destruct (counters_inv_reachable _ _ Hr) as [_ [_ Hparts]].
  destruct (Hparts key part Hin) as [Hk [Hp _]].
  exists part. repeat split; auto.
  specialize (Hcnt key).
  rewrite init_required_left in Hcnt.
  rewrite (part_by_key_reachable _ _ Hr) in Hin.
  unfold dict_get_default at 2 in Hcnt. rewrite dict_get_map_snd in Hcnt.
  rewrite (in_dict_get _ _ _ (init_part_by_key_nodup _) Hin) in Hcnt. simpl in Hcnt.
  do 3 f_equal. lia.
Qed.

(** [total_cuts] of the result is the number of cut pieces over all sticks. *)
Theorem total_cuts_counts_pieces inv parts params r
  (H : optimize_cutting_plan inv parts params = Some r) :
  OptimizationResult.total_cuts r
  = Z.of_nat (List.length (flat_map stick_cuts (OptimizationResult.stick_plans r))).
Proof.
  destruct (final_cuts_inv _ _ _ _ H) as [s [Hr [-> [[Htc _] Hall]]]].
  simpl in Hall |- *. now rewrite <- Hall.
Qed.

(** Every cut piece of the result comes from a requested part: it carries
    the part's key and colour, its dimensions are one of the part's
    candidate orientations, and they fit the stick within the tolerance. *)
Theorem pieces_from_requested_parts inv parts params r
  (H : optimize_cutting_plan inv parts params = Some r) :
  forall sp c, In sp (OptimizationResult.stick_plans r) -> In c (stick_cuts sp) ->
    cut_from_part parts (CuttingParameters.tolerance params) sp c.
Proof.
  destruct (final_cuts_inv _ _ _ _ H) as [s [Hr [-> [[_ [_ Hok]] _]]]].
  intros sp c Hsp Hc. unfold current_stick in Hok.
  rewrite Forall_forall in Hok.
  assert (Hin : In sp (stick_plans s ++ current_stick s)) by (apply in_or_app; now left).
  specialize (Hok sp Hin). rewrite Forall_forall in Hok. exact (Hok c Hc).
Qed.


(** Every counter left in a state whose [all_done] holds is non-positive. *)
Lemma all_done_le rl k v : all_done rl = true -> In (k, v) rl -> (v <= 0)%Z.
Proof.
  unfold all_done. rewrite forallb_forall. intros H Hin.
  specialize (H _ Hin). simpl in H. lia.
Qed.

(** The sticks of the result are all units [1 .. quantity] of a prefix of
    the inventory, in inventory order (an item with a non-positive quantity
    gives none); the inventory is cut short only when every part's
    produced count has reached its requested count. *)
Theorem sticks_are_whole_items inv parts params r
  (H : optimize_cutting_plan inv parts params = Some r) :
  exists pre post, inv = pre ++ post
    /\ map stick_id (OptimizationResult.stick_plans r) = flat_map item_units pre
    /\ (post <> [] ->
        forall key d, In (key, d) (OptimizationResult.summary_by_part r) ->
          exists produced requested,
            d = [("produced"%string, inject_Z produced); ("requested"%string, inject_Z requested)]
            /\ (requested <= produced)%Z).
Proof.
  destruct (optimize_final _ _ _ _ H) as [s [Hr [Hd ->]]].
  pose proof (units_inv_reachable _ _ Hr) as Hu. unfold units_inv in Hu. rewrite Hd in Hu.
  destruct Hu as [pre [post [Hpre [Hids Hdone]]]].
  exists pre, post. split; [exact Hpre|split; [exact Hids|]].
  intros Hpost key d Hin. specialize (Hdone Hpost).
  simpl in Hin. apply in_map_iff in Hin as [[k part] [Heq Hin]]. inversion Heq; subst k d.
  destruct (counters_inv_reachable _ _ Hr) as [_ [_ Hparts]].
  destruct (Hparts key part Hin) as [_ [_ [v [Hv _]]]].
  pose proof (all_done_le _ _ _ Hdone (dict_get_in _ _ _ Hv)).
  eexists; eexists; split; [reflexivity|].
  unfold dict_get_default. rewrite Hv. lia.
Qed.


Section NoDemand.
Variable inp : RunInputs.
Hypothesis Hq : Forall (fun p => (PartRequirement.quantity_total p <= 0)%Z) (required_parts inp).

Lemma no_demand_counters s :
  reachable inp s -> forall k v, In (k, v) (required_left s) -> (v <= 0)%Z.
Proof.
  intros Hr k v Hin.
  destruct (counters_inv_reachable _ _ Hr) as [Hkeys [Hnd Hparts]].
  assert (Hk : In k (map fst (part_by_key s))).
  { rewrite <- Hkeys. apply in_map_iff. now exists (k, v). }
  apply in_map_iff in Hk as [[k' part] [Hk' Hin']]; simpl in Hk'; subst k'.
  destruct (Hparts k part Hin') as [_ [Hp [v' [Hv' [_ [Hneg _]]]]]].
  rewrite <- Hkeys in Hnd. rewrite (in_dict_get _ _ _ Hnd Hin) in Hv'.
  inversion Hv'; subst v'. rewrite Forall_forall in Hq.
  rewrite (Hneg (Hq part Hp)). exact (Hq part Hp).
Qed.

Lemma no_demand_all_done s : reachable inp s -> all_done (required_left s) = true.
Proof.
  intros Hr. unfold all_done. apply forallb_forall. intros [k v] Hin.
  apply Z.leb_le. exact (no_demand_counters s Hr k v Hin).
Qed.

Lemma no_demand_choose s params item rem ps :
  reachable inp s -> choose_part params item rem (required_left s) ps = None.
Proof.
  intros Hr. destruct (choose_part _ _ _ _ _) as [[[part q] picked]|] eqn:E; [|reflexivity].
  apply choose_part_demand in E as [Hget Hpos].
  pose proof (no_demand_counters s Hr _ _ (dict_get_in _ _ _ Hget)). lia.
Qed.


Lemma no_demand_inv_reachable s : reachable inp s -> no_demand_inv inp s.
Proof.
  induction 1 as [|s Hr IH].
  - repeat split; reflexivity.
  - destruct IH as [Hcuts [Htc Hctl]].
    pose proof (units_inv_reachable _ _ Hr) as Hu.
    unfold units_inv in Hu.
    unfold no_demand_inv, step.
    destruct (control s) as [[|item rest]|item rest i|item rest i stick cur|] eqn:Ec.
    + destruct Hctl as [Hinv Hpl]. unfold all_cuts, current_stick in *; simpl.
      rewrite Ec in Hcuts. repeat split; auto. now rewrite Hpl, <- Hinv.
    + destruct Hctl as [Hinv Hpl]. unfold all_cuts, current_stick in *; simpl.
      rewrite Ec in Hcuts. repeat split; auto.
    + unfold all_cuts, current_stick in *; rewrite Ec in Hcuts.
      destruct (i <? InventoryItem.quantity item)%Z eqn:Eq.
      * simpl. rewrite flat_map_app. simpl. rewrite app_nil_r in Hcuts. rewrite Hcuts.
        repeat split; auto.
      * rewrite (no_demand_all_done s Hr). simpl. repeat split; auto.
        destruct Hu as [pre [Hpre [Hi Hids]]].
        rewrite Hctl in Hpre.
        assert (pre = []) as ->.
        { destruct pre as [|x pre]; auto. apply (f_equal (@List.length _)) in Hpre.
          simpl in Hpre. rewrite length_app in Hpre. simpl in Hpre. lia. }
        rewrite Hids, Hctl. simpl. apply Z.ltb_ge in Eq.
        unfold item_units. f_equal. lia.
    + pose proof (all_cuts_while _ _ _ _ _ _ Ec) as Hall. rewrite Hall in Hcuts.
      apply app_eq_nil in Hcuts as [Hpl Hst].
      assert (Hfin : forall stick', stick_cuts stick' = [] ->
                no_demand_inv inp (finish_stick s item rest i stick')).
      { intros stick' Hs'. unfold no_demand_inv, all_cuts, current_stick, finish_stick; simpl.
        rewrite app_nil_r, flat_map_app, Hpl. simpl. rewrite Hs'. auto. }
      destruct (Qltb cur _).
      * rewrite (no_demand_choose s _ _ _ _ Hr).
        apply Hfin. now rewrite stick_cuts_add_segment, Hst.
      * now apply Hfin.
    + unfold all_cuts, current_stick in *. rewrite Ec in *. auto.
Qed.
End NoDemand.

Lemma plans_cut_volume_nil l : flat_map stick_cuts l = [] -> (plans_cut_volume l == 0)%Q.
Proof.
  induction l as [|sp l IH]; simpl; [reflexivity|].
  intros H. apply app_eq_nil in H as [H1 H2].
  unfold stick_cut_volume. rewrite H1. simpl. rewrite IH; auto. reflexivity.
Qed.

(** When no part has a positive [quantity_total], no piece is cut, the
    utilization is 0, and the result still lists every unit of the first
    inventory item as an (empty) stick. *)
Theorem no_demand_no_cuts inv parts params r
  (Hq : Forall (fun p => (PartRequirement.quantity_total p <= 0)%Z) parts)
  (H : optimize_cutting_plan inv parts params = Some r) :
  OptimizationResult.total_cuts r = 0%Z
  /\ flat_map stick_cuts (OptimizationResult.stick_plans r) = []
  /\ (OptimizationResult.utilization_percent r == 0)%Q
  /\ map stick_id (OptimizationResult.stick_plans r)
     = match inv with [] => [] | item :: _ => item_units item end.
Proof.
  destruct (optimize_final _ _ _ _ H) as [s [Hr [Hd ->]]].
  destruct (no_demand_inv_reachable (mkInputs inv parts params) Hq s Hr) as [Hcuts [Htc Hctl]].
  rewrite Hd in Hctl. unfold all_cuts, current_stick in Hcuts. rewrite Hd, app_nil_r in Hcuts.
  destruct (plans_inv_reachable _ _ Hr) as [_ [_ [_ Htcv]]].
  unfold current_stick in Htcv. rewrite Hd, app_nil_r in Htcv.
  rewrite (plans_cut_volume_nil _ Hcuts) in Htcv.
  simpl. split; [exact Htc|split; [exact Hcuts|split; [|exact Hctl]]].
  destruct (Qltb 0 _); [|reflexivity]. rewrite Htcv. reflexivity.
Qed.

Lemma summary_counts_pieces_witness :
  exists r, optimize_cutting_plan [ex_stock_2400] [ex_plank_1200] (cutting_params 3 0) = Some r
    /\ NoDup (map fst (OptimizationResult.summary_by_part r))
    /\ (forall part, In part [ex_plank_1200] ->
          In (PartRequirement.key part) (map fst (OptimizationResult.summary_by_part r)))
    /\ forall key d, In (key, d) (OptimizationResult.summary_by_part r) ->
      exists part, In part [ex_plank_1200] /\ PartRequirement.key part = key
        /\ d = [("produced"%string,
                 inject_Z (Z.of_nat (count_key key
                             (flat_map stick_cuts (OptimizationResult.stick_plans r)))));
                ("requested"%string, inject_Z (PartRequirement.quantity_total part))].
Proof. witness_run summary_counts_pieces. Defined.

Lemma total_cuts_counts_pieces_witness :
  exists r, optimize_cutting_plan [ex_board] [ex_runner_600] (cutting_params 3 0) = Some r
    /\ OptimizationResult.total_cuts r
       = Z.of_nat (List.length (flat_map stick_cuts (OptimizationResult.stick_plans r))).
Proof. witness_run total_cuts_counts_pieces. Defined.

Lemma pieces_from_requested_parts_witness :
  exists r, optimize_cutting_plan [ex_big; ex_small] [ex_block_500] (cutting_params 3 0) = Some r
    /\ forall sp c, In sp (OptimizationResult.stick_plans r) -> In c (stick_cuts sp) ->
      cut_from_part [ex_block_500] (CuttingParameters.tolerance (cutting_params 3 0)) sp c.
Proof. witness_run pieces_from_requested_parts. Defined.

Lemma sticks_are_whole_items_witness :
  exists r, optimize_cutting_plan [ex_stock_2400; ex_board] [ex_plank_1200] (cutting_params 3 0)
              = Some r
    /\ exists pre post, [ex_stock_2400; ex_board] = pre ++ post
      /\ map stick_id (OptimizationResult.stick_plans r) = flat_map item_units pre
      /\ (post <> [] ->
          forall key d, In (key, d) (OptimizationResult.summary_by_part r) ->
            exists produced requested,
              d = [("produced"%string, inject_Z produced); ("requested"%string, inject_Z requested)]
              /\ (requested <= produced)%Z).
Proof. witness_run sticks_are_whole_items. Defined.

Lemma no_demand_no_cuts_witness :
  Forall (fun p => (PartRequirement.quantity_total p <= 0)%Z) [ex_negative_part]
  /\ exists r, optimize_cutting_plan [ex_board] [ex_negative_part] (cutting_params 3 0) = Some r
    /\ OptimizationResult.total_cuts r = 0%Z
    /\ flat_map stick_cuts (OptimizationResult.stick_plans r) = []
    /\ (OptimizationResult.utilization_percent r == 0)%Q
    /\ map stick_id (OptimizationResult.stick_plans r) = item_units ex_board.
Proof.
  assert (Hq : Forall (fun p => (PartRequirement.quantity_total p <= 0)%Z) [ex_negative_part])
    by (repeat constructor; vm_compute; discriminate).
  split; [exact Hq|].
  match goal with
  | |- exists r, optimize_cutting_plan ?i ?p ?c = Some r /\ _ =>
      let v := eval vm_compute in (optimize_cutting_plan i p c) in
      match v with
      | Some ?r =>
          exists r;
          assert (E : optimize_cutting_plan i p c = Some r) by (vm_compute; reflexivity);
          split; [exact E | exact (no_demand_no_cuts i p c r Hq E)]
      end
  end.
Defined.

(* ------------------------------------------------------------------ *)
(** ** Properties of [optimizer.py] *)

Import data_models optimizer optimizer.CuttingOptimizer optimizer_spec optimizer_examples.

(** *** Sorting *)

Lemma insert_sorted_perm {A} (lt : A -> A -> bool) x l :
  Permutation (x :: l) (insert_sorted lt x l).
Proof.
  induction l as [|y l IH]; simpl; [reflexivity|].
  destruct (lt y x); [|reflexivity].
  etransitivity; [apply perm_swap|]. now apply perm_skip.
Qed.

Lemma stable_sort_perm {A} (lt : A -> A -> bool) l : Permutation l (stable_sort lt l).
Proof.
  induction l as [|x l IH]; simpl; [reflexivity|].
  etransitivity; [apply perm_skip, IH|]. apply insert_sorted_perm.
Qed.

Lemma sort_parts_perm params parts : Permutation parts (_sort_parts params parts).
Proof. unfold _sort_parts. destruct (CuttingParameters.optimization_priority params); apply stable_sort_perm. Qed.

Lemma sort_inventory_perm inventory : Permutation inventory (sort_inventory inventory).
Proof. apply stable_sort_perm. Qed.

(** *** Sums *)

Lemma sum_Z_perm l l' : Permutation l l' -> sum_Z l = sum_Z l'.
Proof. induction 1; unfold sum_Z in *; simpl in *; lia. Qed.

Lemma sum_Z_app l l' : sum_Z (l ++ l') = (sum_Z l + sum_Z l')%Z.
Proof. induction l; unfold sum_Z in *; simpl in *; lia. Qed.

Lemma sum_Q_app l l' : (sum_Q (l ++ l') == sum_Q l + sum_Q l')%Q.
Proof. induction l as [|a l IH]; unfold sum_Q in *; simpl in *; [ring|]. rewrite IH. ring. Qed.

Lemma expand_parts_length parts :
  Z.of_nat (List.length (expand_parts parts))
  = sum_Z (map (fun p => Z.max 0 (Part.total_quantity p)) parts).
Proof.
  induction parts as [|p ps IH]; [reflexivity|].
  unfold expand_parts in *; simpl. rewrite length_app, repeat_length, Nat2Z.inj_add, IH.
  unfold sum_Z; simpl. lia.
Qed.

Lemma expand_parts_filter k parts :
  Z.of_nat (List.length (filter (has_id k) (expand_parts parts)))
  = sum_Z (map (fun p => Z.max 0 (Part.total_quantity p)) (filter (has_id k) parts)).
Proof.
  induction parts as [|p ps IH]; [reflexivity|].
  unfold expand_parts in *; simpl. rewrite filter_app, length_app, Nat2Z.inj_add, IH.
  assert (Hr : forall n, filter (has_id k) (repeat p n)
                         = if has_id k p then repeat p n else []).
  { induction n as [|n IHn]; simpl; [now destruct (has_id k p)|].
    rewrite IHn. now destruct (has_id k p). }
  rewrite Hr. destruct (has_id k p); simpl; [rewrite repeat_length|]; unfold sum_Z; simpl; lia.
Qed.

Lemma expand_parts_in p parts : In p (expand_parts parts) -> In p parts.
Proof.
  unfold expand_parts. rewrite in_flat_map. intros [q [Hq Hin]].
  apply repeat_spec in Hin. now subst.
Qed.

(** *** The loops of [optimize] *)

Lemma try_existing_plans_some params part plans plans' :
  try_existing_plans params part plans = Some plans' ->
  exists pre plan post plan', plans = pre ++ plan :: post
    /\ _can_add_part_to_plan params plan part = true
    /\ _add_part_to_plan params plan part = Some plan'
    /\ plans' = pre ++ plan' :: post.
Proof.
  revert plans'; induction plans as [|plan rest IH]; simpl; intros plans' H; [discriminate|].
  assert (Hcont : option_map (cons plan) (try_existing_plans params part rest) = Some plans' ->
            exists pre plan0 post plan', plan :: rest = pre ++ plan0 :: post
              /\ _can_add_part_to_plan params plan0 part = true
              /\ _add_part_to_plan params plan0 part = Some plan'
              /\ plans' = pre ++ plan' :: post).
  { destruct (try_existing_plans params part rest) as [l|] eqn:Et; simpl; [|discriminate].
    intros E; inversion E; subst.
    destruct (IH l eq_refl) as [pre [pl [post [pl' [H1 [H2 [H3 H4]]]]]]].
    exists (plan :: pre), pl, post, pl'. subst. auto. }
  destruct (_can_add_part_to_plan params plan part) eqn:Ec; [|now apply Hcont].
  destruct (_add_part_to_plan params plan part) as [plan'|] eqn:Ea; [|now apply Hcont].
  inversion H; subst. exists [], plan, rest, plan'. auto.
Qed.

Lemma try_new_stock_some params part usage stocks plan usage' :
  try_new_stock params part usage stocks = Some (plan, usage') ->
  exists stock, In stock stocks
    /\ (dict_get_default (LumberStock.id stock) usage 0 < LumberStock.quantity stock)%Z
    /\ _add_part_to_plan params
         (CuttingPlan.mk stock (dict_get_default (LumberStock.id stock) usage 0%Z) [] []) part
       = Some plan
    /\ usage' = dict_set (LumberStock.id stock)
                  (dict_get_default (LumberStock.id stock) usage 0 + 1)%Z usage.
Proof.
  induction stocks as [|stock rest IH]; simpl; [discriminate|].
  destruct ((_ <? _)%Z && _) eqn:Eb.
  - apply andb_true_iff in Eb as [Eb _]. apply Z.ltb_lt in Eb.
    destruct (_add_part_to_plan _ _ _) eqn:Ea.
    + intros H; inversion H; subst. exists stock. auto.
    + intros H. destruct (IH H) as [s [H1 H2]]. exists s. auto.
  - intros H. destruct (IH H) as [s [H1 H2]]. exists s. auto.
Qed.

Lemma place_part_cases params inv st part :
  (exists pre plan post plan',
      cutting_plans st = pre ++ plan :: post
      /\ _can_add_part_to_plan params plan part = true
      /\ _add_part_to_plan params plan part = Some plan'
      /\ place_part params inv st part
         = mkOptState (pre ++ plan' :: post) (stock_usage st) (unassigned_parts st))
  \/ (exists stock plan',
      In stock inv
      /\ (dict_get_default (LumberStock.id stock) (stock_usage st) 0
          < LumberStock.quantity stock)%Z
      /\ _add_part_to_plan params
           (CuttingPlan.mk stock (dict_get_default (LumberStock.id stock) (stock_usage st) 0%Z)
              [] []) part = Some plan'
      /\ place_part params inv st part
         = mkOptState (cutting_plans st ++ [plan'])
             (dict_set (LumberStock.id stock)
                (dict_get_default (LumberStock.id stock) (stock_usage st) 0 + 1)%Z
                (stock_usage st))
             (unassigned_parts st))
  \/ place_part params inv st part
     = mkOptState (cutting_plans st) (stock_usage st) (unassigned_parts st ++ [(part, 1%Z)]).
Proof.
  unfold place_part.
  destruct (try_existing_plans params part (cutting_plans st)) as [plans|] eqn:Et.
  - left. destruct (try_existing_plans_some _ _ _ _ Et) as [pre [plan [post [plan' [H1 [H2 [H3 H4]]]]]]].
    exists pre, plan, post, plan'. subst. auto.
  - right. destruct (try_new_stock params part (stock_usage st) inv) as [[plan usage]|] eqn:En.
    + left. destruct (try_new_stock_some _ _ _ _ _ _ En) as [stock [H1 [H2 [H3 H4]]]].
      exists stock, plan. subst. auto.
    + right. reflexivity.
Qed.

(** *** [_add_part_to_plan] and [_calculate_offcuts] *)

Lemma calculate_offcuts_fields params plan :
  CuttingPlan.stock (_calculate_offcuts params plan) = CuttingPlan.stock plan
  /\ CuttingPlan.stock_index (_calculate_offcuts params plan) = CuttingPlan.stock_index plan
  /\ CuttingPlan.cuts (_calculate_offcuts params plan) = CuttingPlan.cuts plan.
Proof.
  unfold _calculate_offcuts. destruct (CuttingPlan.cuts plan) eqn:E; [simpl; auto|].
  destruct (Qle_bool _ _); simpl; auto.
Qed.

Lemma calculate_offcuts_idem params plan :
  _calculate_offcuts params (_calculate_offcuts params plan) = _calculate_offcuts params plan.
Proof.
  destruct (calculate_offcuts_fields params plan) as [H1 [H2 H3]].
  set (p := _calculate_offcuts params plan) in *.
  unfold _calculate_offcuts at 1. rewrite H1, H2, H3.
  unfold p, _calculate_offcuts. destruct (CuttingPlan.cuts plan); [reflexivity|].
  destruct (Qle_bool _ _); reflexivity.
Qed.

Lemma add_part_spec params plan part plan' :
  _add_part_to_plan params plan part = Some plan' ->
  exists rotated pl pw pt,
    In (rotated, pl, pw, pt) (_get_possible_orientations params part (CuttingPlan.stock plan))
    /\ plan' = _calculate_offcuts params
                 (CuttingPlan.mk (CuttingPlan.stock plan) (CuttingPlan.stock_index plan)
                    (CuttingPlan.cuts plan
                     ++ [CutPiece.make part (next_x (CuttingParameters.kerf params)
                                               (CuttingPlan.cuts plan)) 0 0 rotated pl pw pt])
                    (CuttingPlan.offcuts plan)).
Proof.
  unfold _add_part_to_plan, next_x.
  destruct (_get_possible_orientations _ _ _) as [|[[[rotated pl] pw] pt] os] eqn:E;
    [discriminate|].
  intros H. exists rotated, pl, pw, pt. split; [left; reflexivity|].
  destruct (rev (CuttingPlan.cuts plan)); inversion H; reflexivity.
Qed.

(** *** Layout of the cuts *)

Lemma layout_app kerf x0 cs c :
  layout_from kerf x0 cs ->
  CutPiece.x c = match rev cs with
                 | [] => x0
                 | last_cut :: _ => CutPiece.x last_cut + CutPiece.actual_length last_cut + kerf
                 end ->
  CutPiece.y c = 0 -> CutPiece.z c = 0 ->
  layout_from kerf x0 (cs ++ [c]).
Proof.
  revert x0; induction cs as [|c0 cs IH]; intros x0 Hl Hx Hy Hz; simpl.
  - simpl in Hx. auto.
  - destruct Hl as [H1 [H2 [H3 H4]]]. repeat split; auto. apply IH; auto.
    simpl in Hx. rewrite Hx. destruct (rev cs); reflexivity.
Qed.

Lemma layout_sum kerf x0 pre last_cut :
  layout_from kerf x0 (pre ++ [last_cut]) ->
  (x0 + (sum_Q (map CutPiece.actual_length (pre ++ [last_cut]))
         + inject_Z (Z.of_nat (List.length (pre ++ [last_cut])) - 1) * kerf)
   == CutPiece.x last_cut + CutPiece.actual_length last_cut)%Q.
Proof.
  revert x0; induction pre as [|c pre IH]; intros x0 Hl.
  - simpl in Hl |- *. destruct Hl as [-> _]. unfold sum_Q; simpl.
    change (inject_Z 0) with 0. ring.
  - simpl in Hl. destruct Hl as [Hx [_ [_ Hl]]].
    specialize (IH _ Hl).
    change (sum_Q (map CutPiece.actual_length ((c :: pre) ++ [last_cut])))
      with (CutPiece.actual_length c + sum_Q (map CutPiece.actual_length (pre ++ [last_cut]))).
    change (List.length ((c :: pre) ++ [last_cut])) with (S (List.length (pre ++ [last_cut]))).
    rewrite Nat2Z.inj_succ.
    set (N := Z.of_nat (List.length (pre ++ [last_cut]))) in *.
    replace (Z.succ N - 1)%Z with ((N - 1) + 1)%Z by lia.
    rewrite inject_Z_plus. rewrite <- IH, Hx. ring.
Qed.

(** *** Orientations *)

Lemma orientations_from_in params part stock i dims rotated pl pw pt :
  In (rotated, pl, pw, pt) (orientations_from params part stock i dims) ->
  exists j, nth_error dims j = Some (pl, pw, pt)
    /\ rotated = negb (i + j =? 0)%nat
    /\ _check_grain_direction params part (i + j) = true
    /\ (pl <= LumberStock.length stock + CuttingParameters.tolerance params)%Q
    /\ (pw <= LumberStock.width stock + CuttingParameters.tolerance params)%Q
    /\ (pt <= LumberStock.thickness stock + CuttingParameters.tolerance params)%Q.
Proof.
  revert i; induction dims as [|[[l w] t] dims IH]; simpl; intros i H; [contradiction|].
  destruct (_check_grain_direction params part i) eqn:Eg; simpl in H.
  - destruct (Qle_bool l _ && Qle_bool w _ && Qle_bool t _) eqn:Ef.
    + destruct H as [H|H].
      * inversion H; subst. exists 0%nat. rewrite Nat.add_0_r.
        apply andb_true_iff in Ef as [Ef Et]. apply andb_true_iff in Ef as [El Ew].
        apply Qle_bool_iff in El, Ew, Et. repeat split; auto.
      * destruct (IH (S i) H) as [j Hj]. exists (S j). rewrite Nat.add_succ_r. exact Hj.
    + destruct (IH (S i) H) as [j Hj]. exists (S j). rewrite Nat.add_succ_r. exact Hj.
  - destruct (IH (S i) H) as [j Hj]. exists (S j). rewrite Nat.add_succ_r. exact Hj.
Qed.

Lemma orientation_in params part stock rotated pl pw pt :
  In (rotated, pl, pw, pt) (_get_possible_orientations params part stock) ->
  exists j, nth_error (part_dims part) j = Some (pl, pw, pt)
    /\ rotated = negb (j =? 0)%nat
    /\ _check_grain_direction params part j = true
    /\ (pl <= LumberStock.length stock + CuttingParameters.tolerance params)%Q
    /\ (pw <= LumberStock.width stock + CuttingParameters.tolerance params)%Q
    /\ (pt <= LumberStock.thickness stock + CuttingParameters.tolerance params)%Q.
Proof. intros H. apply orientations_from_in in H. exact H. Qed.

(** The six orientations all have the part's volume. *)
Lemma part_dims_volume part j pl pw pt :
  nth_error (part_dims part) j = Some (pl, pw, pt) ->
  (pl * pw * pt == Part.volume part)%Q.
Proof.
  unfold part_dims, Part.volume.
  destruct j as [|[|[|[|[|[|j]]]]]]; simpl; intros H; inversion H; try ring.
  destruct j; discriminate.
Qed.

Lemma part_dims_in part j d : nth_error (part_dims part) j = Some d -> In d (part_dims part).
Proof. apply nth_error_In. Qed.

(** *** Plans carried along *)

Lemma plans_of_stock_hdr k l1 l2 :
  map plan_hdr l1 = map plan_hdr l2 ->
  List.length (plans_of_stock k l1) = List.length (plans_of_stock k l2)
  /\ map CuttingPlan.stock_index (plans_of_stock k l1)
     = map CuttingPlan.stock_index (plans_of_stock k l2).
Proof.
  revert l2; induction l1 as [|p1 l1 IH]; intros [|p2 l2] H; simpl in H; try discriminate; auto.
  unfold plan_hdr in H. injection H as Hs Hi Hl.
  destruct (IH l2 Hl) as [IH1 IH2].
  unfold plans_of_stock in *; simpl. rewrite Hs.
  destruct (String.eqb _ k); simpl; auto. rewrite IH2, Hi. auto.
Qed.

Lemma plans_of_stock_app k l1 l2 :
  plans_of_stock k (l1 ++ l2) = plans_of_stock k l1 ++ plans_of_stock k l2.
Proof. apply filter_app. Qed.

Lemma all_cuts_app l1 l2 : all_cuts (l1 ++ l2) = all_cuts l1 ++ all_cuts l2.
Proof. apply flat_map_app. Qed.

Lemma count_cuts_id_app k l1 l2 :
  count_cuts_id k (l1 ++ l2) = (count_cuts_id k l1 + count_cuts_id k l2)%nat.
Proof. unfold count_cuts_id. now rewrite all_cuts_app, filter_app, length_app. Qed.

Lemma unassigned_qty_app k l1 l2 :
  unassigned_qty k (l1 ++ l2) = (unassigned_qty k l1 + unassigned_qty k l2)%Z.
Proof. unfold unassigned_qty. now rewrite filter_app, map_app, sum_Z_app. Qed.

Lemma filter_perm {A} (f : A -> bool) l l' :
  Permutation l l' -> Permutation (filter f l) (filter f l').
Proof.
  induction 1; simpl; auto.
  - destruct (f x); auto.
  - destruct (f x), (f y); auto. apply perm_swap.
  - etransitivity; eauto.
Qed.

Lemma all_cuts_replace pre post plan plan' c :
  CuttingPlan.cuts plan' = CuttingPlan.cuts plan ++ [c] ->
  Permutation (all_cuts (pre ++ plan' :: post)) (all_cuts (pre ++ plan :: post) ++ [c]).
Proof.
  intros H. rewrite !all_cuts_app. unfold all_cuts at 2 4. simpl. rewrite H.
  fold (all_cuts post). repeat rewrite <- app_assoc.
  apply Permutation_app_head, Permutation_app_head, Permutation_app_comm.
Qed.

(** The bookkeeping of the pieces when one piece [c] of [part] is cut. *)
Lemma counts_after_cut done plans plans' unassigned c part :
  CutPiece.part c = part ->
  Permutation (all_cuts plans') (all_cuts plans ++ [c]) ->
  (List.length (all_cuts plans) + List.length unassigned = List.length done)%nat ->
  (forall k, Z.of_nat (count_cuts_id k plans) + unassigned_qty k unassigned
             = Z.of_nat (List.length (filter (has_id k) done)))%Z ->
  (forall c', In c' (all_cuts plans) -> In (CutPiece.part c') done) ->
  (List.length (all_cuts plans') + List.length unassigned = List.length (done ++ [part]))%nat
  /\ (forall k, Z.of_nat (count_cuts_id k plans') + unassigned_qty k unassigned
                = Z.of_nat (List.length (filter (has_id k) (done ++ [part]))))%Z
  /\ (forall c', In c' (all_cuts plans') -> In (CutPiece.part c') (done ++ [part])).
Proof.
  intros Hc Hp Hlen Hcnt Hdone. split; [|split].
  - rewrite (Permutation_length Hp), !length_app. simpl. lia.
  - intros k. unfold count_cuts_id.
    rewrite (Permutation_length (filter_perm _ _ _ Hp)), !filter_app, !length_app.
    specialize (Hcnt k). unfold count_cuts_id in Hcnt. simpl. rewrite Hc.
    destruct (has_id k part); simpl; lia.
  - intros c' Hin. apply (Permutation_in _ Hp), in_app_or in Hin as [Hin|[<-|[]]].
    + apply in_or_app. left. auto.
    + apply in_or_app. right. left. symmetry. exact Hc.
Qed.

Lemma plan_added_ok params inv plan plan' part :
  In (CuttingPlan.stock plan) inv ->
  layout_from (CuttingParameters.kerf params) 0 (CuttingPlan.cuts plan) ->
  Forall (cut_from_orientation params (CuttingPlan.stock plan)) (CuttingPlan.cuts plan) ->
  _add_part_to_plan params plan part = Some plan' ->
  exists c, CutPiece.part c = part
    /\ CuttingPlan.cuts plan' = CuttingPlan.cuts plan ++ [c]
    /\ plan_hdr plan' = plan_hdr plan
    /\ plan_ok params inv plan'.
Proof.
  intros Hin Hlay Hfo Hadd.
  destruct (add_part_spec _ _ _ _ Hadd) as [rotated [pl [pw [pt [Hor Hplan']]]]].
  set (c := CutPiece.make part (next_x (CuttingParameters.kerf params) (CuttingPlan.cuts plan))
              0 0 rotated pl pw pt) in Hplan'.
  destruct (calculate_offcuts_fields params
              (CuttingPlan.mk (CuttingPlan.stock plan) (CuttingPlan.stock_index plan)
                 (CuttingPlan.cuts plan ++ [c]) (CuttingPlan.offcuts plan)))
    as [Hs [Hi Hcs]].
  rewrite <- Hplan' in Hs, Hi, Hcs. simpl in Hs, Hi, Hcs.
  exists c. split; [reflexivity|split; [exact Hcs|split]].
  { unfold plan_hdr. now rewrite Hs, Hi. }
  unfold plan_ok. rewrite Hs, Hcs. split; [exact Hin|split; [|split; [|split]]].
  - intros E. apply app_eq_nil in E as [_ E]. discriminate.
  - apply layout_app; auto.
  - rewrite Hplan'. apply calculate_offcuts_idem.
  - apply Forall_app. split; [exact Hfo|]. constructor; [|constructor].
    exists rotated, pl, pw, pt. split; [exact Hor|reflexivity].
Qed.

Lemma opt_inv_init params inv :
  opt_inv params inv []
    (mkOptState [] (fold_left (fun d stock => dict_set (LumberStock.id stock) 0%Z d) inv []) []).
Proof.
  assert (Hz : forall l d, (forall k, dict_get_default k d 0%Z = 0%Z) ->
             forall k, dict_get_default k
               (fold_left (fun d stock => dict_set (LumberStock.id stock) 0%Z d) l d) 0%Z = 0%Z).
  { induction l as [|s l IH]; simpl; auto. intros d Hd. apply IH. intros k.
    rewrite dict_get_default_set. destruct (String.eqb _ _); auto. }
  unfold opt_inv; simpl.
  split; [constructor|split; [|split; [|split; [|split; [|split; [|split]]]]]].
  - intros k. apply Hz. reflexivity.
  - reflexivity.
  - intros k E. exfalso. apply E. reflexivity.
  - constructor.
  - reflexivity.
  - intros k. reflexivity.
  - intros c [].
Qed.

Lemma opt_inv_step params inv done st part :
  opt_inv params inv done st -> opt_inv params inv (done ++ [part]) (place_part params inv st part).
Proof.
  intros [Hok [Husage [Hidx [Hqty [Hun [Hlen [Hcnt Hdone]]]]]]].
  destruct (place_part_cases params inv st part)
    as [[pre [plan [post [plan' [Hpl [Hcan [Hadd ->]]]]]]]
       |[[stock [plan' [Hin [Hlt [Hadd ->]]]]]| ->]].
  - (* an existing plan takes the part *)
    rewrite Hpl in Hok, Husage, Hidx, Hqty, Hlen, Hcnt, Hdone.
    pose proof Hok as Hok'. apply Forall_app in Hok' as [_ Hok'].
    pose proof (Forall_inv Hok') as Hplan.
    destruct Hplan as [Hin [_ [Hlay [_ Hfo]]]].
    destruct (plan_added_ok _ _ _ _ _ Hin Hlay Hfo Hadd) as [c [Hc [Hcs [Hhdr Hok'']]]].
    assert (Hh : map plan_hdr (pre ++ plan' :: post) = map plan_hdr (pre ++ plan :: post))
      by (rewrite !map_app; simpl; now rewrite Hhdr).
    destruct (counts_after_cut _ _ _ (unassigned_parts st) c part Hc
                (all_cuts_replace pre post plan plan' c Hcs) Hlen Hcnt Hdone)
      as [Hlen' [Hcnt' Hdone']].
    unfold opt_inv; simpl. split; [|split; [|split; [|split; [|split; [|split]]]]]; auto.
    + apply Forall_app in Hok as [Hpre Hpost]. inversion Hpost; subst.
      apply Forall_app. split; auto.
    + intros k. rewrite Husage. f_equal. symmetry. apply (plans_of_stock_hdr k _ _ Hh).
    + intros k. destruct (plans_of_stock_hdr k _ _ Hh) as [E1 E2]. rewrite E1, E2. apply Hidx.
    + intros k Hne. destruct (plans_of_stock_hdr k _ _ Hh) as [E1 _]. rewrite E1.
      apply Hqty. intros E. apply Hne. apply length_zero_iff_nil. rewrite E1, E. reflexivity.
  - (* a new stock unit *)
    set (used := dict_get_default (LumberStock.id stock) (stock_usage st) 0%Z) in *.
    destruct (plan_added_ok params inv (CuttingPlan.mk stock used [] []) plan' part Hin I
                (Forall_nil _) Hadd) as [c [Hc [Hcs [Hhdr Hok'']]]].
    unfold plan_hdr in Hhdr. simpl in Hcs, Hhdr. injection Hhdr as Hst Hix.
    assert (Hp : Permutation (all_cuts (cutting_plans st ++ [plan']))
                             (all_cuts (cutting_plans st) ++ [c])).
    { rewrite all_cuts_app. unfold all_cuts at 2. simpl. rewrite Hcs, app_nil_r. reflexivity. }
    destruct (counts_after_cut _ _ _ (unassigned_parts st) c part Hc Hp Hlen Hcnt Hdone)
      as [Hlen' [Hcnt' Hdone']].
    assert (Hps : forall k, plans_of_stock k (cutting_plans st ++ [plan'])
                  = plans_of_stock k (cutting_plans st)
                    ++ (if String.eqb (LumberStock.id stock) k then [plan'] else [])).
    { intros k. rewrite plans_of_stock_app. unfold plans_of_stock at 2. simpl. now rewrite Hst. }
    unfold opt_inv; simpl. split; [|split; [|split; [|split; [|split; [|split]]]]]; auto.
    + apply Forall_app. split; auto.
    + intros k. rewrite dict_get_default_set, Hps.
      rewrite (String.eqb_sym k (LumberStock.id stock)).
      destruct (String.eqb_spec (LumberStock.id stock) k) as [<-|Hne].
      * rewrite length_app. simpl. unfold used. rewrite (Husage (LumberStock.id stock)). lia.
      * rewrite app_nil_r. apply Husage.
    + intros k. rewrite Hps. destruct (String.eqb_spec (LumberStock.id stock) k) as [<-|Hne].
      * rewrite map_app, length_app, Hidx. simpl. rewrite Nat.add_1_r, seq_S, map_app. simpl.
        rewrite Hix. unfold used. rewrite Husage. reflexivity.
      * rewrite app_nil_r. apply Hidx.
    + intros k. rewrite Hps. destruct (String.eqb_spec (LumberStock.id stock) k) as [<-|Hne].
      * intros _. exists stock. split; [exact Hin|split; [reflexivity|]].
        rewrite length_app. simpl. unfold used in Hlt. rewrite Husage in Hlt. lia.
      * rewrite app_nil_r. apply Hqty.
  - (* unassigned *)
    unfold opt_inv; simpl. split; [|split; [|split; [|split; [|split; [|split]]]]]; auto.
    + apply Forall_app. split; auto.
    + rewrite !length_app. simpl. lia.
    + split.
      * intros k. rewrite unassigned_qty_app, filter_app, length_app, Nat2Z.inj_add, <- Hcnt.
        unfold unassigned_qty at 2. simpl. destruct (has_id k part); simpl; unfold sum_Z; simpl; lia.
      * intros c Hc. apply in_or_app. left. auto.
Qed.

Lemma opt_inv_fold params inv parts : forall done st,
  opt_inv params inv done st ->
  opt_inv params inv (done ++ parts) (fold_left (place_part params inv) parts st).
Proof.
  induction parts as [|p ps IH]; simpl; intros done st H.
  - now rewrite app_nil_r.
  - replace (done ++ p :: ps) with ((done ++ [p]) ++ ps) by (rewrite <- app_assoc; reflexivity).
    apply IH. now apply opt_inv_step.
Qed.

Lemma optimize_unfold inventory parts params elapsed :
  exists st, opt_inv params (sort_inventory inventory) (expand_parts (_sort_parts params parts)) st
    /\ optimizer.optimize_cutting_plan inventory parts params elapsed
       = let result := _calculate_results (cutting_plans st)
                         (_consolidate_unassigned (unassigned_parts st))
                         (sort_inventory inventory) in
         OptimizationResult.mk (OptimizationResult.cutting_plans result)
           (OptimizationResult.unassigned_parts result)
           (OptimizationResult.total_sticks_used result)
           (OptimizationResult.total_cuts result) (OptimizationResult.overall_efficiency result)
           (OptimizationResult.total_waste result) (OptimizationResult.total_cost result)
           (OptimizationResult.total_volume_used_cft result) elapsed.
Proof.
  eexists. split; [|reflexivity].
  apply (opt_inv_fold params _ _ [] _ (opt_inv_init params _)).
Qed.

(** *** Consolidating the unassigned list *)

Lemma wqty_app f l1 l2 : wqty f (l1 ++ l2) = (wqty f l1 + wqty f l2)%Z.
Proof. unfold wqty. now rewrite filter_app, map_app, sum_Z_app. Qed.

Lemma wqty_dict_set f k v d :
  wqty f (map snd (dict_set k v d))
  = (wqty f (map snd d)
     - match dict_get k d with
       | Some v0 => if f (fst v0) then snd v0 else 0
       | None => 0
       end
     + (if f (fst v) then snd v else 0))%Z.
Proof.
  induction d as [|[k0 v0] d IH]; simpl.
  - unfold wqty; simpl. destruct (f (fst v)); simpl; unfold sum_Z; simpl; lia.
  - destruct (String.eqb k k0); unfold wqty in *; simpl.
    + destruct (f (fst v)), (f (fst v0)); simpl; lia.
    + destruct (f (fst v0)); simpl; rewrite IH; lia.
Qed.

Lemma consolidated_inv_step f processed d e :
  (forall p p', Part.id p = Part.id p' -> f p = f p') ->
  consolidated_inv f processed d ->
  consolidated_inv f (processed ++ [e]) (consolidate_step d e).
Proof.
  intros Hf [Hnd [Hkey [Hq [Hsrc [Hget Hpos]]]]]. destruct e as [part qty].
  assert (Hset : forall v, fst v = part ->
            (forall v0, dict_get (Part.id part) d = Some v0 -> 1 <= snd v0 -> 1 <= qty ->
                           1 <= snd v)%Z ->
            (dict_get (Part.id part) d = None -> snd v = qty) ->
            (forall v0, dict_get (Part.id part) d = Some v0 -> snd v = snd v0 + qty)%Z ->
            consolidated_inv f (processed ++ [(part, qty)]) (dict_set (Part.id part) v d)).
  { intros v Hv Hvpos Hnone Hsome. split; [|split; [|split; [|split; [|split]]]].
    - now apply dict_set_nodup.
    - intros k v' Hin. apply dict_set_in in Hin as [Hin|[-> ->]]; [eauto|now rewrite Hv].
    - rewrite wqty_dict_set, wqty_app, <- Hq. unfold wqty at 3. simpl. rewrite Hv.
      destruct (dict_get (Part.id part) d) as [v0|] eqn:E.
      + rewrite (Hsome v0 eq_refl).
        assert (Hid : Part.id (fst v0) = Part.id part) by (apply dict_get_in in E; eauto).
        rewrite (Hf _ _ Hid). destruct (f part); unfold sum_Z; simpl; lia.
      + rewrite (Hnone eq_refl). destruct (f part); unfold sum_Z; simpl; lia.
    - intros k v' Hin. apply dict_set_in in Hin as [Hin|[-> ->]].
      + destruct (Hsrc k v' Hin) as [q Hq']. exists q. apply in_or_app. auto.
      + exists qty. rewrite Hv. apply in_or_app. right. left. reflexivity.
    - intros e' Hin. rewrite dict_get_set.
      destruct (String.eqb _ _) eqn:E; [discriminate|].
      apply in_app_or in Hin as [Hin|[<-|[]]]; [now apply Hget|].
      simpl in E. now rewrite String.eqb_refl in E.
    - intros Hall. apply Forall_app in Hall as [Hall Hlast]. apply Forall_inv in Hlast as Hl.
      simpl in Hl. specialize (Hpos Hall). apply Forall_forall. intros w Hw.
      apply in_map_iff in Hw as [[k w'] [<- Hw]]. simpl.
      apply dict_set_in in Hw as [Hw|[-> ->]].
      + rewrite Forall_forall in Hpos. apply Hpos. apply in_map_iff. now exists (k, w').
      + destruct (dict_get (Part.id part) d) as [v0|] eqn:E.
        * apply (Hvpos v0 eq_refl); auto. rewrite Forall_forall in Hpos. apply Hpos.
          apply in_map_iff. exists (Part.id part, v0). split; [reflexivity|]. now apply dict_get_in.
        * rewrite (Hnone eq_refl). exact Hl. }
  unfold consolidate_step.
  destruct (dict_get (Part.id part) d) as [[p0 q0]|] eqn:E.
  - apply Hset; simpl; auto.
    + intros v0 E' H1 H2. injection E' as <-. simpl in *. lia.
    + intros H. discriminate.
    + intros v0 E'. injection E' as <-. reflexivity.
  - apply Hset; simpl; auto.
    + intros v0 E'. discriminate.
Qed.

Lemma consolidated_inv_fold f l : forall processed d,
  (forall p p', Part.id p = Part.id p' -> f p = f p') ->
  consolidated_inv f processed d ->
  consolidated_inv f (processed ++ l) (fold_left consolidate_step l d).
Proof.
  induction l as [|e l IH]; simpl; intros processed d Hf H.
  - now rewrite app_nil_r.
  - replace (processed ++ e :: l) with ((processed ++ [e]) ++ l)
      by (rewrite <- app_assoc; reflexivity).
    apply IH; auto. now apply consolidated_inv_step.
Qed.

Lemma consolidated_inv_all f l :
  (forall p p', Part.id p = Part.id p' -> f p = f p') ->
  consolidated_inv f l (fold_left consolidate_step l []).
Proof.
  intros Hf. apply (consolidated_inv_fold f l [] [] Hf).
  split; [constructor|split; [intros ? ? []|split; [reflexivity|split; [intros ? ? []|split]]]].
  - intros e [].
  - intros _. constructor.
Qed.

Lemma consolidate_unassigned_wqty f l :
  (forall p p', Part.id p = Part.id p' -> f p = f p') ->
  wqty f (_consolidate_unassigned l) = wqty f l.
Proof. intros Hf. apply (consolidated_inv_all f l Hf). Qed.

Lemma consolidate_unassigned_pos l :
  Forall (fun e => 1 <= snd e)%Z l -> Forall (fun e => 1 <= snd e)%Z (_consolidate_unassigned l).
Proof.
  apply (consolidated_inv_all (fun _ => true) l). reflexivity.
Qed.

Lemma wqty_true l : wqty (fun _ => true) l = sum_Z (map snd l).
Proof. unfold wqty. induction l as [|e l IH]; simpl; [reflexivity|]. now rewrite <- IH. Qed.

Lemma consolidate_unassigned_keys l :
  NoDup (map (fun e => Part.id (fst e)) (_consolidate_unassigned l))
  /\ (forall e, In e (_consolidate_unassigned l) -> exists q, In (fst e, q) l)
  /\ (forall e, In e l -> exists e', In e' (_consolidate_unassigned l)
                                    /\ Part.id (fst e') = Part.id (fst e)).
Proof.
  destruct (consolidated_inv_all (fun _ => true) l (fun _ _ _ => eq_refl))
    as [Hnd [Hkey [_ [Hsrc [Hget _]]]]].
  unfold _consolidate_unassigned.
  set (d := fold_left consolidate_step l []) in *.
  split; [|split].
  - rewrite map_map. erewrite map_ext_in; [exact Hnd|].
    intros [k v] Hin. simpl. eauto.
  - intros e Hin. apply in_map_iff in Hin as [[k v] [<- Hin]]. eauto.
  - intros e Hin. specialize (Hget e Hin).
    destruct (dict_get (Part.id (fst e)) d) as [v|] eqn:E; [|contradiction].
    apply dict_get_in in E. exists v. split; [|eauto].
    apply in_map_iff. exists (Part.id (fst e), v). auto.
Qed.

(** *** The fields of the result *)

Lemma calculate_results_fields plans u inv :
  OptimizationResult.cutting_plans (_calculate_results plans u inv) = plans
  /\ OptimizationResult.unassigned_parts (_calculate_results plans u inv) = u
  /\ OptimizationResult.total_sticks_used (_calculate_results plans u inv)
     = Z.of_nat (List.length plans)
  /\ OptimizationResult.total_cuts (_calculate_results plans u inv)
     = sum_Z (map CuttingPlan.total_cuts plans).
Proof.
  unfold _calculate_results. destruct plans as [|p ps]; [repeat split|].
  destruct (cost_and_volume _ _). repeat split.
Qed.

Lemma sum_total_cuts plans :
  sum_Z (map CuttingPlan.total_cuts plans) = Z.of_nat (List.length (all_cuts plans)).
Proof.
  induction plans as [|p ps IH]; [reflexivity|].
  unfold all_cuts in *. simpl. rewrite length_app, Nat2Z.inj_add, <- IH. reflexivity.
Qed.

Lemma sum_ones (l : list (Part.t * Z)) : Forall (fun e => snd e = 1%Z) l -> sum_Z (map snd l) = Z.of_nat (List.length l).
Proof.
  induction 1 as [|e l He _ IH]; [reflexivity|]. simpl. unfold sum_Z in *. simpl.
  rewrite He, IH. lia.
Qed.

Lemma optimize_counts inventory parts params elapsed :
  let r := optimizer.optimize_cutting_plan inventory parts params elapsed in
  (forall k, Z.of_nat (count_cuts_id k (OptimizationResult.cutting_plans r))
             + unassigned_qty k (OptimizationResult.unassigned_parts r)
             = sum_Z (map (fun p => Z.max 0 (Part.total_quantity p)) (filter (has_id k) parts)))%Z
  /\ (OptimizationResult.total_cuts r + sum_Z (map snd (OptimizationResult.unassigned_parts r))
      = sum_Z (map (fun p => Z.max 0 (Part.total_quantity p)) parts))%Z
  /\ Forall (fun e => 1 <= snd e)%Z (OptimizationResult.unassigned_parts r).
Proof.
  destruct (optimize_unfold inventory parts params elapsed) as [st [Hinv ->]].
  destruct Hinv as [_ [_ [_ [_ [Hun [Hlen [Hcnt _]]]]]]].
  destruct (calculate_results_fields (cutting_plans st)
              (_consolidate_unassigned (unassigned_parts st)) (sort_inventory inventory))
    as [E1 [E2 [_ E4]]].
  simpl. rewrite E1, E2, E4. split; [|split].
  - intros k. specialize (Hcnt k).
    unfold unassigned_qty. fold (wqty (has_id k) (_consolidate_unassigned (unassigned_parts st))).
    rewrite consolidate_unassigned_wqty.
    2:{ intros p p' Hp. unfold has_id. now rewrite Hp. }
    unfold wqty. fold (unassigned_qty k (unassigned_parts st)). rewrite Hcnt.
    rewrite expand_parts_filter. apply sum_Z_perm, Permutation_map, filter_perm.
    symmetry. apply sort_parts_perm.
  - rewrite sum_total_cuts, <- wqty_true, consolidate_unassigned_wqty by reflexivity.
    rewrite wqty_true, sum_ones by exact Hun.
    rewrite <- Nat2Z.inj_add, Hlen, expand_parts_length.
    apply sum_Z_perm, Permutation_map. symmetry. apply sort_parts_perm.
  - apply consolidate_unassigned_pos.
    eapply Forall_impl; [|exact Hun]. simpl. intros e ->. lia.
Qed.

Lemma sum_pos_nil (l : list (Part.t * Z)) :
  Forall (fun e => 1 <= snd e)%Z l -> (sum_Z (map snd l) = 0 <-> l = [])%Z.
Proof.
  intros H. split; [|intros ->; reflexivity].
  destruct l as [|e l]; [reflexivity|]. intros Hs. exfalso.
  inversion H as [|? ? He Hl]; subst.
  assert (0 <= sum_Z (map snd l))%Z.
  { clear - Hl. induction Hl as [|e' l' He' _ IH]; unfold sum_Z in *; simpl in *; lia. }
  simpl in Hs. unfold sum_Z in *. simpl in Hs. lia.
Qed.

(** Extra: [_consolidate_unassigned] returns one entry per part id, whose
    quantity is the sum of the quantities listed for that id, and whose part
    is one of the entries of that id. *)
Theorem consolidate_unassigned_merges (l : list (Part.t * Z)) :
  NoDup (map (fun e => Part.id (fst e)) (_consolidate_unassigned l))
  /\ (forall k, unassigned_qty k (_consolidate_unassigned l) = unassigned_qty k l)
  /\ (forall e, In e (_consolidate_unassigned l) -> exists q, In (fst e, q) l)
  /\ (forall e, In e l -> exists e', In e' (_consolidate_unassigned l)
                                    /\ Part.id (fst e') = Part.id (fst e)).
Proof.
  destruct (consolidate_unassigned_keys l) as [H1 [H2 H3]].
  split; [exact H1|split; [|auto]].
  intros k. apply consolidate_unassigned_wqty.
  intros p p' Hp. unfold has_id. now rewrite Hp.
Qed.

(** Extra: every requested piece is either cut or listed as unassigned:
    [total_cuts] plus the unassigned quantities is the number of pieces
    requested ([range(part.total_quantity)] counts a negative quantity as
    zero). *)
Theorem optimize_total_conservation inventory parts params elapsed :
  let r := optimizer.optimize_cutting_plan inventory parts params elapsed in
  (OptimizationResult.total_cuts r + sum_Z (map snd (OptimizationResult.unassigned_parts r))
   = sum_Z (map (fun p => Z.max 0 (Part.total_quantity p)) parts))%Z.
Proof. apply optimize_counts. Qed.

(** Extra: the same accounting holds per part id: the pieces cut for the
    parts with id [k] plus the unassigned quantity listed for [k] is the
    quantity requested for [k]. *)
Theorem optimize_id_conservation inventory parts params elapsed k :
  let r := optimizer.optimize_cutting_plan inventory parts params elapsed in
  (Z.of_nat (count_cuts_id k (OptimizationResult.cutting_plans r))
   + unassigned_qty k (OptimizationResult.unassigned_parts r)
   = sum_Z (map (fun p => Z.max 0 (Part.total_quantity p)) (filter (has_id k) parts)))%Z.
Proof. apply optimize_counts. Qed.

(** Extra: [success] holds exactly when every requested piece was cut,
    and each unassigned entry has a quantity of at least 1. *)
Theorem optimize_success_iff inventory parts params elapsed :
  let r := optimizer.optimize_cutting_plan inventory parts params elapsed in
  (OptimizationResult.success r = true
   <-> OptimizationResult.total_cuts r
       = sum_Z (map (fun p => Z.max 0 (Part.total_quantity p)) parts))
  /\ Forall (fun e => 1 <= snd e)%Z (OptimizationResult.unassigned_parts r).
Proof.
  simpl. destruct (optimize_counts inventory parts params elapsed) as [_ [Ht Hpos]].
  simpl in Ht, Hpos. split; [|exact Hpos].
  rewrite <- Ht. unfold OptimizationResult.success.
  pose proof (sum_pos_nil _ Hpos) as Hs.
  destruct (OptimizationResult.unassigned_parts _) as [|e l].
  - simpl. unfold sum_Z. simpl. split; [lia|reflexivity].
  - split; [discriminate|]. intros E. assert (E' : sum_Z (map snd (e :: l)) = 0%Z) by lia.
    apply Hs in E'. discriminate.
Qed.

(** *** The plans of the result *)

Lemma optimize_plans inventory parts params elapsed :
  let plans := OptimizationResult.cutting_plans
                 (optimizer.optimize_cutting_plan inventory parts params elapsed) in
  Forall (plan_ok params (sort_inventory inventory)) plans
  /\ (forall k, map CuttingPlan.stock_index (plans_of_stock k plans)
                = map Z.of_nat (seq 0 (List.length (plans_of_stock k plans))))
  /\ (forall k, plans_of_stock k plans <> [] ->
        exists s, In s inventory /\ LumberStock.id s = k
          /\ (Z.of_nat (List.length (plans_of_stock k plans)) <= LumberStock.quantity s)%Z)
  /\ Forall (fun plan => Forall (fun c => In (CutPiece.part c) parts) (CuttingPlan.cuts plan))
       plans.
Proof.
  destruct (optimize_unfold inventory parts params elapsed) as [st [Hinv ->]].
  destruct Hinv as [Hok [_ [Hidx [Hqty [_ [_ [_ Hdone]]]]]]].
  destruct (calculate_results_fields (cutting_plans st)
              (_consolidate_unassigned (unassigned_parts st)) (sort_inventory inventory))
    as [E1 _].
  simpl. rewrite E1. split; [exact Hok|split; [exact Hidx|split]].
  - intros k Hne. destruct (Hqty k Hne) as [s [Hs Hrest]]. exists s. split; [|exact Hrest].
    apply (Permutation_in _ (Permutation_sym (sort_inventory_perm inventory))). exact Hs.
  - apply Forall_forall. intros plan Hp. apply Forall_forall. intros c Hc.
    apply (Permutation_in _ (Permutation_sym (sort_parts_perm params parts))).
    apply expand_parts_in. apply Hdone. unfold all_cuts. apply in_flat_map. eauto.
Qed.

Lemma in_sort_inventory s inventory : In s (sort_inventory inventory) -> In s inventory.
Proof. apply Permutation_in. symmetry. apply sort_inventory_perm. Qed.

(** Extra: every plan cuts a unit of an inventory item; for each item id
    the plans' [stock_index] values are 0, 1, 2, ... in plan order, and
    their number is at most the [quantity] of an inventory item with that
    id. *)
Theorem optimize_stock_usage inventory parts params elapsed :
  let plans := OptimizationResult.cutting_plans
                 (optimizer.optimize_cutting_plan inventory parts params elapsed) in
  Forall (fun plan => In (CuttingPlan.stock plan) inventory) plans
  /\ (forall k, map CuttingPlan.stock_index (plans_of_stock k plans)
                = map Z.of_nat (seq 0 (List.length (plans_of_stock k plans))))
  /\ (forall k, plans_of_stock k plans <> [] ->
        exists s, In s inventory /\ LumberStock.id s = k
          /\ (Z.of_nat (List.length (plans_of_stock k plans)) <= LumberStock.quantity s)%Z).
Proof.
  destruct (optimize_plans inventory parts params elapsed) as [Hok [Hidx [Hqty _]]].
  split; [|split; assumption].
  eapply Forall_impl; [|exact Hok]. intros plan [Hin _]. now apply in_sort_inventory.
Qed.

(** Extra: in every plan the cuts are laid end to end along the stock
    length from [x = 0], [kerf] apart, at [y = z = 0]; the plan keeps one
    usable offcut, the stock length left after the last cut, when that is
    at least [min_offcut_to_keep], and none otherwise. *)
Theorem optimize_plan_layout inventory parts params elapsed :
  Forall (fun plan =>
    exists pre last_cut,
      CuttingPlan.cuts plan = pre ++ [last_cut]
      /\ layout_from (CuttingParameters.kerf params) 0 (CuttingPlan.cuts plan)
      /\ let rem := (LumberStock.length (CuttingPlan.stock plan)
                     - (CutPiece.x last_cut + CutPiece.actual_length last_cut))%Q in
         ((CuttingParameters.min_offcut_to_keep params <= rem)%Q ->
            exists o, CuttingPlan.offcuts plan = [o] /\ (Offcut.length o == rem)%Q
              /\ Offcut.width o = LumberStock.width (CuttingPlan.stock plan)
              /\ Offcut.thickness o = LumberStock.thickness (CuttingPlan.stock plan)
              /\ Offcut.original_stock o = LumberStock.id (CuttingPlan.stock plan)
              /\ Offcut.usable o = true)
         /\ ((rem < CuttingParameters.min_offcut_to_keep params)%Q ->
               CuttingPlan.offcuts plan = []))
    (OptimizationResult.cutting_plans
       (optimizer.optimize_cutting_plan inventory parts params elapsed)).
Proof.
  destruct (optimize_plans inventory parts params elapsed) as [Hok _].
  eapply Forall_impl; [|exact Hok]. clear Hok.
  intros plan [_ [Hne [Hlay [Hcalc _]]]].
  destruct (exists_last Hne) as [pre [last_cut Ec]].
  exists pre, last_cut. split; [exact Ec|split; [exact Hlay|]].
  pose proof (layout_sum (CuttingParameters.kerf params) 0 pre last_cut) as Hsum.
  rewrite <- Ec in Hsum. specialize (Hsum Hlay).
  assert (Hoff : CuttingPlan.offcuts plan = CuttingPlan.offcuts (_calculate_offcuts params plan))
    by now rewrite Hcalc.
  unfold _calculate_offcuts in Hoff.
  destruct (CuttingPlan.cuts plan) as [|c cs] eqn:Ecs; [contradiction|].
  set (total := (sum_Q (map CutPiece.actual_length (c :: cs))
                 + inject_Z (Z.of_nat (List.length (c :: cs)) - 1)
                   * CuttingParameters.kerf params)%Q) in *.
  assert (Ht : (total == CutPiece.x last_cut + CutPiece.actual_length last_cut)%Q)
    by (rewrite <- Hsum; ring).
  simpl. destruct (Qle_bool _ _) eqn:Eq; simpl in Hoff; apply eq_sym in Hoff.
  - apply Qle_bool_iff in Eq. split.
    + intros _. eexists. split; [symmetry; exact Hoff|]. simpl. rewrite Ht.
      repeat split; reflexivity.
    + intros Hlt. exfalso. rewrite Ht in Eq. apply (Qlt_not_le _ _ Hlt Eq).
  - split.
    + intros Hle. exfalso. assert (Hle' : (CuttingParameters.min_offcut_to_keep params
                                            <= LumberStock.length (CuttingPlan.stock plan) - total)%Q)
        by (rewrite Ht; exact Hle).
      apply Qle_bool_iff in Hle'. congruence.
    + intros _. symmetry. exact Hoff.
Qed.

Lemma part_dims_each part j a b c :
  nth_error (part_dims part) j = Some (a, b, c) ->
  (a = Part.length part \/ a = Part.width part \/ a = Part.thickness part)
  /\ (b = Part.length part \/ b = Part.width part \/ b = Part.thickness part)
  /\ (c = Part.length part \/ c = Part.width part \/ c = Part.thickness part).
Proof.
  unfold part_dims.
  destruct j as [|[|[|[|[|[|j]]]]]]; simpl; intros H; inversion H; subst; [tauto..|].
  destruct j; discriminate.
Qed.

Lemma make_nonzero (d dflt : Q) : ~ (d == 0)%Q -> (if Qeq_bool d 0 then dflt else d) = d.
Proof.
  intros H. destruct (Qeq_bool d 0) eqn:E; [|reflexivity].
  apply Qeq_bool_eq in E. contradiction.
Qed.

Lemma optimize_cut_sources inventory parts params elapsed :
  Forall (fun plan =>
    Forall (fun c => cut_from_orientation params (CuttingPlan.stock plan) c
                     /\ In (CutPiece.part c) parts) (CuttingPlan.cuts plan)
    /\ In (CuttingPlan.stock plan) inventory)
    (OptimizationResult.cutting_plans
       (optimizer.optimize_cutting_plan inventory parts params elapsed)).
Proof.
  destruct (optimize_plans inventory parts params elapsed) as [Hok [_ [_ Hin]]].
  apply Forall_forall. intros plan Hp.
  rewrite Forall_forall in Hok, Hin. destruct (Hok plan Hp) as [Hs [_ [_ [_ Hfo]]]].
  specialize (Hin plan Hp). rewrite Forall_forall in Hfo, Hin.
  split; [|now apply in_sort_inventory].
  apply Forall_forall. intros c Hc. auto.
Qed.

(** Extra: when a grain direction is set, a cut of a part that does not
    allow rotation is never rotated and has exactly the part's length,
    width and thickness. *)
Theorem optimize_grain_locked inventory parts params elapsed :
  CuttingParameters.grain_direction params <> NONE ->
  Forall (fun plan =>
    Forall (fun c =>
      Part.allow_rotation (CutPiece.part c) = false ->
      CutPiece.rotated c = false
      /\ CutPiece.actual_length c = Part.length (CutPiece.part c)
      /\ CutPiece.actual_width c = Part.width (CutPiece.part c)
      /\ CutPiece.actual_thickness c = Part.thickness (CutPiece.part c)) (CuttingPlan.cuts plan))
    (OptimizationResult.cutting_plans
       (optimizer.optimize_cutting_plan inventory parts params elapsed)).
Proof.
  intros Hg. eapply Forall_impl; [|apply optimize_cut_sources]. simpl.
  intros plan [Hcs _]. eapply Forall_impl; [|exact Hcs]. simpl.
  intros c [[rotated [pl [pw [pt [Hor Hc]]]]] _] Hrot.
  destruct (orientation_in _ _ _ _ _ _ _ Hor) as [j [Hj [Hr [Hchk _]]]].
  unfold _check_grain_direction in Hchk. rewrite Hrot in Hchk.
  assert (j = 0%nat) as ->.
  { destruct (CuttingParameters.grain_direction params); [contradiction| |];
      destruct j; simpl in Hchk; [reflexivity|discriminate|reflexivity|discriminate]. }
  simpl in Hj, Hr. injection Hj as <- <- <-. subst rotated.
  rewrite Hc. simpl.
  repeat split; destruct (Qeq_bool _ 0); reflexivity.
Qed.

(** Extra: when no requested part has a zero dimension, every cut's
    [actual_length], [actual_width] and [actual_thickness] are one of the six
    orderings of its part's dimensions, [rotated] is set exactly when it is
    not the first ordering, and each is at most the stock's dimension plus
    [tolerance]. *)
Theorem optimize_cut_orientation inventory parts params elapsed :
  Forall (fun p => ~ (Part.length p == 0)%Q /\ ~ (Part.width p == 0)%Q
                   /\ ~ (Part.thickness p == 0)%Q) parts ->
  Forall (fun plan =>
    Forall (fun c =>
      (exists j, nth_error (part_dims (CutPiece.part c)) j
                 = Some (CutPiece.actual_length c, CutPiece.actual_width c,
                         CutPiece.actual_thickness c)
                 /\ CutPiece.rotated c = negb (j =? 0)%nat)
      /\ (CutPiece.actual_length c
          <= LumberStock.length (CuttingPlan.stock plan) + CuttingParameters.tolerance params)%Q
      /\ (CutPiece.actual_width c
          <= LumberStock.width (CuttingPlan.stock plan) + CuttingParameters.tolerance params)%Q
      /\ (CutPiece.actual_thickness c
          <= LumberStock.thickness (CuttingPlan.stock plan) + CuttingParameters.tolerance params)%Q)
      (CuttingPlan.cuts plan))
    (OptimizationResult.cutting_plans
       (optimizer.optimize_cutting_plan inventory parts params elapsed)).
Proof.
  intros Hnz. eapply Forall_impl; [|apply optimize_cut_sources]. simpl.
  intros plan [Hcs _]. eapply Forall_impl; [|exact Hcs]. simpl.
  intros c [[rotated [pl [pw [pt [Hor Hc]]]]] Hp].
  rewrite Forall_forall in Hnz. destruct (Hnz _ Hp) as [Hl [Hw Ht]].
  destruct (orientation_in _ _ _ _ _ _ _ Hor) as [j [Hj [Hr [_ [Fl [Fw Ft]]]]]].
  destruct (part_dims_each _ _ _ _ _ Hj) as [El [Ew Et]].
  assert (Nl : ~ (pl == 0)%Q) by (destruct El as [->|[->| ->]]; assumption).
  assert (Nw : ~ (pw == 0)%Q) by (destruct Ew as [->|[->| ->]]; assumption).
  assert (Nt : ~ (pt == 0)%Q) by (destruct Et as [->|[->| ->]]; assumption).
  rewrite Hc. simpl. rewrite !make_nonzero by assumption.
  split; [|split; [exact Fl|split; [exact Fw|exact Ft]]].
  exists j. split; [|exact Hr].
  rewrite Hc in Hj. exact Hj.
Qed.

(** Extra: a part id none of whose parts fits any inventory item in any
    orientation gets no cut at all (no cut piece of any plan carries that
    id), and its whole requested quantity is listed as unassigned. *)
Theorem optimize_unfit_unassigned inventory parts params elapsed k :
  (forall p s, In p parts -> has_id k p = true -> In s inventory ->
               _get_possible_orientations params p s = []) ->
  count_cuts_id k (OptimizationResult.cutting_plans
                     (optimizer.optimize_cutting_plan inventory parts params elapsed)) = 0%nat
  /\ unassigned_qty k (OptimizationResult.unassigned_parts
                         (optimizer.optimize_cutting_plan inventory parts params elapsed))
     = sum_Z (map (fun p => Z.max 0 (Part.total_quantity p)) (filter (has_id k) parts)).
Proof.
  intros Hunfit.
  destruct (optimize_counts inventory parts params elapsed) as [Hcnt _].
  cbv zeta in Hcnt. rewrite <- (Hcnt k).
  assert (H0 : count_cuts_id k (OptimizationResult.cutting_plans
                 (optimizer.optimize_cutting_plan inventory parts params elapsed)) = 0%nat).
  { unfold count_cuts_id. apply length_zero_iff_nil.
    destruct (filter _ _) as [|c l] eqn:E; [reflexivity|exfalso].
    assert (Hc : In c (c :: l)) by now left. rewrite <- E in Hc.
    apply filter_In in Hc as [Hc Hk]. unfold all_cuts in Hc.
    apply in_flat_map in Hc as [plan [Hp Hc]].
    pose proof (optimize_cut_sources inventory parts params elapsed) as Hsrc.
    rewrite Forall_forall in Hsrc. destruct (Hsrc plan Hp) as [Hcs Hs].
    rewrite Forall_forall in Hcs. destruct (Hcs c Hc) as [[rotated [pl [pw [pt [Hor _]]]]] Hpc].
    rewrite (Hunfit _ _ Hpc Hk Hs) in Hor. exact Hor. }
  split; [exact H0|]. rewrite H0. simpl. lia.
Qed.

(** *** Volumes *)

Lemma oriented_cut params part stock x y z rotated pl pw pt :
  positive_dims part ->
  In (rotated, pl, pw, pt) (_get_possible_orientations params part stock) ->
  (CuttingPlan.cut_volume (CutPiece.make part x y z rotated pl pw pt) == Part.volume part)%Q
  /\ (0 < pl /\ 0 < pw /\ 0 < pt)%Q
  /\ (pl <= LumberStock.length stock + CuttingParameters.tolerance params)%Q
  /\ (pw <= LumberStock.width stock + CuttingParameters.tolerance params)%Q
  /\ (pt <= LumberStock.thickness stock + CuttingParameters.tolerance params)%Q
  /\ (CuttingPlan.cut_volume (CutPiece.make part x y z rotated pl pw pt) == pl * pw * pt)%Q.
Proof.
  intros [Hl [Hw Ht]] Hor.
  destruct (orientation_in _ _ _ _ _ _ _ Hor) as [j [Hj [_ [_ [Fl [Fw Ft]]]]]].
  destruct (part_dims_each _ _ _ _ _ Hj) as [El [Ew Et]].
  assert (Pl : (0 < pl)%Q) by (destruct El as [->|[->| ->]]; assumption).
  assert (Pw : (0 < pw)%Q) by (destruct Ew as [->|[->| ->]]; assumption).
  assert (Pt : (0 < pt)%Q) by (destruct Et as [->|[->| ->]]; assumption).
  assert (Hv : (CuttingPlan.cut_volume (CutPiece.make part x y z rotated pl pw pt)
                == pl * pw * pt)%Q).
  { unfold CuttingPlan.cut_volume, CutPiece.make. simpl.
    rewrite !make_nonzero; [reflexivity| |  |];
      intros E; rewrite E in *; apply (Qlt_irrefl 0); assumption. }
  split; [rewrite Hv; apply (part_dims_volume _ _ _ _ _ Hj)|].
  repeat split; assumption.
Qed.

Lemma cut_volume_pos params stock c :
  positive_dims (CutPiece.part c) -> cut_from_orientation params stock c ->
  (0 < CuttingPlan.cut_volume c)%Q.
Proof.
  intros Hp [rotated [pl [pw [pt [Hor Hc]]]]].
  destruct (oriented_cut params _ _ (CutPiece.x c) (CutPiece.y c) (CutPiece.z c) _ _ _ _ Hp Hor)
    as [_ [[Pl [Pw Pt]] [_ [_ [_ Hv]]]]].
  rewrite Hc, Hv. apply Qmult_lt_0_compat; [apply Qmult_lt_0_compat|]; assumption.
Qed.

Lemma vol_inv_step params inv done st part :
  (CuttingParameters.tolerance params <= 0)%Q -> positive_dims part ->
  opt_inv params inv done st ->
  Forall plan_volume_ok (cutting_plans st) ->
  Forall plan_volume_ok (cutting_plans (place_part params inv st part)).
Proof.
  intros Htol Hpos [Hok _] Hvol.
  destruct (place_part_cases params inv st part)
    as [[pre [plan [post [plan' [Hpl [Hcan [Hadd ->]]]]]]]
       |[[stock [plan' [Hin [Hlt [Hadd ->]]]]]| ->]]; simpl.
  - rewrite Hpl in Hok, Hvol.
    apply Forall_app in Hvol as [Hpre Hpost]. inversion Hpost as [|? ? Hv Hpost']; subst.
    apply Forall_app. split; [exact Hpre|]. constructor; [|exact Hpost'].
    apply Forall_app in Hok as [_ Hok]. apply Forall_inv in Hok as [_ [Hne _]].
    destruct (add_part_spec _ _ _ _ Hadd) as [rotated [pl [pw [pt [Hor Hplan']]]]].
    destruct (oriented_cut params _ _ (next_x (CuttingParameters.kerf params) (CuttingPlan.cuts plan))
                0 0 _ _ _ _ Hpos Hor) as [Hcv _].
    assert (Hcan' : (Part.volume part <= LumberStock.volume (CuttingPlan.stock plan)
                     - sum_Q (map CuttingPlan.cut_volume (CuttingPlan.cuts plan)))%Q).
    { unfold _can_add_part_to_plan in Hcan.
      destruct (CuttingPlan.cuts plan) as [|c0 cs]; [contradiction|].
      now apply Qle_bool_iff. }
    clear Hcan. rename Hcan' into Hcan.
    destruct (calculate_offcuts_fields params
                (CuttingPlan.mk (CuttingPlan.stock plan) (CuttingPlan.stock_index plan)
                   (CuttingPlan.cuts plan ++ [CutPiece.make part
                       (next_x (CuttingParameters.kerf params) (CuttingPlan.cuts plan))
                       0 0 rotated pl pw pt]) (CuttingPlan.offcuts plan))) as [Hs [_ Hc]].
    rewrite <- Hplan' in Hs, Hc. simpl in Hs, Hc.
    unfold plan_volume_ok. rewrite Hs, Hc, map_app, sum_Q_app. simpl.
    rewrite Qplus_0_r, Hcv.
    apply (Qplus_le_compat _ _ _ _ (Qle_refl (sum_Q (map CuttingPlan.cut_volume (CuttingPlan.cuts plan))))) in Hcan.
    eapply Qle_trans; [exact Hcan|]. apply Qle_lteq. right. ring.
  - apply Forall_app. split; [exact Hvol|]. constructor; [|constructor].
    destruct (add_part_spec _ _ _ _ Hadd) as [rotated [pl [pw [pt [Hor Hplan']]]]].
    simpl in Hor.
    destruct (oriented_cut params _ _ 0 0 0 _ _ _ _ Hpos Hor)
      as [_ [[Pl [Pw Pt]] [Fl [Fw [Ft Hv]]]]].
    assert (Hs : CuttingPlan.stock plan' = stock)
      by (rewrite Hplan'; now rewrite (proj1 (calculate_offcuts_fields _ _))).
    assert (Hc : CuttingPlan.cuts plan' = [CutPiece.make part 0 0 0 rotated pl pw pt])
      by (rewrite Hplan'; now rewrite (proj2 (proj2 (calculate_offcuts_fields _ _)))).
    unfold plan_volume_ok. rewrite Hs, Hc. simpl. unfold sum_Q. simpl.
    rewrite Qplus_0_r, Hv. unfold LumberStock.volume.
    assert (Hl : (pl <= LumberStock.length stock)%Q)
      by (eapply Qle_trans; [exact Fl|]; rewrite <- (Qplus_0_r (LumberStock.length stock)) at 2;
          apply Qplus_le_compat; [apply Qle_refl|exact Htol]).
    assert (Hw : (pw <= LumberStock.width stock)%Q)
      by (eapply Qle_trans; [exact Fw|]; rewrite <- (Qplus_0_r (LumberStock.width stock)) at 2;
          apply Qplus_le_compat; [apply Qle_refl|exact Htol]).
    assert (Ht : (pt <= LumberStock.thickness stock)%Q)
      by (eapply Qle_trans; [exact Ft|]; rewrite <- (Qplus_0_r (LumberStock.thickness stock)) at 2;
          apply Qplus_le_compat; [apply Qle_refl|exact Htol]).
    apply Qmult_le_compat_nonneg; split; try assumption.
    + apply Qmult_le_0_compat; apply Qlt_le_weak; assumption.
    + apply Qmult_le_compat_nonneg; split; auto using Qlt_le_weak.
    + apply Qlt_le_weak; assumption.
  - exact Hvol.
Qed.

Lemma vol_inv_fold params inv l : forall done st,
  (CuttingParameters.tolerance params <= 0)%Q -> Forall positive_dims l ->
  opt_inv params inv done st ->
  Forall plan_volume_ok (cutting_plans st) ->
  Forall plan_volume_ok (cutting_plans (fold_left (place_part params inv) l st)).
Proof.
  induction l as [|p l IH]; simpl; intros done st Htol Hpos Hinv Hvol; [exact Hvol|].
  inversion Hpos as [|? ? Hp Hl]; subst.
  apply (IH (done ++ [p])); auto.
  - now apply opt_inv_step.
  - now apply (vol_inv_step params inv done).
Qed.

Lemma optimize_unfold_vol inventory parts params elapsed :
  (CuttingParameters.tolerance params <= 0)%Q -> Forall positive_dims parts ->
  exists st, opt_inv params (sort_inventory inventory) (expand_parts (_sort_parts params parts)) st
    /\ Forall plan_volume_ok (cutting_plans st)
    /\ optimizer.optimize_cutting_plan inventory parts params elapsed
       = let result := _calculate_results (cutting_plans st)
                         (_consolidate_unassigned (unassigned_parts st))
                         (sort_inventory inventory) in
         OptimizationResult.mk (OptimizationResult.cutting_plans result)
           (OptimizationResult.unassigned_parts result)
           (OptimizationResult.total_sticks_used result)
           (OptimizationResult.total_cuts result) (OptimizationResult.overall_efficiency result)
           (OptimizationResult.total_waste result) (OptimizationResult.total_cost result)
           (OptimizationResult.total_volume_used_cft result) elapsed.
Proof.
  intros Htol Hpos. eexists. split; [|split; [|reflexivity]].
  - apply (opt_inv_fold params _ _ [] _ (opt_inv_init params _)).
  - apply (vol_inv_fold params _ _ [] _ Htol).
    + apply Forall_forall. intros p Hp. rewrite Forall_forall in Hpos. apply Hpos.
      apply (Permutation_in _ (Permutation_sym (sort_parts_perm params parts))).
      now apply expand_parts_in.
    + apply opt_inv_init.
    + constructor.
Qed.

Lemma calculate_results_efficiency plans u inv :
  plans <> [] ->
  OptimizationResult.overall_efficiency (_calculate_results plans u inv)
  = (if Qltb 0 (sum_Q (map (fun plan => LumberStock.volume (CuttingPlan.stock plan)) plans))
     then sum_Q (map (fun plan => sum_Q (map CuttingPlan.cut_volume (CuttingPlan.cuts plan))) plans)
          / sum_Q (map (fun plan => LumberStock.volume (CuttingPlan.stock plan)) plans) * 100
     else 0)
  /\ OptimizationResult.total_waste (_calculate_results plans u inv)
     = 100 - OptimizationResult.overall_efficiency (_calculate_results plans u inv).
Proof.
  intros Hne. unfold _calculate_results. destruct plans as [|p ps]; [contradiction|].
  destruct (cost_and_volume _ _). split; reflexivity.
Qed.

Lemma ratio_bounds (u v : Q) : (0 < u)%Q -> (u <= v)%Q -> (0 < u / v * 100 <= 100)%Q.
Proof.
  intros Hu Huv. assert (Hv : (0 < v)%Q) by (eapply Qlt_le_trans; eauto).
  split.
  - apply Qmult_lt_0_compat; [|reflexivity].
    apply Qlt_shift_div_l; [exact Hv|]. now rewrite Qmult_0_l.
  - rewrite <- (Qmult_1_l 100) at 2. apply Qmult_le_compat_r; [|discriminate].
    apply Qle_shift_div_r; [exact Hv|]. now rewrite Qmult_1_l.
Qed.

Lemma sum_Q_le {A} (f g : A -> Q) l :
  Forall (fun a => f a <= g a)%Q l -> (sum_Q (map f l) <= sum_Q (map g l))%Q.
Proof.
  induction 1 as [|a l Ha _ IH]; [apply Qle_refl|]. simpl. now apply Qplus_le_compat.
Qed.

Lemma sum_Q_pos {A} (f : A -> Q) l :
  l <> [] -> Forall (fun a => 0 < f a)%Q l -> (0 < sum_Q (map f l))%Q.
Proof.
  intros Hne H. induction H as [|a l Ha _ IH]; [contradiction|]. simpl.
  destruct l as [|b l].
  - unfold sum_Q. simpl. now rewrite Qplus_0_r.
  - rewrite <- (Qplus_0_r 0). apply Qplus_lt_le_compat; [exact Ha|].
    apply Qlt_le_weak. apply IH. discriminate.
Qed.

(** Extra: with a non-positive [tolerance] and parts of positive
    dimensions, the volume cut from every plan is positive and at most the
    stock unit's volume, so each plan's [material_utilized] lies in
    (0, 100], [overall_efficiency] in [0, 100] and [total_waste] in
    [0, 100]. *)
Theorem optimize_volume_bound inventory parts params elapsed :
  (CuttingParameters.tolerance params <= 0)%Q ->
  Forall positive_dims parts ->
  let r := optimizer.optimize_cutting_plan inventory parts params elapsed in
  Forall (fun plan =>
    (0 < sum_Q (map CuttingPlan.cut_volume (CuttingPlan.cuts plan))
         <= LumberStock.volume (CuttingPlan.stock plan))%Q
    /\ (0 < CuttingPlan.material_utilized plan <= 100)%Q) (OptimizationResult.cutting_plans r)
  /\ (0 <= OptimizationResult.overall_efficiency r <= 100)%Q
  /\ (0 <= OptimizationResult.total_waste r <= 100)%Q.
Proof.
  intros Htol Hpos.
  destruct (optimize_unfold_vol inventory parts params elapsed Htol Hpos) as [st [Hinv [Hvol ->]]].
  destruct Hinv as [Hok [_ [_ [_ [_ [_ [_ Hdone]]]]]]].
  destruct (calculate_results_fields (cutting_plans st)
              (_consolidate_unassigned (unassigned_parts st)) (sort_inventory inventory))
    as [E1 _].
  cbv zeta. simpl. rewrite E1.
  assert (Hplans : Forall (fun plan =>
            (0 < sum_Q (map CuttingPlan.cut_volume (CuttingPlan.cuts plan))
                 <= LumberStock.volume (CuttingPlan.stock plan))%Q) (cutting_plans st)).
  { apply Forall_forall. intros plan Hp. rewrite Forall_forall in Hok, Hvol.
    split; [|exact (Hvol plan Hp)].
    destruct (Hok plan Hp) as [_ [Hne [_ [_ Hfo]]]].
    apply sum_Q_pos; [exact Hne|]. apply Forall_forall. intros c Hc.
    rewrite Forall_forall in Hfo. apply (cut_volume_pos params (CuttingPlan.stock plan)).
    - rewrite Forall_forall in Hpos. apply Hpos.
      apply (Permutation_in _ (Permutation_sym (sort_parts_perm params parts))).
      apply expand_parts_in, Hdone. unfold all_cuts. apply in_flat_map. eauto.
    - now apply Hfo. }
  split; [|split].
  - eapply Forall_impl; [|exact Hplans]. intros plan [H0 H1]. split; [split; assumption|].
    unfold CuttingPlan.material_utilized.
    destruct (Qeq_bool _ 0) eqn:E.
    + exfalso. apply Qeq_bool_eq in E. rewrite E in H1.
      apply (Qlt_not_le _ _ H0 H1).
    + now apply ratio_bounds.
  - destruct (cutting_plans st) as [|p ps] eqn:Eps.
    + split; [apply Qle_refl|discriminate].
    + rewrite <- Eps in *. assert (Hne : cutting_plans st <> []) by (rewrite Eps; discriminate).
      rewrite (proj1 (calculate_results_efficiency _ _ _ Hne)).
      assert (Hu : (0 < sum_Q (map (fun plan => sum_Q (map CuttingPlan.cut_volume
                                                         (CuttingPlan.cuts plan)))
                                 (cutting_plans st)))%Q).
      { apply sum_Q_pos; [exact Hne|]. eapply Forall_impl; [|exact Hplans]. now intros ? []. }
      assert (Huv := sum_Q_le _ (fun plan => LumberStock.volume (CuttingPlan.stock plan)) _
                       (Forall_impl _ (fun plan (H : _ /\ _) => proj2 H) Hplans)).
      destruct (Qltb 0 _) eqn:E.
      * destruct (ratio_bounds _ _ Hu Huv). split; [now apply Qlt_le_weak|assumption].
      * exfalso. apply Qltb_false in E. apply (Qlt_not_le _ _ Hu). eapply Qle_trans; eauto.
  - destruct (cutting_plans st) as [|p ps] eqn:Eps.
    + split; [apply Qle_refl|discriminate].
    + rewrite <- Eps in *. assert (Hne : cutting_plans st <> []) by (rewrite Eps; discriminate).
      destruct (calculate_results_efficiency (cutting_plans st)
                  (_consolidate_unassigned (unassigned_parts st)) (sort_inventory inventory) Hne)
        as [Ee Ew].
      rewrite Ew, Ee.
      assert (Hu : (0 < sum_Q (map (fun plan => sum_Q (map CuttingPlan.cut_volume
                                                         (CuttingPlan.cuts plan)))
                                 (cutting_plans st)))%Q).
      { apply sum_Q_pos; [exact Hne|]. eapply Forall_impl; [|exact Hplans]. now intros ? []. }
      assert (Huv := sum_Q_le _ (fun plan => LumberStock.volume (CuttingPlan.stock plan)) _
                       (Forall_impl _ (fun plan (H : _ /\ _) => proj2 H) Hplans)).
      destruct (Qltb 0 _) eqn:E.
      * destruct (ratio_bounds _ _ Hu Huv) as [A B]. split; lra.
      * exfalso. apply Qltb_false in E. apply (Qlt_not_le _ _ Hu). eapply Qle_trans; eauto.
Qed.

(** *** Cost and volume in cubic feet *)

Lemma weighted_count_step inventory g d plan :
  (weighted inventory g (count_step d plan)
   == weighted inventory g d + stock_lookup inventory g (LumberStock.id (CuttingPlan.stock plan)))%Q.
Proof.
  unfold count_step. set (k := LumberStock.id (CuttingPlan.stock plan)). clearbody k.
  induction d as [|[k0 n0] d IH]; simpl.
  - unfold weighted, sum_Q. simpl. ring.
  - unfold dict_get_default in *. simpl. destruct (String.eqb k k0) eqn:E.
    + apply String.eqb_eq in E. subst k0. unfold weighted, sum_Q. simpl.
      rewrite inject_Z_plus. ring.
    + unfold weighted, sum_Q in *. simpl. rewrite IH. ring.
Qed.

Lemma weighted_count_stocks inventory g plans :
  (weighted inventory g (count_stocks plans)
   == sum_Q (map (fun plan => stock_lookup inventory g (LumberStock.id (CuttingPlan.stock plan)))
                 plans))%Q.
Proof.
  unfold count_stocks.
  assert (H : forall d, (weighted inventory g (fold_left count_step plans d)
     == weighted inventory g d
        + sum_Q (map (fun plan => stock_lookup inventory g (LumberStock.id (CuttingPlan.stock plan)))
                     plans))%Q).
  { induction plans as [|p ps IH]; simpl; intros d.
    - unfold sum_Q. simpl. ring.
    - rewrite IH, weighted_count_step. unfold sum_Q. simpl. ring. }
  rewrite H. unfold weighted, sum_Q. simpl. ring.
Qed.

Lemma cost_fold inventory d : forall a b,
  (fst (fold_left (cost_step inventory) d (a, b))
   == a + weighted inventory LumberStock.cost_per_unit d)%Q
  /\ (snd (fold_left (cost_step inventory) d (a, b))
      == b + weighted inventory LumberStock.volume_cft d)%Q.
Proof.
  induction d as [|[k n] d IH]; simpl; intros a b.
  - unfold weighted, sum_Q. simpl. split; ring.
  - unfold weighted, sum_Q, stock_lookup in *. simpl.
    destruct (find _ inventory) as [s|] eqn:E.
    + destruct (IH (a + LumberStock.cost_per_unit s * inject_Z n)
                   (b + LumberStock.volume_cft s * inject_Z n)) as [H1 H2].
      rewrite H1, H2. split; ring.
    + destruct (IH a b) as [H1 H2]. rewrite H1, H2. split; ring.
Qed.

Lemma find_unique_id inventory s :
  NoDup (map LumberStock.id inventory) -> In s inventory ->
  find (fun s' => String.eqb (LumberStock.id s') (LumberStock.id s)) inventory = Some s.
Proof.
  induction inventory as [|s0 l IH]; simpl; [contradiction|].
  intros Hnd [<-|Hin]; inversion Hnd as [|? ? Hn Hnd']; subst.
  - now rewrite String.eqb_refl.
  - destruct (String.eqb_spec (LumberStock.id s0) (LumberStock.id s)) as [E|E].
    + exfalso. apply Hn. rewrite E. now apply in_map.
    + now apply IH.
Qed.

Lemma calculate_results_cost plans u inv :
  (OptimizationResult.total_cost (_calculate_results plans u inv)
   == weighted inv LumberStock.cost_per_unit (count_stocks plans))%Q
  /\ (OptimizationResult.total_volume_used_cft (_calculate_results plans u inv)
      == weighted inv LumberStock.volume_cft (count_stocks plans))%Q.
Proof.
  unfold _calculate_results. destruct plans as [|p ps].
  - split; reflexivity.
  - unfold cost_and_volume.
    destruct (cost_fold inv (count_stocks (p :: ps)) 0 0) as [H1 H2].
    destruct (fold_left _ _ _) as [c v]. simpl in *. rewrite H1, H2. split; ring.
Qed.

(** Extra: when the inventory items have distinct ids, [total_cost] is the
    sum of the [cost_per_unit] of the stock of every plan, and
    [total_volume_used_cft] the sum of their [volume_cft]. *)
Theorem optimize_total_cost inventory parts params elapsed :
  NoDup (map LumberStock.id inventory) ->
  let r := optimizer.optimize_cutting_plan inventory parts params elapsed in
  (OptimizationResult.total_cost r
   == sum_Q (map (fun plan => LumberStock.cost_per_unit (CuttingPlan.stock plan))
                 (OptimizationResult.cutting_plans r)))%Q
  /\ (OptimizationResult.total_volume_used_cft r
      == sum_Q (map (fun plan => LumberStock.volume_cft (CuttingPlan.stock plan))
                    (OptimizationResult.cutting_plans r)))%Q.
Proof.
  intros Hnd.
  destruct (optimize_unfold inventory parts params elapsed) as [st [Hinv ->]].
  destruct Hinv as [Hok _].
  destruct (calculate_results_fields (cutting_plans st)
              (_consolidate_unassigned (unassigned_parts st)) (sort_inventory inventory))
    as [E1 _].
  destruct (calculate_results_cost (cutting_plans st)
              (_consolidate_unassigned (unassigned_parts st)) (sort_inventory inventory))
    as [C1 C2].
  cbv zeta. simpl. rewrite E1, C1, C2, !weighted_count_stocks.
  assert (Hnd' : NoDup (map LumberStock.id (sort_inventory inventory))).
  { eapply Permutation_NoDup; [|exact Hnd]. apply Permutation_map, sort_inventory_perm. }
  assert (Hl : forall g, map (fun plan => stock_lookup (sort_inventory inventory) g
                                             (LumberStock.id (CuttingPlan.stock plan)))
                             (cutting_plans st)
                         = map (fun plan => g (CuttingPlan.stock plan)) (cutting_plans st)).
  { intros g. apply map_ext_in. intros plan Hp. rewrite Forall_forall in Hok.
    destruct (Hok plan Hp) as [Hs _]. unfold stock_lookup.
    now rewrite (find_unique_id _ _ Hnd' Hs). }
  rewrite !Hl. split; reflexivity.
Qed.

(** *** Sorting the parts *)

Section InsertionSorted.
Context {A : Type}.
Variable lt : A -> A -> bool.
Hypothesis lt_asym : forall a b, lt a b = true -> lt b a = false.

Lemma insert_sorted_hd a x l :
  lt x a = false -> HdRel (fun u v => lt v u = false) a l ->
  HdRel (fun u v => lt v u = false) a (insert_sorted lt x l).
Proof.
  intros Hx Hl. destruct l as [|y l]; simpl; [now constructor|].
  destruct (lt y x); constructor; [now inversion Hl|exact Hx].
Qed.

Lemma insert_sorted_sorted x l :
  Sorted (fun u v => lt v u = false) l ->
  Sorted (fun u v => lt v u = false) (insert_sorted lt x l).
Proof.
  induction l as [|y l IH]; simpl; intros Hs; [repeat constructor|].
  destruct (lt y x) eqn:E.
  - inversion Hs as [|? ? Hs' Hhd]; subst. constructor; [now apply IH|].
    apply insert_sorted_hd; [now apply lt_asym|exact Hhd].
  - constructor; [exact Hs|]. now constructor.
Qed.

Lemma stable_sort_sorted l : Sorted (fun u v => lt v u = false) (stable_sort lt l).
Proof.
  induction l as [|x l IH]; simpl; [constructor|]. now apply insert_sorted_sorted.
Qed.
End InsertionSorted.

Lemma Sorted_weaken {A} (R R' : A -> A -> Prop) l :
  (forall a b, R a b -> R' a b) -> Sorted R l -> Sorted R' l.
Proof.
  intros HR. induction 1 as [|a l Hs IH Hhd]; constructor; [exact IH|].
  destruct Hhd; constructor. auto.
Qed.

Lemma pair_lt_asym a b : pair_lt a b = true -> pair_lt b a = false.
Proof.
  unfold pair_lt. rewrite Z.eqb_sym. destruct (fst b =? fst a)%Z eqn:E.
  - intros H. apply Qltb_true in H. destruct (Qltb (snd b) (snd a)) eqn:E'; [|reflexivity].
    apply Qltb_true in E'. exfalso. apply (Qlt_not_le _ _ H). now apply Qlt_le_weak.
  - intros H. apply Z.ltb_lt in H. apply Z.ltb_ge. lia.
Qed.

(** Extra: [_sort_parts] returns a permutation of the parts in which the
    priorities never increase and, among equal priorities, the volumes
    never increase ([MAXIMIZE_EFFICIENCY], [MINIMIZE_COST]) or never
    decrease ([FASTEST_CUT]). *)
Theorem sort_parts_order params parts :
  Permutation parts (_sort_parts params parts)
  /\ Sorted (fun p q =>
       (Part.priority q < Part.priority p)%Z
       \/ (Part.priority q = Part.priority p
           /\ match CuttingParameters.optimization_priority params with
              | FASTEST_CUT => (Part.volume p <= Part.volume q)%Q
              | _ => (Part.volume q <= Part.volume p)%Q
              end)) (_sort_parts params parts).
Proof.
  split; [apply sort_parts_perm|].
  unfold _sort_parts. destruct (CuttingParameters.optimization_priority params);
    (eapply Sorted_weaken; [|apply stable_sort_sorted; intros a b; apply pair_lt_asym]);
    intros p q H; unfold pair_lt in H; simpl in H;
    destruct (- Part.priority q =? - Part.priority p)%Z eqn:E.
  all: try (apply Z.eqb_eq in E; right; split; [lia|]).
  all: try (apply Z.eqb_neq in E; apply Z.ltb_ge in H; left; lia).
  all: apply Qltb_false in H.
  - apply Qopp_le_compat in H. now rewrite !Qopp_involutive in H.
  - apply Qopp_le_compat in H. now rewrite !Qopp_involutive in H.
  - exact H.
Qed.

(** ** Witnesses *)

Lemma optimize_grain_locked_witness :
  CuttingParameters.grain_direction ex_params <> NONE
  /\ Forall (fun plan =>
       Forall (fun c =>
         Part.allow_rotation (CutPiece.part c) = false ->
         CutPiece.rotated c = false
         /\ CutPiece.actual_length c = Part.length (CutPiece.part c)
         /\ CutPiece.actual_width c = Part.width (CutPiece.part c)
         /\ CutPiece.actual_thickness c = Part.thickness (CutPiece.part c))
         (CuttingPlan.cuts plan))
       (OptimizationResult.cutting_plans
          (optimizer.optimize_cutting_plan [ex_oak; ex_pine] [ex_leg; ex_top] ex_params 0)).
Proof.
  assert (H : CuttingParameters.grain_direction ex_params <> NONE) by (vm_compute; discriminate).
  split; [exact H|]. exact (optimize_grain_locked [ex_oak; ex_pine] [ex_leg; ex_top] ex_params 0 H).
Defined.

Lemma optimize_cut_orientation_witness :
  Forall (fun p => ~ (Part.length p == 0)%Q /\ ~ (Part.width p == 0)%Q
                   /\ ~ (Part.thickness p == 0)%Q) [ex_leg; ex_top]
  /\ Forall (fun plan =>
       Forall (fun c =>
         (exists j, nth_error (part_dims (CutPiece.part c)) j
                    = Some (CutPiece.actual_length c, CutPiece.actual_width c,
                            CutPiece.actual_thickness c)
                    /\ CutPiece.rotated c = negb (j =? 0)%nat)
         /\ (CutPiece.actual_length c
             <= LumberStock.length (CuttingPlan.stock plan)
                + CuttingParameters.tolerance ex_params)%Q
         /\ (CutPiece.actual_width c
             <= LumberStock.width (CuttingPlan.stock plan)
                + CuttingParameters.tolerance ex_params)%Q
         /\ (CutPiece.actual_thickness c
             <= LumberStock.thickness (CuttingPlan.stock plan)
                + CuttingParameters.tolerance ex_params)%Q)
         (CuttingPlan.cuts plan))
       (OptimizationResult.cutting_plans
          (optimizer.optimize_cutting_plan [ex_oak; ex_pine] [ex_leg; ex_top] ex_params 0)).
Proof.
  assert (H : Forall (fun p => ~ (Part.length p == 0)%Q /\ ~ (Part.width p == 0)%Q
                               /\ ~ (Part.thickness p == 0)%Q) [ex_leg; ex_top])
    by (repeat constructor; vm_compute; discriminate).
  split; [exact H|]. exact (optimize_cut_orientation [ex_oak; ex_pine] [ex_leg; ex_top] ex_params 0 H).
Defined.

Lemma optimize_unfit_unassigned_witness :
  (forall p s, In p [ex_leg; ex_top] -> has_id "p_top" p = true -> In s [ex_oak; ex_pine] ->
               _get_possible_orientations ex_params p s = [])
  /\ count_cuts_id "p_top"
       (OptimizationResult.cutting_plans
          (optimizer.optimize_cutting_plan [ex_oak; ex_pine] [ex_leg; ex_top] ex_params 0)) = 0%nat
  /\ unassigned_qty "p_top"
       (OptimizationResult.unassigned_parts
          (optimizer.optimize_cutting_plan [ex_oak; ex_pine] [ex_leg; ex_top] ex_params 0))
     = sum_Z (map (fun p => Z.max 0 (Part.total_quantity p))
                  (filter (has_id "p_top") [ex_leg; ex_top])).
Proof.
  assert (H : forall p s, In p [ex_leg; ex_top] -> has_id "p_top" p = true ->
                          In s [ex_oak; ex_pine] -> _get_possible_orientations ex_params p s = []).
  { intros p s Hp Hk Hs. destruct Hp as [<-|[<-|[]]]; [vm_compute in Hk; discriminate Hk|].
    destruct Hs as [<-|[<-|[]]]; vm_compute; reflexivity. }
  split; [exact H|].
  exact (optimize_unfit_unassigned [ex_oak; ex_pine] [ex_leg; ex_top] ex_params 0 "p_top" H).
Defined.

Lemma optimize_volume_bound_witness :
  (CuttingParameters.tolerance ex_params_exact <= 0)%Q
  /\ Forall positive_dims [ex_leg; ex_top]
  /\ let r := optimizer.optimize_cutting_plan [ex_oak; ex_pine] [ex_leg; ex_top]
                ex_params_exact 0 in
     Forall (fun plan =>
       (0 < sum_Q (map CuttingPlan.cut_volume (CuttingPlan.cuts plan))
            <= LumberStock.volume (CuttingPlan.stock plan))%Q
       /\ (0 < CuttingPlan.material_utilized plan <= 100)%Q) (OptimizationResult.cutting_plans r)
     /\ (0 <= OptimizationResult.overall_efficiency r <= 100)%Q
     /\ (0 <= OptimizationResult.total_waste r <= 100)%Q.
Proof.
  assert (H1 : (CuttingParameters.tolerance ex_params_exact <= 0)%Q)
    by (vm_compute; discriminate).
  assert (H2 : Forall positive_dims [ex_leg; ex_top])
    by (repeat constructor; vm_compute; reflexivity).
  split; [exact H1|split; [exact H2|]].
  exact (optimize_volume_bound [ex_oak; ex_pine] [ex_leg; ex_top] ex_params_exact 0 H1 H2).
Defined.

Lemma optimize_total_cost_witness :
  NoDup (map LumberStock.id [ex_oak; ex_pine])
  /\ let r := optimizer.optimize_cutting_plan [ex_oak; ex_pine] [ex_leg; ex_top] ex_params 0 in
     (OptimizationResult.total_cost r
      == sum_Q (map (fun plan => LumberStock.cost_per_unit (CuttingPlan.stock plan))
                    (OptimizationResult.cutting_plans r)))%Q
     /\ (OptimizationResult.total_volume_used_cft r
         == sum_Q (map (fun plan => LumberStock.volume_cft (CuttingPlan.stock plan))
                       (OptimizationResult.cutting_plans r)))%Q.
Proof.
  assert (H : NoDup (map LumberStock.id [ex_oak; ex_pine])).
  { vm_compute. constructor; [intros [E|[]]; discriminate E|].
    constructor; [intros []|constructor]. }
  split; [exact H|].
  exact (optimize_total_cost [ex_oak; ex_pine] [ex_leg; ex_top] ex_params 0 H).
Defined.
